(** * Layers.py: attention building blocks of a Transformer

    A shallow embedding of [Layers.py] (LayerNorm, SublayerConnection,
    attention, MultiHeadedAttention, PositionalEncoding and
    MultiHeadedAttention_RPR) together with the torch operations the file
    calls.  Tensors are dense row-major arrays with a shape; the element type
    is a parameter (class [Numeric]), instantiated with the real numbers for
    the exact-value properties and with an IEEE-style extension of the reals
    (NaN and the two infinities) for the properties about NaN and Inf.
    Python exceptions are an error result; the global random generator and
    the record of parameter allocations are threaded as explicit state. *)

From Stdlib Require Import List ZArith Reals Lia Lra Bool Arith.
Import ListNotations.

Set Implicit Arguments.

(** ** Exceptions and the error result *)

Inductive exn : Type :=
| RuntimeError
| AssertionError
| IndexError
| ValueError
| ZeroDivisionError.

Inductive result (A : Type) : Type :=
| Ok (a : A)
| Raise (e : exn).

Arguments Ok {A} a.
Arguments Raise {A} e.

Definition rbind {A B} (r : result A) (k : A -> result B) : result B :=
  match r with
  | Ok a => k a
  | Raise e => Raise e
  end.

Notation "x <- e ;; k" := (rbind e (fun x => k))
  (at level 61, e at next level, right associativity).

Definition is_ok {A} (r : result A) : bool :=
  match r with Ok _ => true | Raise _ => false end.

(** ** Element types *)

Class Default (A : Type) := dflt : A.

#[global] Instance Default_Z : Default Z := 0%Z.
#[global] Instance Default_bool : Default bool := false.
#[global] Instance Default_nat : Default nat := 0.

(** The scalar operations the numeric substrate provides on tensor elements
    and that Python's [math] module provides on floats. *)
Class Numeric (T : Type) := {
  zero : T;
  one : T;
  add : T -> T -> T;
  sub : T -> T -> T;
  mul : T -> T -> T;
  div : T -> T -> T;
  neg : T -> T;
  fsqrt : T -> T;
  fexp : T -> T;
  flog : T -> T;
  fsin : T -> T;
  fcos : T -> T;
  of_Z : Z -> T;
  feqb : T -> T -> bool;
  fltb : T -> T -> bool
}.

Definition of_nat {T} `{Numeric T} (n : nat) : T := of_Z (Z.of_nat n).

#[global] Instance Default_Numeric {T} `{Numeric T} : Default T := @zero T _.

(** ** Shapes and row-major indexing *)

Definition numel (sh : list nat) : nat := fold_right Nat.mul 1 sh.

Fixpoint ravel (sh idx : list nat) : nat :=
  match sh, idx with
  | _ :: sh', i :: idx' => i * numel sh' + ravel sh' idx'
  | _, _ => 0
  end.

(** All multi-indices of a shape, in row-major order. *)
Fixpoint indices (sh : list nat) : list (list nat) :=
  match sh with
  | [] => [[]]
  | n :: sh' => flat_map (fun i => map (cons i) (indices sh')) (seq 0 n)
  end.

Definition in_bounds (sh idx : list nat) : Prop := Forall2 lt idx sh.

Record Tensor (A : Type) : Type := mkTensor {
  shape : list nat;
  data : list A
}.

Arguments mkTensor {A} shape data.
Arguments shape {A} t.
Arguments data {A} t.

Definition wf {A} (t : Tensor A) : Prop := length (data t) = numel (shape t).

Definition get {A} `{Default A} (t : Tensor A) (idx : list nat) : A :=
  nth (ravel (shape t) idx) (data t) dflt.

Definition tabulate {A} (sh : list nat) (f : list nat -> A) : Tensor A :=
  mkTensor sh (map f (indices sh)).

Definition tmap {A B} (f : A -> B) (t : Tensor A) : Tensor B :=
  mkTensor (shape t) (map f (data t)).

Definition dim {A} (t : Tensor A) : nat := length (shape t).

(** Python's negative dimensions: [-1] is the last axis. *)
Definition norm_dim (rank : nat) (d : Z) : result nat :=
  if (d <? 0)%Z
  then if (Z.of_nat rank + d <? 0)%Z then Raise IndexError
       else Ok (Z.to_nat (Z.of_nat rank + d))
  else if (d <? Z.of_nat rank)%Z then Ok (Z.to_nat d) else Raise IndexError.

(** [t.size(d)] *)
Definition size {A} (t : Tensor A) (d : Z) : result nat :=
  k <- norm_dim (dim t) d ;; Ok (nth k (shape t) 0).

(** ** Broadcasting *)

Fixpoint broadcast_rev (a b : list nat) : option (list nat) :=
  match a, b with
  | [], _ => Some b
  | _, [] => Some a
  | x :: a', y :: b' =>
      match broadcast_rev a' b' with
      | None => None
      | Some r =>
          if x =? y then Some (x :: r)
          else if x =? 1 then Some (y :: r)
          else if y =? 1 then Some (x :: r)
          else None
      end
  end.

(** [torch.broadcast_shapes]: shapes are aligned at the trailing axis; two
    sizes are compatible when they are equal or one of them is 1. *)
Definition broadcast_shapes (a b : list nat) : option (list nat) :=
  option_map (@rev nat) (broadcast_rev (rev a) (rev b)).

Fixpoint bmask (sh idx : list nat) : list nat :=
  match sh, idx with
  | n :: sh', i :: idx' => (if n =? 1 then 0 else i) :: bmask sh' idx'
  | _, _ => []
  end.

(** The index of an operand of shape [sh] that the index [idx] of the
    broadcast result reads. *)
Definition broadcast_index (sh idx : list nat) : list nat :=
  bmask sh (skipn (length idx - length sh) idx).

(** An elementwise binary operation with broadcasting. *)
Definition tmap2 {A B C} `{Default A} `{Default B} (f : A -> B -> C)
    (a : Tensor A) (b : Tensor B) : result (Tensor C) :=
  match broadcast_shapes (shape a) (shape b) with
  | Some sh =>
      Ok (tabulate sh (fun idx =>
            f (get a (broadcast_index (shape a) idx))
              (get b (broadcast_index (shape b) idx))))
  | None => Raise RuntimeError
  end.

(** ** Shape-changing operations *)

Fixpoint insert_at {A} (k : nat) (x : A) (l : list A) : list A :=
  match k, l with
  | 0, _ => x :: l
  | S k', y :: l' => y :: insert_at k' x l'
  | S _, [] => [x]
  end.

(** [t.unsqueeze(d)] *)
Definition unsqueeze {A} (t : Tensor A) (d : Z) : result (Tensor A) :=
  k <- norm_dim (S (dim t)) d ;;
  Ok (mkTensor (insert_at k 1 (shape t)) (data t)).

Definition swap_at (i j : nat) (l : list nat) : list nat :=
  map (fun k => nth (if k =? i then j else if k =? j then i else k) l 0)
      (seq 0 (length l)).

(** [t.transpose(d0, d1)] *)
Definition transpose {A} `{Default A} (t : Tensor A) (d0 d1 : Z)
  : result (Tensor A) :=
  i <- norm_dim (dim t) d0 ;;
  j <- norm_dim (dim t) d1 ;;
  Ok (tabulate (swap_at i j (shape t)) (fun idx => get t (swap_at i j idx))).

Fixpoint index_of (d : nat) (l : list nat) : nat :=
  match l with
  | [] => 0
  | x :: l' => if x =? d then 0 else S (index_of d l')
  end.

Definition is_permutation (dims : list nat) (rank : nat) : bool :=
  (length dims =? rank)
  && forallb (fun d => existsb (Nat.eqb d) dims) (seq 0 rank).

Fixpoint norm_dims (rank : nat) (ds : list Z) : result (list nat) :=
  match ds with
  | [] => Ok []
  | d :: ds' =>
      k <- norm_dim rank d ;;
      ks <- norm_dims rank ds' ;;
      Ok (k :: ks)
  end.

(** [t.permute(dims...)]: axis [k] of the result is axis [dims[k]] of [t]. *)
Definition permute {A} `{Default A} (t : Tensor A) (dims : list Z)
  : result (Tensor A) :=
  ds <- norm_dims (dim t) dims ;;
  if is_permutation ds (dim t)
  then Ok (tabulate (map (fun d => nth d (shape t) 0) ds)
             (fun idx =>
                get t (map (fun d => nth (index_of d ds) idx 0)
                           (seq 0 (dim t)))))
  else Raise RuntimeError.

(** [t.contiguous()]: every tensor of the model is stored row-major. *)
Definition contiguous {A} (t : Tensor A) : Tensor A := t.

(** [t.view(dims...)] on a contiguous tensor; one size may be [-1]. *)
Definition view {A} (t : Tensor A) (dims : list Z) : result (Tensor A) :=
  let n := numel (shape t) in
  let known :=
    numel (map Z.to_nat (filter (fun d => negb (d =? -1)%Z) dims)) in
  if existsb (fun d => (d <? -1)%Z) dims then Raise RuntimeError
  else match length (filter (fun d => (d =? -1)%Z) dims) with
       | 0 =>
           if known =? n then Ok (mkTensor (map Z.to_nat dims) (data t))
           else Raise RuntimeError
       | 1 =>
           if known =? 0 then Raise RuntimeError
           else if n mod known =? 0
           then Ok (mkTensor
                      (map (fun d => if (d =? -1)%Z then n / known
                                     else Z.to_nat d) dims)
                      (data t))
           else Raise RuntimeError
       | _ => Raise RuntimeError
       end.

(** [t[:, :n]] *)
Definition slice_dim1 {A} `{Default A} (t : Tensor A) (n : nat)
  : result (Tensor A) :=
  match shape t with
  | a :: b :: rest => Ok (tabulate (a :: Nat.min b n :: rest) (get t))
  | _ => Raise IndexError
  end.

(** The number of elements of [range(start, stop, step)]. *)
Definition range_len (start stop step : nat) : nat :=
  (stop - start + (step - 1)) / step.

(** [t[:, start::step] = src] on a matrix [t]; [src] is expanded to the
    shape of the selected columns. *)
Definition setitem_cols {A} `{Default A} (t : Tensor A) (start step : nat)
    (src : Tensor A) : result (Tensor A) :=
  match shape t with
  | [rows; cols] =>
      let region := [rows; range_len start cols step] in
      match broadcast_shapes (shape src) region with
      | Some sh =>
          if list_eq_dec Nat.eq_dec sh region
          then Ok (tabulate [rows; cols] (fun idx =>
                 let r := nth 0 idx 0 in
                 let c := nth 1 idx 0 in
                 if (start <=? c) && ((c - start) mod step =? 0)
                 then get src (broadcast_index (shape src)
                                 [r; (c - start) / step])
                 else get t idx))
          else Raise RuntimeError
      | None => Raise RuntimeError
      end
  | _ => Raise IndexError
  end.

(** ** Integer tensors (int64) *)

Definition wrap64 (z : Z) : Z :=
  ((z + 2 ^ 63) mod 2 ^ 64 - 2 ^ 63)%Z.

Definition fits64 (z : Z) : bool :=
  ((- 2 ^ 63 <=? z) && (z <? 2 ^ 63))%Z.

(** [torch.arange(n)] *)
Definition arange (n : nat) : Tensor Z :=
  mkTensor [n] (map Z.of_nat (seq 0 n)).

(** [a - b] on int64 tensors *)
Definition isub (a b : Tensor Z) : result (Tensor Z) :=
  tmap2 (fun x y => wrap64 (x - y)) a b.

(** [torch.clamp(t, lo, hi)] with Python integer bounds *)
Definition clamp (t : Tensor Z) (lo hi : Z) : result (Tensor Z) :=
  if fits64 lo && fits64 hi
  then Ok (tmap (fun x => Z.min (Z.max x lo) hi) t)
  else Raise RuntimeError.

(** [t + k] with a Python integer [k] *)
Definition iadd_scalar (t : Tensor Z) (k : Z) : result (Tensor Z) :=
  if fits64 k then Ok (tmap (fun x => wrap64 (x + k)) t)
  else Raise RuntimeError.

(** [mask == 0] *)
Definition eq0 (mask : Tensor Z) : Tensor bool :=
  tmap (fun x => (x =? 0)%Z) mask.

(** ** Numeric tensors *)

Section NumericTensor.
Context {T : Type} `{Numeric T}.

Definition sum_list (l : list T) : T := fold_right add zero l.

(** The sum of [f 0], ..., [f (n - 1)]. *)
Definition tsum (n : nat) (f : nat -> T) : T := sum_list (map f (seq 0 n)).

Definition zeros (sh : list nat) : Tensor T := tabulate sh (fun _ => zero).
Definition ones (sh : list nat) : Tensor T := tabulate sh (fun _ => one).

(** [torch.arange(0., n)] *)
Definition farange (n : nat) : Tensor T :=
  mkTensor [n] (map of_nat (seq 0 n)).

(** [torch.arange(0., n, step)] *)
Definition farange_step (n step : nat) : Tensor T :=
  mkTensor [range_len 0 n step]
    (map (fun i => of_nat (i * step)) (seq 0 (range_len 0 n step))).

Definition tadd (a b : Tensor T) : result (Tensor T) := tmap2 add a b.
Definition tsub (a b : Tensor T) : result (Tensor T) := tmap2 sub a b.
Definition tmul (a b : Tensor T) : result (Tensor T) := tmap2 mul a b.
Definition tdiv (a b : Tensor T) : result (Tensor T) := tmap2 div a b.

(** [t.masked_fill(m, v)] *)
Definition masked_fill (t : Tensor T) (m : Tensor bool) (v : T)
  : result (Tensor T) :=
  tmap2 (fun x (b : bool) => if b then v else x) t m.

(** The size of the last axis (1 for a scalar). *)
Definition last_size (sh : list nat) : nat := last sh 1.

(** The entry [j] of the row (along the last axis) that [idx] lies in. *)
Definition row_get (t : Tensor T) (idx : list nat) (j : nat) : T :=
  get t (removelast idx ++ [j]).

(** [F.softmax(t, dim=-1)]:
    softmax(x)_i = exp(x_i) / sum_j exp(x_j) along the last axis.  (The
    library evaluates the quotient after subtracting the maximum of the
    row from every entry, which leaves its exact value unchanged.) *)
Definition softmax (t : Tensor T) : Tensor T :=
  tabulate (shape t) (fun idx =>
    div (fexp (get t idx))
        (tsum (last_size (shape t)) (fun j => fexp (row_get t idx j)))).

Definition keepdim_shape (sh : list nat) : list nat :=
  match sh with
  | [] => []
  | _ => removelast sh ++ [1]
  end.

Definition row_mean (t : Tensor T) (idx : list nat) : T :=
  let n := last_size (shape t) in
  div (tsum n (row_get t idx)) (of_nat n).

(** [t.mean(-1, keepdim=True)] *)
Definition mean_last (t : Tensor T) : Tensor T :=
  tabulate (keepdim_shape (shape t)) (row_mean t).

(** [t.std(-1, keepdim=True)]: the default is the unbiased estimator,
    sqrt (sum_j (x_j - mean)^2 / max(0, n - 1)). *)
Definition std_last (t : Tensor T) : Tensor T :=
  let n := last_size (shape t) in
  tabulate (keepdim_shape (shape t)) (fun idx =>
    fsqrt (div (tsum n (fun j =>
                  let d := sub (row_get t idx j) (row_mean t idx) in
                  mul d d))
               (of_nat (n - 1)))).

(** Matrix product of operands of rank at least 2, batch axes broadcast. *)
Definition matmul2 (a b : Tensor T) : result (Tensor T) :=
  match rev (shape a), rev (shape b) with
  | m :: n :: ba, p :: m' :: bb =>
      if m =? m'
      then match broadcast_rev ba bb with
           | Some bs =>
               let batch := rev bs in
               Ok (tabulate (batch ++ [n; p]) (fun idx =>
                     let pre := firstn (length batch) idx in
                     let i := nth (length batch) idx 0 in
                     let j := nth (S (length batch)) idx 0 in
                     tsum m (fun c =>
                       mul (get a (broadcast_index (rev ba) pre ++ [i; c]))
                           (get b (broadcast_index (rev bb) pre ++ [c; j])))))
           | None => Raise RuntimeError
           end
      else Raise RuntimeError
  | _, _ => Raise RuntimeError
  end.

(** [torch.matmul]: a vector operand is promoted to a matrix and the
    added axis is removed from the result. *)
Definition matmul (a b : Tensor T) : result (Tensor T) :=
  match shape a, shape b with
  | [], _ | _, [] => Raise RuntimeError
  | [m], [m'] =>
      r <- matmul2 (mkTensor [1; m] (data a)) (mkTensor [m'; 1] (data b)) ;;
      Ok (mkTensor [] (data r))
  | [m], _ =>
      r <- matmul2 (mkTensor [1; m] (data a)) b ;;
      Ok (mkTensor (removelast (removelast (shape r)) ++ [last (shape r) 0])
                   (data r))
  | _, [m'] =>
      r <- matmul2 a (mkTensor [m'; 1] (data b)) ;;
      Ok (mkTensor (removelast (shape r)) (data r))
  | _, _ => matmul2 a b
  end.

(** *** The random generator and the allocation record *)

Inductive alloc : Type :=
| ParamLinear (in_features out_features : nat)
| ParamEmbedding (num_embeddings embedding_dim : nat)
| ParamLayerNorm (features : nat).

(** The ambient state of a call: the samples the global generator will
    return next (real-valued draws and Bernoulli outcomes), and the
    parameter tensors allocated by module constructors so far. *)
Record World : Type := mkWorld {
  draws : nat -> T;
  coins : nat -> bool;
  allocated : list alloc
}.

Definition M (A : Type) : Type := World -> result (A * World).

Definition mret {A} (a : A) : M A := fun w => Ok (a, w).

Definition mbind {A B} (m : M A) (k : A -> M B) : M B :=
  fun w =>
    match m w with
    | Ok (a, w') => k a w'
    | Raise e => Raise e
    end.

Definition lift {A} (r : result A) : M A :=
  fun w =>
    match r with
    | Ok a => Ok (a, w)
    | Raise e => Raise e
    end.

(** The next [n] real-valued samples of the generator. *)
Definition sample (n : nat) : M (list T) :=
  fun w => Ok (map (draws w) (seq 0 n),
               mkWorld (fun i => draws w (n + i)) (coins w) (allocated w)).

(** The next [n] Bernoulli outcomes of the generator. *)
Definition bernoulli (n : nat) : M (list bool) :=
  fun w => Ok (map (coins w) (seq 0 n),
               mkWorld (draws w) (fun i => coins w (n + i)) (allocated w)).

Definition allocate (a : alloc) : M unit :=
  fun w => Ok (tt, mkWorld (draws w) (coins w) (allocated w ++ [a])).

(** The value a call returns, forgetting the state it leaves. *)
Definition value_of {A} (r : result (A * World)) : result A :=
  match r with
  | Ok (a, _) => Ok a
  | Raise e => Raise e
  end.

End NumericTensor.

Arguments World T : clear implicits.
Arguments M T A : clear implicits.
Arguments alloc : clear implicits.

Notation "x <~ e ;; k" := (mbind e (fun x => k))
  (at level 61, e at next level, right associativity).

(** ** torch.nn modules used by the layers *)

Module Dropout.
Section Def.
Context {T : Type} `{Numeric T}.

Record t : Type := mk { p : T; training : bool }.

(** [nn.Dropout(p)] *)
Definition __init__ (p : T) : result t :=
  if fltb p zero || fltb one p then Raise ValueError else Ok (mk p true).

(** In training mode every element is zeroed when its Bernoulli outcome
    says so and the survivors are scaled by 1 / (1 - p); the module is the
    identity when [p] is 0, in evaluation mode and on an empty tensor. *)
Definition forward (self : t) (x : Tensor T) : M T (Tensor T) :=
  if feqb (p self) zero || negb (training self) || (numel (shape x) =? 0)
  then mret x
  else if feqb (p self) one
  then mret (tmap (fun v => mul v zero) x)
  else
    noise <~ bernoulli (numel (shape x)) ;;
    mret (mkTensor (shape x)
            (map (fun vk =>
                    mul (fst vk)
                        (div (if snd vk : bool then one else zero)
                             (sub one (p self))))
                 (combine (data x) noise))).
End Def.
Arguments t T : clear implicits.
End Dropout.

Module Linear.
Section Def.
Context {T : Type} `{Numeric T}.

Record t : Type := mk { weight : Tensor T; bias : Tensor T }.

(** [nn.Linear(in_features, out_features)]: both parameters are drawn from
    the generator. *)
Definition __init__ (in_features out_features : nat) : M T t :=
  w <~ sample (out_features * in_features) ;;
  b <~ sample out_features ;;
  _ <~ allocate (ParamLinear in_features out_features) ;;
  mret (mk (mkTensor [out_features; in_features] w)
           (mkTensor [out_features] b)).

(** [x @ weight.T + bias] *)
Definition forward (self : t) (x : Tensor T) : result (Tensor T) :=
  wt <- transpose (weight self) 0 1 ;;
  y <- matmul x wt ;;
  tadd y (bias self).
End Def.
Arguments t T : clear implicits.
End Linear.

Module Embedding.
Section Def.
Context {T : Type} `{Numeric T}.

Record t : Type := mk { weight : Tensor T }.

(** [nn.Embedding(num_embeddings, embedding_dim)]: the table is drawn from
    the generator. *)
Definition __init__ (num_embeddings : Z) (embedding_dim : nat) : M T t :=
  if (num_embeddings <? 0)%Z then lift (Raise RuntimeError)
  else
    let n := Z.to_nat num_embeddings in
    w <~ sample (n * embedding_dim) ;;
    _ <~ allocate (ParamEmbedding n embedding_dim) ;;
    mret (mk (mkTensor [n; embedding_dim] w)).

(** The lookup [table(idx)]: one table row per entry of [idx]. *)
Definition forward (self : t) (idx : Tensor Z) : result (Tensor T) :=
  let n := nth 0 (shape (weight self)) 0 in
  let d := nth 1 (shape (weight self)) 0 in
  if forallb (fun i => (0 <=? i)%Z && (i <? Z.of_nat n)%Z) (data idx)
  then Ok (tabulate (shape idx ++ [d]) (fun ix =>
             get (weight self)
                 [Z.to_nat (get idx (removelast ix)); last ix 0]))
  else Raise IndexError.
End Def.
Arguments t T : clear implicits.
End Embedding.

(** ** Layers.py *)

Module LayerNorm.
Section Def.
Context {T : Type} `{Numeric T}.

Record t : Type := mk { weight : Tensor T; bias : Tensor T; eps : T }.

(** The default [eps=1e-6]. *)
Definition default_eps : T := div one (of_Z 1000000).

Definition __init__ (features : nat) (eps : T) : M T t :=
  _ <~ allocate (ParamLayerNorm features) ;;
  mret (mk (ones [features]) (zeros [features]) eps).

Definition forward (self : t) (x : Tensor T) : result (Tensor T) :=
  let mean := mean_last x in
  let std := std_last x in
  c <- tsub x mean ;;
  n <- tmul (weight self) c ;;
  q <- tdiv n (tmap (fun s => add s (eps self)) std) ;;
  tadd q (bias self).
End Def.
Arguments t T : clear implicits.
End LayerNorm.

Module SublayerConnection.
Section Def.
Context {T : Type} `{Numeric T}.

Record t : Type := mk { norm : LayerNorm.t T; dropout : Dropout.t T }.

Definition __init__ (size : nat) (dropout : T) : M T t :=
  n <~ LayerNorm.__init__ size LayerNorm.default_eps ;;
  d <~ lift (Dropout.__init__ dropout) ;;
  mret (mk n d).

(** [x + self.dropout(sublayer(self.norm(x)))] *)
Definition forward (self : t) (x : Tensor T)
    (sublayer : Tensor T -> M T (Tensor T)) : M T (Tensor T) :=
  n <~ lift (LayerNorm.forward (norm self) x) ;;
  y <~ sublayer n ;;
  d <~ Dropout.forward (dropout self) y ;;
  lift (tadd x d).
End Def.
Arguments t T : clear implicits.
End SublayerConnection.

Section Attention.
Context {T : Type} `{Numeric T}.

(** Scaled dot product attention. *)
Definition attention (query key value : Tensor T)
    (mask : option (Tensor Z)) (dropout : option (Dropout.t T))
  : M T (Tensor T * Tensor T) :=
  d_k <~ lift (size query (-1)) ;;
  kt <~ lift (transpose key (-2) (-1)) ;;
  qk <~ lift (matmul query kt) ;;
  let scores := tmap (fun s => div s (fsqrt (of_nat d_k))) qk in
  scores <~ lift (match mask with
                  | Some m => masked_fill scores (eq0 m)
                                (of_Z (-1000000000))
                  | None => Ok scores
                  end) ;;
  let p_attn := softmax scores in
  p_attn <~ match dropout with
            | Some d => Dropout.forward d p_attn
            | None => mret p_attn
            end ;;
  out <~ lift (matmul p_attn value) ;;
  mret (out, p_attn).

Fixpoint map_result {A B} (f : A -> result B) (l : list A)
  : result (list B) :=
  match l with
  | [] => Ok []
  | a :: l' => b <- f a ;; bs <- map_result f l' ;; Ok (b :: bs)
  end.

(** [l(x).view(nbatches, -1, h, d_k).transpose(1, 2)] *)
Definition split_heads (nbatches h d_k : nat) (l : Linear.t T)
    (x : Tensor T) : result (Tensor T) :=
  y <- Linear.forward l x ;;
  v <- view y [Z.of_nat nbatches; (-1)%Z; Z.of_nat h; Z.of_nat d_k] ;;
  transpose v 1 2.

(** [x.transpose(1, 2).contiguous().view(nbatches, -1, h * d_k)] *)
Definition merge_heads (nbatches h d_k : nat) (x : Tensor T)
  : result (Tensor T) :=
  xt <- transpose x 1 2 ;;
  view (contiguous xt) [Z.of_nat nbatches; (-1)%Z; Z.of_nat (h * d_k)].

(** [mask.unsqueeze(1)] when a mask is given. *)
Definition unsqueeze_mask (mask : option (Tensor Z))
  : result (option (Tensor Z)) :=
  match mask with
  | Some m => m' <- unsqueeze m 1 ;; Ok (Some m')
  | None => Ok None
  end.
End Attention.

Module utils.
Section Def.
Context {T : Type} `{Numeric T}.

(** Modelled from the spec: [utils.clones] is not among the source files.
    The spec describes it as replicating a module N times into an ordered
    collection of N instances that share no parameter storage: every copy
    owns freshly allocated parameters, which start from the values of the
    template. *)
Fixpoint clones (module : Linear.t T) (N : nat) : M T (list (Linear.t T)) :=
  match N with
  | 0 => mret []
  | S N' =>
      _ <~ allocate
             (ParamLinear
                (nth 1 (shape (Linear.weight module)) 0)
                (nth 0 (shape (Linear.weight module)) 0)) ;;
      rest <~ clones module N' ;;
      mret (module :: rest)
  end.
End Def.
End utils.

Module MultiHeadedAttention.
Section Def.
Context {T : Type} `{Numeric T}.

Record t : Type := mk {
  d_k : nat;
  h : nat;
  linears : list (Linear.t T);
  attn : option (Tensor T);
  dropout : Dropout.t T
}.

Definition __init__ (h d_model : nat) (dropout : T) : M T t :=
  if h =? 0 then lift (Raise ZeroDivisionError)
  else if negb (d_model mod h =? 0) then lift (Raise AssertionError)
  else
    l <~ Linear.__init__ d_model d_model ;;
    ls <~ utils.clones l 4 ;;
    d <~ lift (Dropout.__init__ dropout) ;;
    mret (mk (d_model / h) h ls None d).

(** Returns the output and the module after the call ([self.attn] holds
    the attention weights of the call). *)
Definition forward (self : t) (query key value : Tensor T)
    (mask : option (Tensor Z)) : M T (Tensor T * t) :=
  mask <~ lift (unsqueeze_mask mask) ;;
  nbatches <~ lift (size query 0) ;;
  qkv <~ lift (map_result
                 (fun lx => split_heads nbatches (h self) (d_k self)
                              (fst lx) (snd lx))
                 (combine (linears self) [query; key; value])) ;;
  match qkv with
  | [query; key; value] =>
      xa <~ attention query key value mask (Some (dropout self)) ;;
      x <~ lift (merge_heads nbatches (h self) (d_k self) (fst xa)) ;;
      match rev (linears self) with
      | l :: _ =>
          out <~ lift (Linear.forward l x) ;;
          mret (out, mk (d_k self) (h self) (linears self)
                        (Some (snd xa)) (dropout self))
      | [] => lift (Raise IndexError)
      end
  | _ => lift (Raise ValueError)
  end.
End Def.
Arguments t T : clear implicits.
End MultiHeadedAttention.

Module PositionalEncoding.
Section Def.
Context {T : Type} `{Numeric T}.

Record t : Type := mk { dropout : Dropout.t T; pe : Tensor T }.

(** [math.log(1e4) / d_model] on Python floats *)
Definition log_ratio (d_model : nat) : result T :=
  if d_model =? 0 then Raise ZeroDivisionError
  else Ok (div (flog (of_Z 10000)) (of_nat d_model)).

Definition __init__ (d_model : nat) (dropout : T) (max_len : nat)
  : result t :=
  drop <- Dropout.__init__ dropout ;;
  let pe := zeros [max_len; d_model] in
  position <- unsqueeze (farange max_len) 1 ;;
  r <- log_ratio d_model ;;
  let div_term :=
    tmap fexp (tmap (fun a => mul a (neg r)) (farange_step d_model 2)) in
  pd <- tmul position div_term ;;
  pe <- setitem_cols pe 0 2 (tmap fsin pd) ;;
  pd <- tmul position div_term ;;
  pe <- setitem_cols pe 1 2 (tmap fcos pd) ;;
  pe <- unsqueeze pe 0 ;;
  Ok (mk drop pe).

Definition forward (self : t) (x : Tensor T) : M T (Tensor T) :=
  n <~ lift (size x 1) ;;
  sl <~ lift (slice_dim1 (pe self) n) ;;
  x <~ lift (tadd x sl) ;;
  Dropout.forward (dropout self) x.
End Def.
Arguments t T : clear implicits.
End PositionalEncoding.

Module MultiHeadedAttention_RPR.
Section Def.
Context {T : Type} `{Numeric T}.

Record t : Type := mk {
  d_k : nat;
  h : nat;
  linears : list (Linear.t T);
  dropout : Dropout.t T;
  max_relative_position : Z
}.

Definition __init__ (h d_model : nat) (max_relative_position : Z)
    (dropout : T) : M T t :=
  if h =? 0 then lift (Raise ZeroDivisionError)
  else if negb (d_model mod h =? 0) then lift (Raise AssertionError)
  else
    l <~ Linear.__init__ d_model d_model ;;
    ls <~ utils.clones l 4 ;;
    d <~ lift (Dropout.__init__ dropout) ;;
    mret (mk (d_model / h) h ls d max_relative_position).

Definition _generate_relative_positions_matrix (d_q d_k : nat)
    (max_relative_position : Z) : result (Tensor Z) :=
  if negb (d_k =? d_q) then Raise AssertionError
  else
    let range_vec_q := arange d_q in
    let range_vec_k := range_vec_q in
    rk <- unsqueeze range_vec_k 0 ;;
    rq <- unsqueeze range_vec_q (-1) ;;
    distance_mat <- isub rk rq ;;
    disntance_mat_clipped <-
      clamp distance_mat (- max_relative_position) max_relative_position ;;
    iadd_scalar disntance_mat_clipped max_relative_position.

Definition generate_relative_positions_embeddings (len_q len_k depth : nat)
    (max_relative_position : Z) : M T (Tensor T) :=
  relative_position_matrix <~
    lift (_generate_relative_positions_matrix len_q len_k
            max_relative_position) ;;
  let vocab_size := (max_relative_position * 2 + 1)%Z in
  embeddings_table <~ Embedding.__init__ vocab_size depth ;;
  lift (Embedding.forward embeddings_table relative_position_matrix).

Definition _relative_attn_inner (x y z : Tensor T) (transpose_ : bool)
  : result (Tensor T) :=
  nbatches <- size x 0 ;;
  heads <- size x 1 ;;
  seq_len <- size x 2 ;;
  y' <- (if transpose_ then transpose y (-1) (-2) else Ok y) ;;
  xy_matmul <- matmul x y' ;;
  xp <- permute x [2; 0; 1; 3]%Z ;;
  x_t_v <- view (contiguous xp)
             [Z.of_nat seq_len; Z.of_nat (nbatches * heads); (-1)%Z] ;;
  z' <- (if transpose_ then transpose z (-1) (-2) else Ok z) ;;
  x_tz_matmul <- matmul x_t_v z' ;;
  xv <- view x_tz_matmul
          [Z.of_nat seq_len; Z.of_nat nbatches; Z.of_nat heads; (-1)%Z] ;;
  x_tz_matmul_v_t <- permute xv [1; 2; 0; 3]%Z ;;
  tadd xy_matmul x_tz_matmul_v_t.

(** Returns the output and the module after the call. *)
Definition forward (self : t) (query key value : Tensor T)
    (mask : option (Tensor Z)) : M T (Tensor T * t) :=
  mask <~ lift (unsqueeze_mask mask) ;;
  nbatches <~ lift (size query 0) ;;
  seq_len <~ lift (size query 1) ;;
  qkv <~ lift (map_result
                 (fun lx => split_heads nbatches (h self) (d_k self)
                              (fst lx) (snd lx))
                 (combine (linears self) [query; key; value])) ;;
  match qkv with
  | [query; key; value] =>
      relation_keys <~
        generate_relative_positions_embeddings seq_len seq_len (d_k self)
          (max_relative_position self) ;;
      relation_values <~
        generate_relative_positions_embeddings seq_len seq_len (d_k self)
          (max_relative_position self) ;;
      logits <~ lift (_relative_attn_inner query key relation_keys true) ;;
      weights <~ Dropout.forward (dropout self) (softmax logits) ;;
      x <~ lift (_relative_attn_inner weights value relation_values false) ;;
      x <~ lift (merge_heads nbatches (h self) (d_k self) x) ;;
      match rev (linears self) with
      | l :: _ =>
          out <~ lift (Linear.forward l x) ;;
          mret (out, self)
      | [] => lift (Raise IndexError)
      end
  | _ => lift (Raise ValueError)
  end.
End Def.
Arguments t T : clear implicits.
End MultiHeadedAttention_RPR.

(** ** Element types: the reals and IEEE-style extended reals *)

#[global] Instance Numeric_R : Numeric R := {
  zero := 0%R;
  one := 1%R;
  add := Rplus;
  sub := Rminus;
  mul := Rmult;
  div := Rdiv;
  neg := Ropp;
  fsqrt := sqrt;
  fexp := exp;
  flog := ln;
  fsin := sin;
  fcos := cos;
  of_Z := IZR;
  feqb := fun a b => if Req_dec_T a b then true else false;
  fltb := fun a b => if Rlt_dec a b then true else false
}.

(** Floating-point values with the special values of IEEE 754: a finite
    value (a real; rounding, overflow, underflow and the sign of zero are
    not represented), an infinity with its sign, or NaN. *)
Inductive xfloat : Type :=
| XNaN
| XInf (negative : bool)
| XFin (r : R).

Module XFloat.

Definition is_neg (r : R) : bool := if Rlt_dec r 0 then true else false.
Definition is_zero (r : R) : bool := if Req_dec_T r 0 then true else false.

Definition xneg (a : xfloat) : xfloat :=
  match a with
  | XNaN => XNaN
  | XInf s => XInf (negb s)
  | XFin r => XFin (- r)
  end.

Definition xadd (a b : xfloat) : xfloat :=
  match a, b with
  | XNaN, _ | _, XNaN => XNaN
  | XInf s, XInf s' => if Bool.eqb s s' then XInf s else XNaN
  | XInf s, XFin _ => XInf s
  | XFin _, XInf s => XInf s
  | XFin x, XFin y => XFin (x + y)
  end.

Definition xsub (a b : xfloat) : xfloat := xadd a (xneg b).

Definition xmul (a b : xfloat) : xfloat :=
  match a, b with
  | XNaN, _ | _, XNaN => XNaN
  | XInf s, XInf s' => XInf (xorb s s')
  | XInf s, XFin y =>
      if is_zero y then XNaN else XInf (xorb s (is_neg y))
  | XFin x, XInf s =>
      if is_zero x then XNaN else XInf (xorb (is_neg x) s)
  | XFin x, XFin y => XFin (x * y)
  end.

Definition xdiv (a b : xfloat) : xfloat :=
  match a, b with
  | XNaN, _ | _, XNaN => XNaN
  | XInf _, XInf _ => XNaN
  | XInf s, XFin y => XInf (xorb s (is_neg y))
  | XFin _, XInf _ => XFin 0
  | XFin x, XFin y =>
      if is_zero y
      then if is_zero x then XNaN else XInf (is_neg x)
      else XFin (x / y)
  end.

Definition xsqrt (a : xfloat) : xfloat :=
  match a with
  | XNaN => XNaN
  | XInf s => if s then XNaN else XInf false
  | XFin x => if is_neg x then XNaN else XFin (sqrt x)
  end.

Definition xexp (a : xfloat) : xfloat :=
  match a with
  | XNaN => XNaN
  | XInf s => if s then XFin 0 else XInf false
  | XFin x => XFin (exp x)
  end.

Definition xlog (a : xfloat) : xfloat :=
  match a with
  | XNaN => XNaN
  | XInf s => if s then XNaN else XInf false
  | XFin x =>
      if is_neg x then XNaN
      else if is_zero x then XInf true
      else XFin (ln x)
  end.

Definition xsin (a : xfloat) : xfloat :=
  match a with
  | XFin x => XFin (sin x)
  | _ => XNaN
  end.

Definition xcos (a : xfloat) : xfloat :=
  match a with
  | XFin x => XFin (cos x)
  | _ => XNaN
  end.

Definition xeqb (a b : xfloat) : bool :=
  match a, b with
  | XInf s, XInf s' => Bool.eqb s s'
  | XFin x, XFin y => if Req_dec_T x y then true else false
  | _, _ => false
  end.

Definition xltb (a b : xfloat) : bool :=
  match a, b with
  | XNaN, _ | _, XNaN => false
  | XInf s, XInf s' => s && negb s'
  | XInf s, XFin _ => s
  | XFin _, XInf s' => negb s'
  | XFin x, XFin y => if Rlt_dec x y then true else false
  end.

Definition is_finite (a : xfloat) : bool :=
  match a with XFin _ => true | _ => false end.

End XFloat.

#[global] Instance Numeric_xfloat : Numeric xfloat := {
  zero := XFin 0;
  one := XFin 1;
  add := XFloat.xadd;
  sub := XFloat.xsub;
  mul := XFloat.xmul;
  div := XFloat.xdiv;
  neg := XFloat.xneg;
  fsqrt := XFloat.xsqrt;
  fexp := XFloat.xexp;
  flog := XFloat.xlog;
  fsin := XFloat.xsin;
  fcos := XFloat.xcos;
  of_Z := fun z => XFin (IZR z);
  feqb := XFloat.xeqb;
  fltb := XFloat.xltb
}.

(** ** Definitions that follow the words of the specification *)

(** [clip(x, lo, hi)]: [x] limited to the interval from [lo] to [hi]. *)
Definition spec_clip (x lo hi : Z) : Z :=
  if (x <? lo)%Z then lo else if (hi <? x)%Z then hi else x.

Section SpecLayerNorm.
Context {T : Type} `{Numeric T}.

(** The mean of a row of features. *)
Definition spec_mean (row : list T) : T :=
  div (sum_list row) (of_nat (length row)).

(** The standard deviation of a row of F features whose sum of squared
    deviations is divided by F - correction: the sample standard deviation
    (Bessel's correction) for correction 1, the population standard
    deviation for correction 0. *)
Definition spec_std (correction : nat) (row : list T) : T :=
  fsqrt (div (sum_list (map (fun v => mul (sub v (spec_mean row))
                                          (sub v (spec_mean row))) row))
             (of_nat (length row - correction))).

(** The features of the position that [idx] lies in. *)
Definition row_of (t : Tensor T) (idx : list nat) : list T :=
  map (row_get t idx) (seq 0 (last_size (shape t))).

(** scale * (x - mean) / (std + eps) + shift *)
Definition spec_layer_norm (correction : nat) (scale shift eps x : T)
    (row : list T) : T :=
  add (div (mul scale (sub x (spec_mean row)))
           (add (spec_std correction row) eps))
      shift.
End SpecLayerNorm.

(** The sinusoidal position signal: for the feature pair i of a model of
    dimension D, sin and cos of pos / 10000^(2i/D). *)
Definition spec_pe_sin (D pos i : nat) : R :=
  sin (INR pos / Rpower 10000 (INR (2 * i) / INR D)).

Definition spec_pe_cos (D pos i : nat) : R :=
  cos (INR pos / Rpower 10000 (INR (2 * i) / INR D)).

Section SpecAttention.
Context {T : Type} `{Numeric T}.

(** scores = (query . key^T) / sqrt(d_k): the score of query position
    [i] and key position [j] in the batch entry [pre]. *)
Definition spec_score (query key : Tensor T) (d_k : nat)
    (pre : list nat) (i j : nat) : T :=
  div (tsum d_k (fun c => mul (get query (pre ++ [i; c]))
                              (get key (pre ++ [j; c]))))
      (fsqrt (of_nat d_k)).

(** The mask entry that applies to a position of the scores. *)
Definition mask_entry (m : Tensor Z) (idx : list nat) : Z :=
  get m (broadcast_index (shape m) idx).

(** Every score whose mask entry is zero is replaced by -1e9. *)
Definition spec_masked_score (mask : option (Tensor Z))
    (query key : Tensor T) (d_k : nat) (pre : list nat) (i j : nat) : T :=
  match mask with
  | Some m =>
      if (mask_entry m (pre ++ [i; j]) =? 0)%Z
      then of_Z (-1000000000)
      else spec_score query key d_k pre i j
  | None => spec_score query key d_k pre i j
  end.

(** Softmax over the key axis (of length [K]). *)
Definition spec_weight (mask : option (Tensor Z)) (query key : Tensor T)
    (d_k K : nat) (pre : list nat) (i j : nat) : T :=
  div (fexp (spec_masked_score mask query key d_k pre i j))
      (tsum K (fun j' =>
                 fexp (spec_masked_score mask query key d_k pre i j'))).
End SpecAttention.

(** ** Conditions and concrete inputs used by the properties *)

(** With probability 0, or in evaluation mode, dropout is the identity. *)
Definition dropout_inactive {T} `{Numeric T} (self : Dropout.t T) : Prop :=
  feqb (Dropout.p self) zero = true \/ Dropout.training self = false.

(** A SublayerConnection of width 2 without dropout, a (2, 2) input, and a
    sublayer that keeps the first position only. *)
Definition c7_self : SublayerConnection.t R :=
  SublayerConnection.mk
    (LayerNorm.mk (mkTensor [2] [1; 1]%R) (mkTensor [2] [0; 0]%R) 0%R)
    (Dropout.mk 0%R true).

Definition c7_x : Tensor R := mkTensor [2; 2] [1; 2; 3; 4]%R.

Definition c7_sublayer (n : Tensor R) : M R (Tensor R) :=
  mret (mkTensor [1; 2] (firstn 2 (data n))).

Definition c7_world : World R := mkWorld (fun _ => 0%R) (fun _ => true) [].

(** A size [n] of an operand fits the size [s] of the broadcast result. *)
Definition fits (n s : nat) : Prop := n = s \/ n = 1.

(** A mask that is stored consistently and can be broadcast to the shape
    [sh] of the scores. *)
Definition mask_ok (mask : option (Tensor Z)) (sh : list nat) : Prop :=
  match mask with
  | Some m => wf m /\ broadcast_shapes sh (shape m) = Some sh
  | None => True
  end.

(** A single query and key position with one feature, and a dropout module
    in training mode with probability 1/2 whose next outcome is "keep". *)
Definition c5_x : Tensor R := mkTensor [1; 1] [0%R].

(** The same input over the extended reals, with a mask that forbids the
    only key position, and a value tensor that holds NaN. *)
Definition c6_x : Tensor xfloat := mkTensor [1; 1] [XFin 0].
Definition c6_mask : Tensor Z := mkTensor [1; 1] [0%Z].
Definition c6_dropout : Dropout.t xfloat := Dropout.mk (XFin (1 / 2)) true.
Definition c6_world : World xfloat :=
  mkWorld (fun _ => XFin 0) (fun _ => true) [].
Definition c6_nan : Tensor xfloat := mkTensor [1; 1] [XNaN].

Section ForwardWithTables.
Context {T : Type} `{Numeric T}.

(** The number of values an embedding table of the relative-position
    attention holds: (2 * max_relative_position + 1) rows of d_k values. *)
Definition table_size (self : MultiHeadedAttention_RPR.t T) : nat :=
  Z.to_nat (MultiHeadedAttention_RPR.max_relative_position self * 2 + 1)
  * MultiHeadedAttention_RPR.d_k self.

(** The relation tensor looked up in a table with the given values. *)
Definition relation_embeddings (len depth : nat) (k : Z) (table : list T)
  : result (Tensor T) :=
  m <- MultiHeadedAttention_RPR._generate_relative_positions_matrix
         len len k ;;
  if (k * 2 + 1 <? 0)%Z then Raise RuntimeError
  else Embedding.forward
         (Embedding.mk (mkTensor [Z.to_nat (k * 2 + 1); depth] table)) m.

(** What [MultiHeadedAttention_RPR.forward] computes from its inputs, the
    parameters and the values of the two tables, when dropout acts as the
    identity. *)
Definition forward_with_tables (self : MultiHeadedAttention_RPR.t T)
    (query key value : Tensor T) (mask : option (Tensor Z))
    (keys_table values_table : list T) : result (Tensor T) :=
  _ <- unsqueeze_mask mask ;;
  nbatches <- size query 0 ;;
  seq_len <- size query 1 ;;
  qkv <- map_result
           (fun lx => split_heads nbatches
                        (MultiHeadedAttention_RPR.h self)
                        (MultiHeadedAttention_RPR.d_k self)
                        (fst lx) (snd lx))
           (combine (MultiHeadedAttention_RPR.linears self)
                    [query; key; value]) ;;
  match qkv with
  | [query; key; value] =>
      relation_keys <-
        relation_embeddings seq_len (MultiHeadedAttention_RPR.d_k self)
          (MultiHeadedAttention_RPR.max_relative_position self)
          keys_table ;;
      relation_values <-
        relation_embeddings seq_len (MultiHeadedAttention_RPR.d_k self)
          (MultiHeadedAttention_RPR.max_relative_position self)
          values_table ;;
      logits <- MultiHeadedAttention_RPR._relative_attn_inner
                  query key relation_keys true ;;
      x <- MultiHeadedAttention_RPR._relative_attn_inner
             (softmax logits) value relation_values false ;;
      x <- merge_heads nbatches (MultiHeadedAttention_RPR.h self)
             (MultiHeadedAttention_RPR.d_k self) x ;;
      match rev (MultiHeadedAttention_RPR.linears self) with
      | l :: _ => Linear.forward l x
      | [] => Raise IndexError
      end
  | _ => Raise ValueError
  end.

(** The values the generator returns for the two tables of a call. *)
Definition drawn_keys_table (self : MultiHeadedAttention_RPR.t T)
    (w : World T) : list T :=
  map (draws w) (seq 0 (table_size self)).

Definition drawn_values_table (self : MultiHeadedAttention_RPR.t T)
    (w : World T) : list T :=
  map (fun i => draws w (table_size self + i)) (seq 0 (table_size self)).
End ForwardWithTables.

Section StandardForward.
Context {T : Type} `{Numeric T}.


End StandardForward.

(** ** Concrete inputs for the relative-position attention *)

(** A projection that leaves its input unchanged. *)
Definition identity_linear (n : nat) : Linear.t R :=
  Linear.mk
    (tabulate [n; n] (fun idx =>
       if nth 0 idx 0 =? nth 1 idx 0 then 1%R else 0%R))
    (tabulate [n] (fun _ => 0%R)).

(** One head of width 1, clipping bound 1, dropout probability 0. *)
Definition c1_self : MultiHeadedAttention_RPR.t R :=
  MultiHeadedAttention_RPR.mk 1 1
    [identity_linear 1; identity_linear 1; identity_linear 1;
     identity_linear 1]
    (Dropout.mk 0%R true) 1%Z.

(** A batch of one sequence of length 1. *)
Definition c1_x : Tensor R := mkTensor [1; 1; 1] [1%R].

(** A generator whose i-th next sample is i. *)
Definition c1_world : World R := mkWorld INR (fun _ => true) [].

(** One head of width 4 with identity projections, without dropout: the
    relative-position module and the standard module. *)
Definition c3_rpr : MultiHeadedAttention_RPR.t R :=
  MultiHeadedAttention_RPR.mk 4 1
    [identity_linear 4; identity_linear 4; identity_linear 4;
     identity_linear 4]
    (Dropout.mk 0%R true) 1%Z.

Definition c3_mha : MultiHeadedAttention.t R :=
  MultiHeadedAttention.mk 4 1
    [identity_linear 4; identity_linear 4; identity_linear 4;
     identity_linear 4]
    None (Dropout.mk 0%R true).

(** A batch of one sequence of length 2. *)
Definition c3_x : Tensor R :=
  mkTensor [1; 2; 4] [2; 0; 0; 0; 0; 0; 0; 0]%R.

(** A generator whose samples are all 0: both relation tables are zero. *)
Definition c3_world : World R := mkWorld (fun _ => 0%R) (fun _ => true) [].

(** The module that the constructor builds for one head of width 1 from
    [c1_world] (weights 0, biases 1), and the state it leaves. *)
Definition c2_linear : Linear.t R :=
  Linear.mk (mkTensor [1; 1] [INR 0]) (mkTensor [1] [INR 1]).

Definition c2_self : MultiHeadedAttention_RPR.t R :=
  MultiHeadedAttention_RPR.mk 1 1 [c2_linear; c2_linear; c2_linear; c2_linear]
    (Dropout.mk 0%R true) 1%Z.

Definition c2_world : World R :=
  mkWorld (fun i => INR (2 + i)) (fun _ => true) (repeat (ParamLinear 1 1) 5).

(** ** Layers.py: feed-forward network, token embeddings, encoder and
    decoder layers *)

Section Elementwise.
Context {T : Type} `{Numeric T}.

(** [F.relu(t)]: max(x, 0) on every element. *)
Definition relu (t : Tensor T) : Tensor T :=
  tmap (fun v => if fltb v zero then zero else v) t.

(** [t * c] with a Python float [c] *)
Definition mul_scalar (t : Tensor T) (c : T) : Tensor T :=
  tmap (fun v => mul v c) t.
End Elementwise.

(** [l[i]] on a Python list or an [nn.ModuleList] *)
Definition getitem {A} (l : list A) (i : nat) : result A :=
  match nth_error l i with
  | Some a => Ok a
  | None => Raise IndexError
  end.

Module PositionwiseFeedForward.
Section Def.
Context {T : Type} `{Numeric T}.

Record t : Type := mk {
  w_1 : Linear.t T;
  w_2 : Linear.t T;
  dropout : Dropout.t T
}.

Definition __init__ (d_model d_ff : nat) (dropout : T) : M T t :=
  w_1 <~ Linear.__init__ d_model d_ff ;;
  w_2 <~ Linear.__init__ d_ff d_model ;;
  d <~ lift (Dropout.__init__ dropout) ;;
  mret (mk w_1 w_2 d).

(** [self.w_2(self.dropout(F.relu(self.w_1(x))))] *)
Definition forward (self : t) (x : Tensor T) : M T (Tensor T) :=
  a <~ lift (Linear.forward (w_1 self) x) ;;
  d <~ Dropout.forward (dropout self) (relu a) ;;
  lift (Linear.forward (w_2 self) d).
End Def.
Arguments t T : clear implicits.
End PositionwiseFeedForward.

Module Embeddings.
Section Def.
Context {T : Type} `{Numeric T}.

Record t : Type := mk { lut : Embedding.t T; d_model : nat }.

Definition __init__ (d_model : nat) (vocab : Z) : M T t :=
  lut <~ Embedding.__init__ vocab d_model ;;
  mret (mk lut d_model).

(** [self.lut(x) * math.sqrt(self.d_model)] *)
Definition forward (self : t) (x : Tensor Z) : result (Tensor T) :=
  e <- Embedding.forward (lut self) x ;;
  Ok (mul_scalar e (fsqrt (of_nat (d_model self)))).
End Def.
Arguments t T : clear implicits.
End Embeddings.

(** The two layers hold the modules they are given and call them; a module
    is the function its call computes (a tensor, in the ambient state).
    [sublayer] holds the SublayerConnection copies of the constructor. *)
Module EncoderLayer.
Section Def.
Context {T : Type} `{Numeric T}.

Record t : Type := mk {
  self_attn : Tensor T -> Tensor T -> Tensor T -> option (Tensor Z)
              -> M T (Tensor T);
  feed_forward : Tensor T -> M T (Tensor T);
  sublayer : list (SublayerConnection.t T);
  size : nat
}.

Definition forward (self : t) (x : Tensor T) (mask : option (Tensor Z))
  : M T (Tensor T) :=
  s0 <~ lift (getitem (sublayer self) 0) ;;
  x <~ SublayerConnection.forward s0 x
         (fun x => self_attn self x x x mask) ;;
  s1 <~ lift (getitem (sublayer self) 1) ;;
  SublayerConnection.forward s1 x (feed_forward self).
End Def.
Arguments t T : clear implicits.
End EncoderLayer.

Module DecoderLayer.
Section Def.
Context {T : Type} `{Numeric T}.

Record t : Type := mk {
  size : nat;
  self_attn : Tensor T -> Tensor T -> Tensor T -> option (Tensor Z)
              -> M T (Tensor T);
  src_attn : Tensor T -> Tensor T -> Tensor T -> option (Tensor Z)
             -> M T (Tensor T);
  feed_forward : Tensor T -> M T (Tensor T);
  sublyer : list (SublayerConnection.t T)
}.

Definition forward (self : t) (x memory : Tensor T)
    (src_mask tgt_mask : option (Tensor Z)) : M T (Tensor T) :=
  let m := memory in
  s0 <~ lift (getitem (sublyer self) 0) ;;
  x <~ SublayerConnection.forward s0 x
         (fun x => self_attn self x x x tgt_mask) ;;
  s1 <~ lift (getitem (sublyer self) 1) ;;
  x <~ SublayerConnection.forward s1 x
         (fun x => src_attn self x m m src_mask) ;;
  s2 <~ lift (getitem (sublyer self) 2) ;;
  SublayerConnection.forward s2 x (feed_forward self).
End Def.
Arguments t T : clear implicits.
End DecoderLayer.

(** The call of a MultiHeadedAttention module, as the layers use it: the
    output tensor of [forward]. *)
Definition MultiHeadedAttention_call {T} `{Numeric T}
    (self : MultiHeadedAttention.t T) (query key value : Tensor T)
    (mask : option (Tensor Z)) : M T (Tensor T) :=
  r <~ MultiHeadedAttention.forward self query key value mask ;;
  mret (fst r).

(** ** Conditions used by the properties of the layers *)

(** A Linear module from [in_features] to [out_features] features. *)
Definition linear_dims {T} (l : Linear.t T) (in_features out_features : nat)
  : Prop :=
  shape (Linear.weight l) = [out_features; in_features]
  /\ shape (Linear.bias l) = [out_features].

(** A LayerNorm module over [features] features. *)
Definition layer_norm_dims {T} (n : LayerNorm.t T) (features : nat) : Prop :=
  shape (LayerNorm.weight n) = [features]
  /\ shape (LayerNorm.bias n) = [features].

(** A SublayerConnection of the given size whose dropout is the identity. *)
Definition sublayer_plain {T} `{Numeric T} (s : SublayerConnection.t T)
    (size : nat) : Prop :=
  layer_norm_dims (SublayerConnection.norm s) size
  /\ dropout_inactive (SublayerConnection.dropout s).

(** A mask of rank 3 that can be broadcast to (N, L, S). *)
Definition mha_mask_ok (mask : option (Tensor Z)) (N L S : nat) : Prop :=
  match mask with
  | Some m => wf m /\ Forall2 fits (shape m) [N; L; S]
  | None => True
  end.

(** A MultiHeadedAttention module of width [d_model]: four projections
    from [d_model] to [d_model] features and [h] heads of width [d_k]. *)
Definition mha_dims {T} (self : MultiHeadedAttention.t T) (d_model : nat)
  : Prop :=
  length (MultiHeadedAttention.linears self) = 4
  /\ Forall (fun l => linear_dims l d_model d_model)
            (MultiHeadedAttention.linears self)
  /\ MultiHeadedAttention.h self * MultiHeadedAttention.d_k self = d_model.

Definition rpr_dims {T} (self : MultiHeadedAttention_RPR.t T) (d_model : nat)
  : Prop :=
  length (MultiHeadedAttention_RPR.linears self) = 4
  /\ Forall (fun l => linear_dims l d_model d_model)
            (MultiHeadedAttention_RPR.linears self)
  /\ MultiHeadedAttention_RPR.h self * MultiHeadedAttention_RPR.d_k self
     = d_model.

(** ** Concrete inputs for the properties of the layers *)

(** One position with three features. *)
Definition x_wide : Tensor R := mkTensor [1; 3] [1; 2; 3]%R.

(** Two key positions with one feature, and masks over them. *)
Definition two_keys : Tensor R := mkTensor [2; 1] [0; 1]%R.
Definition mask_ones : Tensor Z := mkTensor [1; 2] [1; 1]%Z.
Definition mask_first_hidden : Tensor Z := mkTensor [1; 2] [0; 1]%Z.

(** No key position at all. *)
Definition no_keys : Tensor R := mkTensor [0; 1] [].

(** An empty batch of sequences of length 2 and width 4. *)
Definition empty_batch : Tensor R := mkTensor [0; 2; 4] [].

(** A batch of one sequence of length 3 and width 4. *)
Definition c3_memory : Tensor R :=
  mkTensor [1; 3; 4] [1; 0; 0; 0; 0; 1; 0; 0; 0; 0; 1; 0]%R.

(** A feed-forward network of width 4 with identity projections. *)
Definition ffn4 : PositionwiseFeedForward.t R :=
  PositionwiseFeedForward.mk (identity_linear 4) (identity_linear 4)
    (Dropout.mk 0%R true).

(** Token ids for a vocabulary of two entries: valid ones, and one out of
    range. *)
Definition tokens : Tensor Z := mkTensor [2] [0; 1]%Z.
Definition bad_tokens : Tensor Z := mkTensor [2] [0; 5]%Z.

(** A SublayerConnection of size 4 as the constructor builds it, with
    dropout probability 0. *)
Definition sub4 : SublayerConnection.t R :=
  SublayerConnection.mk
    (LayerNorm.mk (ones [4]) (zeros [4]) LayerNorm.default_eps)
    (Dropout.mk 0%R true).

(** The relative-position module [c3_rpr] with the clipping bound -1. *)
Definition rpr_negative : MultiHeadedAttention_RPR.t R :=
  MultiHeadedAttention_RPR.mk 4 1
    [identity_linear 4; identity_linear 4; identity_linear 4;
     identity_linear 4]
    (Dropout.mk 0%R true) (-1)%Z.

(** Four heads of one feature, one head of four features. *)
Definition heads_4x1 : Tensor R :=
  mkTensor [1; 1; 2; 1] [1; 2]%R.
Definition relation_2x2 : Tensor R :=
  mkTensor [2; 2; 1] [1; 2; 3; 4]%R.

(** An attention module that returns its query, and encoder and decoder
    layers of size 4 built from it and from the identity as feed-forward
    network. *)
Definition echo_attn (query key value : Tensor R) (mask : option (Tensor Z))
  : M R (Tensor R) :=
  mret query.

Definition enc_echo : EncoderLayer.t R :=
  EncoderLayer.mk echo_attn (fun x => mret x) [sub4; sub4] 4.

Definition dec_echo : DecoderLayer.t R :=
  DecoderLayer.mk 4 echo_attn echo_attn (fun x => mret x) [sub4; sub4; sub4].


(** ** Tactics *)

(** Evaluation of the right-hand side of an equation on concrete tensors;
    the operations on real numbers are left as they are. *)
Ltac eval_rhs H :=
  match type of H with
  | _ = ?rhs =>
      let v := eval cbv -[Rplus Rmult Rminus Rdiv Ropp Rinv IZR INR sqrt exp
                          ln sin cos Req_dec_T Rlt_dec] in rhs in
      change rhs with v in H
  end.

Ltac name_exps :=
  repeat match goal with
         | H : context [exp ?a] |- _ =>
             let e := fresh "e" in
             let He := fresh "He" in
             pose proof (exp_pos a) as He;
             set (e := exp a) in *; clearbody e
         end.



Unset Implicit Arguments.

(** * Properties *)

(** ** Row-major indexing *)

Lemma length_indices (sh : list nat) : length (indices sh) = numel sh.
Proof.
  induction sh as [|n sh IH]; simpl; [reflexivity|].
  generalize 0 as s.
  induction n as [|n IHn]; intros s; simpl; [reflexivity|].
  rewrite length_app, length_map, IH, IHn. reflexivity.
Qed.

Lemma in_bounds_nil_inv (idx : list nat) : in_bounds [] idx -> idx = [].
Proof. intros Hb. inversion Hb. reflexivity. Qed.

Lemma in_bounds_cons_inv (n : nat) (sh idx : list nat) :
  in_bounds (n :: sh) idx ->
  exists i idx', idx = i :: idx' /\ i < n /\ in_bounds sh idx'.
Proof.
  intros Hb. inversion Hb; subst. eauto.
Qed.

Lemma in_bounds_length (sh idx : list nat) :
  in_bounds sh idx -> length idx = length sh.
Proof. intros Hb. induction Hb; simpl; congruence. Qed.

Lemma in_bounds_app (sh1 sh2 i1 i2 : list nat) :
  in_bounds sh1 i1 -> in_bounds sh2 i2 -> in_bounds (sh1 ++ sh2) (i1 ++ i2).
Proof. intros H1 H2. apply Forall2_app; assumption. Qed.

Lemma ravel_lt (sh idx : list nat) :
  in_bounds sh idx -> ravel sh idx < numel sh.
Proof.
  revert idx. induction sh as [|n sh IH]; intros idx Hb.
  - apply in_bounds_nil_inv in Hb. subst. simpl. lia.
  - apply in_bounds_cons_inv in Hb as (i & idx' & -> & Hi & Hb).
    specialize (IH _ Hb). simpl. nia.
Qed.

Lemma nth_flat_map_block {A} (g : nat -> list A) (m : nat) (d : A) :
  (forall i, length (g i) = m) ->
  forall n s i r, i < n -> r < m ->
    nth (i * m + r) (flat_map g (seq s n)) d = nth r (g (s + i)) d.
Proof.
  intros Hg. induction n as [|n IH]; intros s i r Hi Hr; [lia|].
  simpl. destruct i as [|i].
  - rewrite app_nth1 by (rewrite Hg; lia).
    simpl. rewrite Nat.add_0_r. reflexivity.
  - rewrite app_nth2 by (rewrite Hg; simpl; lia).
    rewrite Hg.
    replace (S i * m + r - m) with (i * m + r) by (simpl; lia).
    rewrite IH by lia. f_equal. f_equal. lia.
Qed.

Lemma nth_indices (sh idx : list nat) (d : list nat) :
  in_bounds sh idx -> nth (ravel sh idx) (indices sh) d = idx.
Proof.
  revert idx d. induction sh as [|n sh IH]; intros idx d Hb.
  - apply in_bounds_nil_inv in Hb. subst. reflexivity.
  - apply in_bounds_cons_inv in Hb as (i & idx' & -> & Hi & Hb).
    simpl.
    rewrite (nth_flat_map_block (fun i => map (cons i) (indices sh))
               (numel sh)).
    + simpl.
      rewrite (nth_indep _ d (i :: d))
        by (rewrite length_map, length_indices; apply ravel_lt; assumption).
      rewrite map_nth. f_equal. apply IH. assumption.
    + intros k. rewrite length_map. apply length_indices.
    + assumption.
    + apply ravel_lt. assumption.
Qed.

Lemma in_indices (sh idx : list nat) :
  In idx (indices sh) -> in_bounds sh idx.
Proof.
  revert idx. induction sh as [|n sh IH]; intros idx Hin; simpl in Hin.
  - destruct Hin as [<-|[]]. constructor.
  - apply in_flat_map in Hin as (i & Hi & Hin).
    apply in_map_iff in Hin as (idx' & <- & Hin).
    apply in_seq in Hi. constructor; [lia|]. apply IH. assumption.
Qed.

Lemma wf_tabulate {A} (sh : list nat) (f : list nat -> A) :
  wf (tabulate sh f).
Proof. unfold wf. simpl. rewrite length_map. apply length_indices. Qed.

Lemma get_tabulate {A} `{Default A} (sh idx : list nat) (f : list nat -> A) :
  in_bounds sh idx -> get (tabulate sh f) idx = f idx.
Proof.
  intros Hb. unfold get. simpl.
  rewrite (nth_indep _ dflt (f []))
    by (rewrite length_map, length_indices; apply ravel_lt; assumption).
  rewrite map_nth. f_equal. apply nth_indices. assumption.
Qed.

Lemma tabulate_ext {A} (sh : list nat) (f g : list nat -> A) :
  (forall idx, in_bounds sh idx -> f idx = g idx) ->
  tabulate sh f = tabulate sh g.
Proof.
  intros Hfg. unfold tabulate. f_equal.
  apply map_ext_in. intros idx Hin. apply Hfg, in_indices. assumption.
Qed.

Lemma get_tmap {A B} `{Default A} `{Default B} (f : A -> B) (t : Tensor A)
    (idx : list nat) :
  wf t -> in_bounds (shape t) idx -> get (tmap f t) idx = f (get t idx).
Proof.
  intros Hwf Hb. unfold get. simpl.
  rewrite (nth_indep _ dflt (f dflt)).
  - apply map_nth.
  - rewrite length_map, Hwf. apply ravel_lt. assumption.
Qed.

Lemma wf_tmap {A B} (f : A -> B) (t : Tensor A) : wf t -> wf (tmap f t).
Proof. unfold wf. simpl. rewrite length_map. trivial. Qed.

(** ** Broadcasting *)

Lemma broadcast_rev_refl (a : list nat) : broadcast_rev a a = Some a.
Proof.
  induction a as [|x a IH]; simpl; [reflexivity|].
  rewrite IH, Nat.eqb_refl. reflexivity.
Qed.

Lemma broadcast_shapes_refl (a : list nat) : broadcast_shapes a a = Some a.
Proof.
  unfold broadcast_shapes. rewrite broadcast_rev_refl. simpl.
  rewrite rev_involutive. reflexivity.
Qed.

Lemma bmask_id (sh idx : list nat) : in_bounds sh idx -> bmask sh idx = idx.
Proof.
  intros Hb. induction Hb as [|i n idx sh Hi Hb IH]; simpl; [reflexivity|].
  rewrite IH. destruct (Nat.eqb_spec n 1); [f_equal; lia | reflexivity].
Qed.

Lemma broadcast_index_id (sh idx : list nat) :
  in_bounds sh idx -> broadcast_index sh idx = idx.
Proof.
  intros Hb. unfold broadcast_index.
  rewrite (in_bounds_length _ _ Hb), Nat.sub_diag. simpl.
  apply bmask_id. assumption.
Qed.

Lemma tmap2_shape {A B C} `{Default A} `{Default B} (f : A -> B -> C)
    (a : Tensor A) (b : Tensor B) (sh : list nat) :
  broadcast_shapes (shape a) (shape b) = Some sh ->
  tmap2 f a b =
  Ok (tabulate sh (fun idx =>
        f (get a (broadcast_index (shape a) idx))
          (get b (broadcast_index (shape b) idx)))).
Proof. intros Hs. unfold tmap2. rewrite Hs. reflexivity. Qed.

(** A row against a column: [(1, L)] with [(L, 1)] gives [(L, L)]. *)
Lemma broadcast_row_col (L : nat) :
  broadcast_shapes [1; L] [L; 1] = Some [L; L].
Proof.
  unfold broadcast_shapes. cbn [rev app broadcast_rev].
  destruct (Nat.eqb_spec 1 L); destruct (Nat.eqb_spec L 1);
    try lia; subst; reflexivity.
Qed.

(** ** The relative-position matrix *)

Lemma wrap64_small (z : Z) :
  (- 2 ^ 63 <= z < 2 ^ 63)%Z -> wrap64 z = z.
Proof.
  intros Hz. unfold wrap64.
  rewrite Z.mod_small by lia. lia.
Qed.

Lemma fits64_true (z : Z) : (- 2 ^ 63 <= z < 2 ^ 63)%Z -> fits64 z = true.
Proof.
  intros Hz. unfold fits64.
  apply andb_true_intro. split; [apply Z.leb_le | apply Z.ltb_lt]; lia.
Qed.

Lemma spec_clip_min_max (x lo hi : Z) :
  (lo <= hi)%Z -> Z.min (Z.max x lo) hi = spec_clip x lo hi.
Proof.
  intros Hle. unfold spec_clip.
  destruct (Z.ltb_spec x lo); [lia|].
  destruct (Z.ltb_spec hi x); lia.
Qed.

Lemma nth_arange (n j : nat) :
  j < n -> nth j (map Z.of_nat (seq 0 n)) 0%Z = Z.of_nat j.
Proof.
  intros Hj. change 0%Z with (Z.of_nat 0). rewrite map_nth.
  rewrite seq_nth by assumption. reflexivity.
Qed.

Lemma relative_positions_matrix_value (L : nat) (k : Z) :
  (0 <= k < 2 ^ 62)%Z -> (Z.of_nat L <= 2 ^ 62)%Z ->
  MultiHeadedAttention_RPR._generate_relative_positions_matrix L L k =
  Ok (tabulate [L; L] (fun idx =>
        (spec_clip (Z.of_nat (nth 1 idx 0%nat) - Z.of_nat (nth 0 idx 0%nat)) (- k) k
         + k)%Z)).
Proof.
  intros Hk HL.
  unfold MultiHeadedAttention_RPR._generate_relative_positions_matrix.
  rewrite Nat.eqb_refl. simpl negb. cbv iota.
  unfold unsqueeze, arange, dim. simpl shape. simpl length.
  change (norm_dim 2 0) with (Ok (A:=nat) 0).
  change (norm_dim 2 (-1)) with (Ok (A:=nat) 1).
  simpl rbind. unfold isub.
  rewrite (tmap2_shape _ _ _ [L; L]) by apply broadcast_row_col.
  simpl rbind. unfold clamp.
  rewrite !fits64_true by lia. simpl andb. cbv iota. simpl rbind.
  unfold iadd_scalar. rewrite fits64_true by lia.
  f_equal. unfold tmap, tabulate. simpl shape. simpl data. f_equal.
  rewrite !map_map. apply map_ext_in. intros idx Hin.
  apply in_indices in Hin.
  apply in_bounds_cons_inv in Hin as (i & idx1 & -> & Hi & Hin).
  apply in_bounds_cons_inv in Hin as (j & idx2 & -> & Hj & Hin).
  apply in_bounds_nil_inv in Hin. subst idx2.
  unfold get, broadcast_index. simpl. unfold dflt, Default_Z.
  assert (Hjv : nth ((if L =? 1 then 0 else j) * 1 + 0)
                    (map Z.of_nat (seq 0 L)) 0%Z = Z.of_nat j).
  { destruct (Nat.eqb_spec L 1).
    - replace j with 0 by lia. simpl. apply nth_arange. lia.
    - rewrite Nat.mul_1_r, Nat.add_0_r. apply nth_arange. assumption. }
  assert (Hiv : nth ((if L =? 1 then 0 else i) * 1 + 0)
                    (map Z.of_nat (seq 0 L)) 0%Z = Z.of_nat i).
  { destruct (Nat.eqb_spec L 1).
    - replace i with 0 by lia. simpl. apply nth_arange. lia.
    - rewrite Nat.mul_1_r, Nat.add_0_r. apply nth_arange. assumption. }
  rewrite Hjv, Hiv.
  rewrite (wrap64_small (Z.of_nat j - Z.of_nat i)) by lia.
  rewrite spec_clip_min_max by lia.
  apply wrap64_small. unfold spec_clip.
  destruct (Z.ltb_spec (Z.of_nat j - Z.of_nat i) (- k)); [lia|].
  destruct (Z.ltb_spec k (Z.of_nat j - Z.of_nat i)); lia.
Qed.

(** C8 (amended): for a sequence length L <= 2^62 and a clipping bound k
    with 0 <= k < 2^62 (the range in which the int64 arithmetic of the
    tensors does not wrap), [_generate_relative_positions_matrix(L, L, k)]
    returns the L x L matrix whose entry (i, j) is clip(j - i, -k, k) + k,
    and every entry lies between 0 and 2k. *)
Theorem C8_relative_positions_matrix (L : nat) (k : Z) :
  (0 <= k < 2 ^ 62)%Z -> (Z.of_nat L <= 2 ^ 62)%Z ->
  exists m,
    MultiHeadedAttention_RPR._generate_relative_positions_matrix L L k = Ok m
    /\ shape m = [L; L] /\ wf m
    /\ forall i j, i < L -> j < L ->
         get m [i; j] = (spec_clip (Z.of_nat j - Z.of_nat i) (- k) k + k)%Z
         /\ (0 <= get m [i; j] <= 2 * k)%Z.
Proof.
  intros Hk HL. eexists. split; [|split; [|split]].
  - apply relative_positions_matrix_value; assumption.
  - reflexivity.
  - apply wf_tabulate.
  - intros i j Hi Hj.
    rewrite get_tabulate by (repeat constructor; assumption).
    simpl nth. split; [reflexivity|].
    unfold spec_clip.
    destruct (Z.ltb_spec (Z.of_nat j - Z.of_nat i) (- k)); [lia|].
    destruct (Z.ltb_spec k (Z.of_nat j - Z.of_nat i)); lia.
Qed.

Lemma C8_relative_positions_matrix_witness :
  exists m,
    MultiHeadedAttention_RPR._generate_relative_positions_matrix 3 3 1 = Ok m
    /\ shape m = [3; 3] /\ wf m
    /\ forall i j, i < 3 -> j < 3 ->
         get m [i; j] = (spec_clip (Z.of_nat j - Z.of_nat i) (- 1) 1 + 1)%Z
         /\ (0 <= get m [i; j] <= 2 * 1)%Z.
Proof.
  apply (C8_relative_positions_matrix 3 1%Z); simpl; lia.
Defined.

(** C8 (as stated, for every k) fails.  For the negative bound k = -1 the
    clamp has its lower bound above its upper bound and returns the upper
    bound, so every entry of the matrix is -2: no entry lies between 0 and
    2k, and the diagonal differs from clip(0, 1, -1) - 1.  For the bound
    k = 2^63 - 1 the last addition wraps in int64: the entry (0, 1) is
    -2^63 and not 1 + k. *)
Lemma C8_counterexample :
  (exists m,
     MultiHeadedAttention_RPR._generate_relative_positions_matrix 2 2 (-1)
     = Ok m
     /\ data m = [-2; -2; -2; -2]%Z
     /\ get m [0; 0]
        <> (spec_clip (Z.of_nat 0 - Z.of_nat 0) (- (-1)) (-1) + (-1))%Z
     /\ ~ (0 <= get m [0%nat; 0%nat] <= 2 * (-1))%Z)
  /\ (exists m,
        MultiHeadedAttention_RPR._generate_relative_positions_matrix 2 2
          (2 ^ 63 - 1)
        = Ok m
        /\ get m [0; 1] = (- 2 ^ 63)%Z
        /\ get m [0; 1]
           <> (spec_clip (Z.of_nat 1 - Z.of_nat 0) (- (2 ^ 63 - 1))
                 (2 ^ 63 - 1) + (2 ^ 63 - 1))%Z
        /\ ~ (0 <= get m [0%nat; 1%nat] <= 2 * (2 ^ 63 - 1))%Z).
Proof.
  split.
  - eexists. split; [vm_compute; reflexivity|].
    split; [reflexivity|]. split; vm_compute; [discriminate|].
    intros [H _]. apply H. reflexivity.
  - eexists. split; [vm_compute; reflexivity|].
    split; [reflexivity|]. split; vm_compute; [discriminate|].
    intros [H _]. apply H. reflexivity.
Qed.

(** ** Indices whose last axis is singled out *)

Lemma in_bounds_snoc_inv (pre : list nat) (n : nat) (idx : list nat) :
  in_bounds (pre ++ [n]) idx ->
  exists p j, idx = p ++ [j] /\ in_bounds pre p /\ j < n.
Proof.
  intros Hb. apply Forall2_app_inv_r in Hb as (p & l & Hp & Hl & ->).
  inversion Hl as [|j n' l' sh' Hj Hnil]; subst.
  inversion Hnil; subst. eauto.
Qed.

Lemma in_bounds_snoc (pre p : list nat) (n j : nat) :
  in_bounds pre p -> j < n -> in_bounds (pre ++ [n]) (p ++ [j]).
Proof.
  intros Hp Hj. apply in_bounds_app; [assumption|]. repeat constructor.
  assumption.
Qed.

Lemma bmask_app (sh1 sh2 i1 i2 : list nat) :
  length sh1 = length i1 ->
  bmask (sh1 ++ sh2) (i1 ++ i2) = bmask sh1 i1 ++ bmask sh2 i2.
Proof.
  revert i1. induction sh1 as [|n sh1 IH]; intros [|i i1] Hlen;
    simpl in *; try discriminate; [reflexivity|].
  rewrite IH by congruence. reflexivity.
Qed.

Lemma broadcast_keepdim (pre : list nat) (F : nat) :
  broadcast_shapes (pre ++ [F]) (pre ++ [1]) = Some (pre ++ [F]).
Proof.
  unfold broadcast_shapes. rewrite !rev_unit. cbn [broadcast_rev].
  rewrite broadcast_rev_refl.
  destruct (Nat.eqb_spec F 1); cbn [option_map rev Nat.eqb];
    rewrite rev_involutive; reflexivity.
Qed.

Lemma broadcast_vector_l (pre : list nat) (F : nat) :
  broadcast_shapes [F] (pre ++ [F]) = Some (pre ++ [F]).
Proof.
  unfold broadcast_shapes. rewrite !rev_unit. cbn [rev app broadcast_rev].
  rewrite Nat.eqb_refl. cbn [option_map rev]. rewrite rev_involutive.
  reflexivity.
Qed.

Lemma broadcast_vector_r (pre : list nat) (F : nat) :
  broadcast_shapes (pre ++ [F]) [F] = Some (pre ++ [F]).
Proof.
  unfold broadcast_shapes. rewrite !rev_unit. cbn [rev app broadcast_rev].
  assert (Hnil : broadcast_rev (rev pre) [] = Some (rev pre))
    by (destruct (rev pre); reflexivity).
  rewrite Hnil, Nat.eqb_refl. cbn [option_map rev]. rewrite rev_involutive.
  reflexivity.
Qed.

Lemma broadcast_index_keepdim (pre p : list nat) (j : nat) :
  in_bounds pre p -> broadcast_index (pre ++ [1]) (p ++ [j]) = p ++ [0].
Proof.
  intros Hp. unfold broadcast_index.
  rewrite !length_app, (in_bounds_length _ _ Hp), Nat.sub_diag.
  cbn [skipn]. rewrite bmask_app by (symmetry; apply in_bounds_length, Hp).
  rewrite bmask_id by assumption. reflexivity.
Qed.

Lemma broadcast_index_vector (p : list nat) (F j : nat) :
  j < F -> broadcast_index [F] (p ++ [j]) = [j].
Proof.
  intros Hj. unfold broadcast_index. rewrite length_app. simpl length.
  replace (length p + 1 - 1) with (length p + 0) by lia.
  rewrite skipn_app, Nat.add_0_r, skipn_all.
  replace (length p - length p) with 0 by lia. cbn [skipn app bmask].
  destruct (Nat.eqb_spec F 1); [f_equal; lia | reflexivity].
Qed.

Lemma keepdim_shape_snoc (pre : list nat) (F : nat) :
  keepdim_shape (pre ++ [F]) = pre ++ [1].
Proof.
  unfold keepdim_shape. rewrite removelast_last.
  destruct pre; reflexivity.
Qed.

Lemma last_size_snoc (pre : list nat) (F : nat) : last_size (pre ++ [F]) = F.
Proof. unfold last_size. apply last_last. Qed.

(** ** LayerNorm *)

Section LayerNormFacts.
Context {T : Type} `{Numeric T}.

Lemma row_get_snoc (t : Tensor T) (p : list nat) (j j' : nat) :
  row_get t (p ++ [j]) j' = get t (p ++ [j']).
Proof. unfold row_get. rewrite removelast_last. reflexivity. Qed.

Lemma row_of_snoc (t : Tensor T) (p : list nat) (j j' : nat) :
  row_of t (p ++ [j]) = row_of t (p ++ [j']).
Proof.
  unfold row_of. apply map_ext. intros c. rewrite !row_get_snoc.
  reflexivity.
Qed.

Lemma row_mean_spec (t : Tensor T) (idx : list nat) :
  row_mean t idx = spec_mean (row_of t idx).
Proof.
  unfold row_mean, spec_mean, row_of, tsum.
  rewrite length_map, length_seq. reflexivity.
Qed.

Lemma std_last_spec (t : Tensor T) (idx : list nat) :
  fsqrt (div (tsum (last_size (shape t)) (fun j =>
                mul (sub (row_get t idx j) (row_mean t idx))
                    (sub (row_get t idx j) (row_mean t idx))))
             (of_nat (last_size (shape t) - 1)))
  = spec_std 1 (row_of t idx).
Proof.
  unfold spec_std, tsum. rewrite row_mean_spec.
  generalize (spec_mean (row_of t idx)). intros m.
  unfold row_of. rewrite map_map, length_map, length_seq. reflexivity.
Qed.

(** The value of [LayerNorm.forward] on a tensor whose trailing axis has
    the width of the scale and shift vectors. *)
Lemma LayerNorm_forward_value (self : LayerNorm.t T) (x : Tensor T)
    (pre : list nat) (F : nat) :
  shape x = pre ++ [F] ->
  shape (LayerNorm.weight self) = [F] ->
  shape (LayerNorm.bias self) = [F] ->
  LayerNorm.forward self x =
  Ok (tabulate (pre ++ [F]) (fun idx =>
        spec_layer_norm 1
          (get (LayerNorm.weight self) [last idx 0])
          (get (LayerNorm.bias self) [last idx 0])
          (LayerNorm.eps self) (get x idx) (row_of x idx))).
Proof.
  intros Hx Hw Hb. unfold LayerNorm.forward.
  unfold tsub.
  rewrite (tmap2_shape _ _ _ (pre ++ [F]))
    by (unfold mean_last; simpl shape; rewrite Hx, keepdim_shape_snoc;
        apply broadcast_keepdim).
  cbn [rbind]. unfold tmul.
  rewrite (tmap2_shape _ _ _ (pre ++ [F]))
    by (simpl shape; rewrite Hw; apply broadcast_vector_l).
  cbn [rbind]. unfold tdiv.
  rewrite (tmap2_shape _ _ _ (pre ++ [F]))
    by (unfold std_last; simpl shape; rewrite Hx, keepdim_shape_snoc;
        apply broadcast_keepdim).
  cbn [rbind]. unfold tadd.
  rewrite (tmap2_shape _ _ _ (pre ++ [F]))
    by (simpl shape; rewrite Hb; apply broadcast_vector_r).
  f_equal. apply tabulate_ext. intros idx Hin.
  pose proof Hin as Hin0.
  apply in_bounds_snoc_inv in Hin as (p & j & -> & Hp & Hj).
  rewrite last_last.
  simpl shape. rewrite Hb, broadcast_index_vector by assumption.
  rewrite broadcast_index_id by assumption.
  rewrite get_tabulate by assumption.
  rewrite broadcast_index_id by assumption.
  rewrite get_tabulate by assumption.
  rewrite Hw, broadcast_index_vector by assumption.
  rewrite broadcast_index_id by assumption.
  rewrite get_tabulate by assumption.
  rewrite Hx, broadcast_index_id by assumption.
  unfold mean_last, std_last. simpl shape.
  rewrite Hx, keepdim_shape_snoc, last_size_snoc.
  rewrite broadcast_index_keepdim by assumption.
  rewrite get_tabulate by (apply in_bounds_snoc; [assumption | lia]).
  rewrite get_tmap;
    [| apply wf_tabulate | apply in_bounds_snoc; [assumption | lia]].
  rewrite get_tabulate by (apply in_bounds_snoc; [assumption | lia]).
  pose proof (std_last_spec x (p ++ [0])) as Hstd.
  rewrite Hx, last_size_snoc in Hstd. rewrite Hstd.
  rewrite row_mean_spec.
  rewrite (row_of_snoc x p 0 j).
  reflexivity.
Qed.
End LayerNormFacts.

(** ** Extended reals *)

Lemma is_zero_true (r : R) : r = 0%R -> XFloat.is_zero r = true.
Proof.
  intros ->. unfold XFloat.is_zero.
  destruct (Req_dec_T 0 0); [reflexivity | contradiction].
Qed.

Lemma is_zero_false (r : R) : r <> 0%R -> XFloat.is_zero r = false.
Proof.
  intros Hr. unfold XFloat.is_zero.
  destruct (Req_dec_T r 0); [contradiction | reflexivity].
Qed.

Lemma is_neg_false (r : R) : (0 <= r)%R -> XFloat.is_neg r = false.
Proof.
  intros Hr. unfold XFloat.is_neg.
  destruct (Rlt_dec r 0); [lra | reflexivity].
Qed.

Lemma xdiv_nan_r (a : xfloat) : XFloat.xdiv a XNaN = XNaN.
Proof. destruct a; reflexivity. Qed.

(** The sample standard deviation of a single value is NaN: the sum of
    squared deviations, 0 or NaN, is divided by 0. *)
Lemma spec_std_single_nan (v : xfloat) : spec_std 1 [v] = XNaN.
Proof.
  unfold spec_std, spec_mean, sum_list, of_nat. simpl.
  destruct v as [|s|r]; simpl.
  - reflexivity.
  - rewrite (is_neg_false 1%R) by lra.
    destruct s; reflexivity.
  - rewrite (is_zero_false 1%R) by lra. simpl.
    rewrite (is_zero_true 0%R) by reflexivity.
    rewrite is_zero_true by (field; lra).
    reflexivity.
Qed.

Lemma spec_layer_norm_nan_std (w b eps v : xfloat) (row : list xfloat) :
  spec_std 1 row = XNaN -> spec_layer_norm 1 w b eps v row = XNaN.
Proof.
  intros Hstd. unfold spec_layer_norm. rewrite Hstd. simpl.
  rewrite xdiv_nan_r. reflexivity.
Qed.

(** Bessel's correction is visible on the row (0, 2): the sample standard
    deviation is sqrt 2, the population standard deviation is 1. *)
Lemma spec_std_bessel_differs :
  spec_std 1 [XFin 0; XFin 2] <> spec_std 0 [XFin 0; XFin 2].
Proof.
  unfold spec_std, spec_mean, sum_list, of_nat. simpl.
  repeat (first [ rewrite (is_zero_false 2%R) by lra
                | rewrite (is_zero_false 1%R) by lra
                | progress simpl ]).
  rewrite !is_neg_false by (apply Rmult_le_pos; nra).
  intros Heq. injection Heq as Heq.
  match type of Heq with
  | sqrt ?a = sqrt ?b =>
      assert (Ha : a = 2%R) by (field; lra);
      assert (Hb : b = 1%R) by (field; lra);
      rewrite Ha, Hb in Heq
  end.
  rewrite sqrt_1 in Heq.
  pose proof (sqrt_def 2 ltac:(lra)) as Hd. rewrite Heq in Hd. lra.
Qed.

(** C10: [LayerNorm.forward] divides by the sample standard deviation of
    the trailing axis (sum of squared deviations over F - 1, Bessel's
    correction) plus eps; this differs from the population standard
    deviation (over F); and for feature width F = 1 every output entry is
    NaN. *)
Theorem C10_layer_norm_sample_std (self : LayerNorm.t xfloat)
    (x : Tensor xfloat) (pre : list nat) (F : nat) :
  shape x = pre ++ [F] ->
  shape (LayerNorm.weight self) = [F] ->
  shape (LayerNorm.bias self) = [F] ->
  exists y,
    LayerNorm.forward self x = Ok y
    /\ shape y = shape x
    /\ (forall idx, in_bounds (shape x) idx ->
          get y idx =
          spec_layer_norm 1
            (get (LayerNorm.weight self) [last idx 0])
            (get (LayerNorm.bias self) [last idx 0])
            (LayerNorm.eps self) (get x idx) (row_of x idx))
    /\ spec_std 1 [XFin 0; XFin 2] <> spec_std 0 [XFin 0; XFin 2]
    /\ (F = 1 -> forall idx, in_bounds (shape x) idx -> get y idx = XNaN).
Proof.
  intros Hx Hw Hb. eexists. split; [|split; [|split; [|split]]].
  - apply (LayerNorm_forward_value self x pre F Hx Hw Hb).
  - simpl. symmetry. assumption.
  - intros idx Hin. rewrite Hx in Hin.
    rewrite get_tabulate by assumption. reflexivity.
  - apply spec_std_bessel_differs.
  - intros -> idx Hin. rewrite Hx in Hin.
    rewrite get_tabulate by assumption.
    apply spec_layer_norm_nan_std.
    unfold row_of. rewrite Hx, last_size_snoc. simpl.
    apply spec_std_single_nan.
Qed.

Lemma C10_layer_norm_sample_std_witness :
  let self := LayerNorm.mk (mkTensor [1] [XFin 1]) (mkTensor [1] [XFin 0])
                (XFin 0) in
  let x := mkTensor [2; 1] [XFin 3; XFin 4] in
  exists y,
    LayerNorm.forward self x = Ok y
    /\ shape y = shape x
    /\ (forall idx, in_bounds (shape x) idx ->
          get y idx =
          spec_layer_norm 1
            (get (LayerNorm.weight self) [last idx 0])
            (get (LayerNorm.bias self) [last idx 0])
            (LayerNorm.eps self) (get x idx) (row_of x idx))
    /\ spec_std 1 [XFin 0; XFin 2] <> spec_std 0 [XFin 0; XFin 2]
    /\ (1 = 1 -> forall idx, in_bounds (shape x) idx -> get y idx = XNaN).
Proof.
  intros self x.
  apply (C10_layer_norm_sample_std self x [2] 1); reflexivity.
Defined.

(** ** Dropout *)

Section DropoutFacts.
Context {T : Type} `{Numeric T}.

(** Dropout never raises and keeps the shape of its input. *)
Lemma Dropout_forward_ok (self : Dropout.t T) (x : Tensor T) (w : World T) :
  exists d w', Dropout.forward self x w = Ok (d, w') /\ shape d = shape x
               /\ allocated w' = allocated w.
Proof.
  unfold Dropout.forward.
  destruct (feqb (Dropout.p self) zero || negb (Dropout.training self)
            || (numel (shape x) =? 0)).
  - exists x, w. repeat split.
  - destruct (feqb (Dropout.p self) one).
    + eexists _, w. repeat split.
    + unfold mbind, bernoulli, mret. eexists _, _. repeat split.
Qed.

Lemma Dropout_forward_inactive (self : Dropout.t T) (x : Tensor T)
    (w : World T) :
  dropout_inactive self -> Dropout.forward self x w = Ok (x, w).
Proof.
  intros [Hp|Ht]; unfold Dropout.forward.
  - rewrite Hp. reflexivity.
  - rewrite Ht. rewrite orb_true_r. reflexivity.
Qed.
End DropoutFacts.

(** ** SublayerConnection *)

Section SublayerConnectionFacts.
Context {T : Type} `{Numeric T}.

Lemma SublayerConnection_forward_steps (self : SublayerConnection.t T)
    (x : Tensor T) (sublayer : Tensor T -> M T (Tensor T)) (w w1 w2 : World T)
    (n y d : Tensor T) :
  LayerNorm.forward (SublayerConnection.norm self) x = Ok n ->
  sublayer n w = Ok (y, w1) ->
  Dropout.forward (SublayerConnection.dropout self) y w1 = Ok (d, w2) ->
  SublayerConnection.forward self x sublayer w =
  match tadd x d with
  | Ok r => Ok (r, w2)
  | Raise e => Raise e
  end.
Proof.
  intros Hn Hy Hd. unfold SublayerConnection.forward, mbind, lift.
  rewrite Hn, Hy, Hd. reflexivity.
Qed.

(** C7 (amended): [SublayerConnection.forward] has no shape check of its
    own.  When the normalisation and the sublayer succeed, the call raises
    (the RuntimeError of the tensor addition) exactly when the shape of
    f(norm(x)) cannot be broadcast against the shape of x; when the two
    shapes are broadcast-compatible the sum is returned with the
    broadcast shape, and when they are equal the result has the shape
    of x and the entries x + dropout(f(norm(x))). *)
Theorem C7_sublayer_connection_broadcast (self : SublayerConnection.t T)
    (x : Tensor T) (sublayer : Tensor T -> M T (Tensor T)) (w w1 : World T)
    (n y : Tensor T) :
  LayerNorm.forward (SublayerConnection.norm self) x = Ok n ->
  sublayer n w = Ok (y, w1) ->
  exists d w2,
    Dropout.forward (SublayerConnection.dropout self) y w1 = Ok (d, w2)
    /\ shape d = shape y
    /\ match broadcast_shapes (shape x) (shape y) with
       | None =>
           SublayerConnection.forward self x sublayer w = Raise RuntimeError
       | Some sh =>
           exists r,
             SublayerConnection.forward self x sublayer w = Ok (r, w2)
             /\ shape r = sh
             /\ (shape y = shape x ->
                 sh = shape x
                 /\ forall idx, in_bounds (shape x) idx ->
                      get r idx = add (get x idx) (get d idx))
       end.
Proof.
  intros Hn Hy.
  destruct (Dropout_forward_ok (SublayerConnection.dropout self) y w1)
    as (d & w2 & Hd & Hsh & _).
  exists d, w2. split; [assumption|]. split; [assumption|].
  erewrite SublayerConnection_forward_steps by eassumption.
  unfold tadd, tmap2. rewrite Hsh.
  destruct (broadcast_shapes (shape x) (shape y)) as [sh|] eqn:Hbs.
  - eexists. split; [reflexivity|]. split; [reflexivity|].
    intros Heq. rewrite Heq, broadcast_shapes_refl in Hbs.
    injection Hbs as <-. split; [reflexivity|].
    intros idx Hin. rewrite get_tabulate by assumption.
    rewrite Heq. rewrite !broadcast_index_id by assumption. reflexivity.
  - reflexivity.
Qed.
End SublayerConnectionFacts.

Lemma feqb_R_refl (a : R) : feqb a a = true.
Proof. simpl. destruct (Req_dec_T a a); [reflexivity | contradiction]. Qed.

(** C7 (as stated) fails: the sublayer returns a (1, 2) tensor for a (2, 2)
    input, the shapes differ, and the call returns a (2, 2) tensor instead
    of raising. *)
Lemma C7_counterexample :
  exists n y r w',
    LayerNorm.forward (SublayerConnection.norm c7_self) c7_x = Ok n
    /\ c7_sublayer n c7_world = Ok (y, c7_world)
    /\ shape y <> shape c7_x
    /\ SublayerConnection.forward c7_self c7_x c7_sublayer c7_world
       = Ok (r, w')
    /\ shape r = [2; 2].
Proof.
  pose proof (LayerNorm_forward_value (SublayerConnection.norm c7_self) c7_x
                [2] 2 eq_refl eq_refl eq_refl) as Hn.
  eexists _, _, _, _. split; [exact Hn|]. split; [reflexivity|].
  split; [discriminate|].
  split.
  - assert (Hd : dropout_inactive (SublayerConnection.dropout c7_self))
      by (left; apply feqb_R_refl).
    rewrite (@SublayerConnection_forward_steps R _ c7_self c7_x c7_sublayer
               c7_world c7_world c7_world _ _ _ Hn eq_refl
               (Dropout_forward_inactive _ _ _ Hd)).
    unfold tadd, tmap2.
    change (broadcast_shapes _ _) with (Some [2; 2]). reflexivity.
  - reflexivity.
Qed.

Lemma C7_sublayer_connection_broadcast_witness :
  exists n y d w2,
    LayerNorm.forward (SublayerConnection.norm c7_self) c7_x = Ok n
    /\ c7_sublayer n c7_world = Ok (y, c7_world)
    /\ Dropout.forward (SublayerConnection.dropout c7_self) y c7_world
       = Ok (d, w2)
    /\ shape d = shape y
    /\ match broadcast_shapes (shape c7_x) (shape y) with
       | None =>
           SublayerConnection.forward c7_self c7_x c7_sublayer c7_world
           = Raise RuntimeError
       | Some sh =>
           exists r,
             SublayerConnection.forward c7_self c7_x c7_sublayer c7_world
             = Ok (r, w2)
             /\ shape r = sh
             /\ (shape y = shape c7_x ->
                 sh = shape c7_x
                 /\ forall idx, in_bounds (shape c7_x) idx ->
                      get r idx = add (get c7_x idx) (get d idx))
       end.
Proof.
  pose proof (LayerNorm_forward_value (SublayerConnection.norm c7_self) c7_x
                [2] 2 eq_refl eq_refl eq_refl) as Hn.
  destruct (C7_sublayer_connection_broadcast c7_self c7_x c7_sublayer
              c7_world c7_world _ _ Hn eq_refl)
    as (d & w2 & Hd & Hsh & Hres).
  eexists _, _, d, w2. split; [exact Hn|]. split; [reflexivity|].
  split; [exact Hd|]. split; [exact Hsh|]. exact Hres.
Defined.

(** ** Column assignment and slicing *)

Lemma range_len_bound (start cols step c : nat) :
  0 < step -> start <= c -> c < cols ->
  (c - start) / step < range_len start cols step.
Proof.
  intros Hstep Hsc Hc. unfold range_len.
  apply Nat.Div0.div_lt_upper_bound.
  pose proof (Nat.div_mod_eq (cols - start + (step - 1)) step) as Hdm.
  pose proof (Nat.mod_upper_bound (cols - start + (step - 1)) step
                ltac:(lia)) as Hmod.
  lia.
Qed.

Lemma in_bounds_2 (a b i j : nat) : i < a -> j < b -> in_bounds [a; b] [i; j].
Proof. intros Hi Hj. repeat constructor; assumption. Qed.

Lemma in_bounds_2_inv (a b : nat) (idx : list nat) :
  in_bounds [a; b] idx -> exists i j, idx = [i; j] /\ i < a /\ j < b.
Proof.
  intros Hin.
  apply in_bounds_cons_inv in Hin as (i & idx1 & -> & Hi & Hin).
  apply in_bounds_cons_inv in Hin as (j & idx2 & -> & Hj & Hin).
  apply in_bounds_nil_inv in Hin. subst. eauto.
Qed.

Lemma in_bounds_3 (a b c i j k : nat) :
  i < a -> j < b -> k < c -> in_bounds [a; b; c] [i; j; k].
Proof. intros Hi Hj Hk. repeat constructor; assumption. Qed.

Lemma setitem_cols_value {A} `{Default A} (t src : Tensor A)
    (rows cols start step : nat) :
  0 < step ->
  shape t = [rows; cols] ->
  shape src = [rows; range_len start cols step] ->
  setitem_cols t start step src =
  Ok (tabulate [rows; cols] (fun idx =>
        if (start <=? nth 1 idx 0) && ((nth 1 idx 0 - start) mod step =? 0)
        then get src [nth 0 idx 0; (nth 1 idx 0 - start) / step]
        else get t idx)).
Proof.
  intros Hstep Ht Hs. unfold setitem_cols.
  rewrite Ht, Hs, broadcast_shapes_refl.
  destruct (list_eq_dec Nat.eq_dec _ _) as [_|Hne]; [|contradiction].
  f_equal. apply tabulate_ext. intros idx Hin.
  apply in_bounds_2_inv in Hin as (r & c & -> & Hr & Hc). cbn [nth].
  destruct (Nat.leb_spec start c) as [Hsc|Hsc]; [|reflexivity].
  cbn [andb]. destruct (_ =? 0); [|reflexivity].
  rewrite broadcast_index_id; [reflexivity|].
  apply in_bounds_2; [assumption|].
  apply range_len_bound; assumption.
Qed.

Lemma range_len_even_0 (m : nat) : range_len 0 (2 * m) 2 = m.
Proof.
  unfold range_len. symmetry.
  apply (Nat.div_unique _ 2 m 1); lia.
Qed.

Lemma range_len_even_1 (m : nat) : range_len 1 (2 * m) 2 = m.
Proof.
  unfold range_len. destruct m as [|m]; [reflexivity|]. symmetry.
  apply (Nat.div_unique _ 2 (S m) 0); lia.
Qed.

Lemma even_col (i : nat) :
  (0 <=? 2 * i) && ((2 * i - 0) mod 2 =? 0) = true /\ (2 * i - 0) / 2 = i.
Proof.
  rewrite Nat.sub_0_r. split.
  - rewrite <- (Nat.mod_unique (2 * i) 2 i 0) by lia. reflexivity.
  - symmetry. apply (Nat.div_unique _ 2 i 0); lia.
Qed.

Lemma even_col_skipped (i : nat) :
  (1 <=? 2 * i) && ((2 * i - 1) mod 2 =? 0) = false.
Proof.
  destruct i as [|i]; [reflexivity|].
  rewrite <- (Nat.mod_unique (2 * S i - 1) 2 i 1) by lia.
  apply andb_false_r.
Qed.

Lemma odd_col (i : nat) :
  (1 <=? 2 * i + 1) && ((2 * i + 1 - 1) mod 2 =? 0) = true
  /\ (2 * i + 1 - 1) / 2 = i.
Proof.
  replace (2 * i + 1 - 1) with (2 * i) by lia. split.
  - rewrite <- (Nat.mod_unique (2 * i) 2 i 0) by lia.
    destruct (Nat.leb_spec 1 (2 * i + 1)); [reflexivity | lia].
  - symmetry. apply (Nat.div_unique _ 2 i 0); lia.
Qed.

(** A column vector against a row vector: [(n, 1)] with [(m)]. *)
Lemma broadcast_col_vector (n m : nat) :
  broadcast_shapes [n; 1] [m] = Some [n; m].
Proof.
  unfold broadcast_shapes. cbn [rev app broadcast_rev].
  destruct (Nat.eqb_spec 1 m); subst; reflexivity.
Qed.

(** A batch against a single leading entry: [(B, L, D)] with [(1, L, D)]. *)
Lemma broadcast_batch (B L D : nat) :
  broadcast_shapes [B; L; D] [1; L; D] = Some [B; L; D].
Proof.
  unfold broadcast_shapes. cbn [rev app broadcast_rev].
  rewrite !Nat.eqb_refl.
  destruct (Nat.eqb_spec B 1); subst; reflexivity.
Qed.

(** ** PositionalEncoding *)

Lemma fltb_R_false (a b : R) : (b <= a)%R -> fltb a b = false.
Proof.
  intros Hab. simpl. destruct (Rlt_dec a b); [lra | reflexivity].
Qed.

Lemma Dropout_init_R (p : R) :
  (0 <= p <= 1)%R -> Dropout.__init__ p = Ok (Dropout.mk p true).
Proof.
  intros Hp. unfold Dropout.__init__.
  rewrite !fltb_R_false by (simpl; lra). reflexivity.
Qed.

Lemma of_nat_INR (n : nat) : of_nat n = INR n.
Proof. unfold of_nat. simpl. symmetry. apply INR_IZR_INZ. Qed.

(** The phase of the code, pos * exp (2i * -(ln 10000 / D)), is
    pos / 10000^(2i/D). *)
Lemma pe_phase (D pos i : nat) :
  D <> 0 ->
  (INR pos * exp (INR (i * 2) * - (ln 10000 / INR D)))%R =
  (INR pos / Rpower 10000 (INR (2 * i) / INR D))%R.
Proof.
  intros HD. unfold Rpower, Rdiv at 2.
  rewrite <- exp_Ropp. f_equal. f_equal.
  rewrite (Nat.mul_comm i 2).
  assert (INR D <> 0%R) by (apply not_0_INR; assumption).
  field. assumption.
Qed.

Lemma get_unsqueeze_0 {A} `{Default A} (sh : list nat) (l : list A)
    (idx : list nat) :
  get (mkTensor (1 :: sh) l) (0 :: idx) = get (mkTensor sh l) idx.
Proof. reflexivity. Qed.

Lemma get_column (n : nat) (l : list R) (r : nat) :
  get (mkTensor [n; 1] l) [r; 0] = nth r l 0%R.
Proof.
  unfold get. cbn [shape data ravel numel fold_right].
  f_equal. lia.
Qed.

Lemma get_vector (n : nat) (l : list R) (i : nat) :
  get (mkTensor [n] l) [i] = nth i l 0%R.
Proof.
  unfold get. cbn [shape data ravel numel fold_right].
  f_equal. lia.
Qed.

Lemma nth_map_seq (g : nat -> R) (n i : nat) :
  i < n -> nth i (map g (seq 0 n)) 0%R = g i.
Proof.
  intros Hi. rewrite (nth_indep _ 0%R (g 0))
    by (rewrite length_map, length_seq; assumption).
  rewrite map_nth, seq_nth by assumption. reflexivity.
Qed.

Lemma wf_vector {A} (n : nat) (l : list A) :
  length l = n -> wf (mkTensor [n] l).
Proof. intros Hl. unfold wf. simpl. lia. Qed.

Lemma PositionalEncoding_init_entries (m max_len : nat) (p : R) :
  0 < m -> (0 <= p <= 1)%R ->
  exists self,
    PositionalEncoding.__init__ (2 * m) p max_len = Ok self
    /\ PositionalEncoding.dropout self = Dropout.mk p true
    /\ shape (PositionalEncoding.pe self) = [1; max_len; 2 * m]
    /\ forall pos i, pos < max_len -> i < m ->
         get (PositionalEncoding.pe self) [0; pos; 2 * i]
         = spec_pe_sin (2 * m) pos i
         /\ get (PositionalEncoding.pe self) [0; pos; 2 * i + 1]
            = spec_pe_cos (2 * m) pos i.
Proof.
  intros Hm Hp. unfold PositionalEncoding.__init__.
  rewrite Dropout_init_R by assumption. cbn [rbind].
  change (unsqueeze (farange max_len) 1)
    with (Ok (mkTensor [max_len; 1] (map (@of_nat R _) (seq 0 max_len)))).
  cbn [rbind]. unfold PositionalEncoding.log_ratio.
  destruct (Nat.eqb_spec (2 * m) 0) as [|HD]; [lia|]. cbn [rbind].
  set (r := div (flog (of_Z 10000)) (of_nat (2 * m))).
  set (div_term := tmap fexp (tmap (fun a => mul a (neg r))
                                   (farange_step (2 * m) 2))).
  set (position := mkTensor [max_len; 1] (map (@of_nat R _) (seq 0 max_len))).
  assert (Hpd : tmul position div_term =
                Ok (tabulate [max_len; m] (fun idx =>
                      (INR (nth 0 idx 0%nat)
                       * exp (INR (nth 1 idx 0%nat * 2)
                              * - (ln 10000 / INR (2 * m))))%R))).
  { unfold tmul.
    rewrite (tmap2_shape _ _ _ [max_len; m])
      by (cbn [shape position div_term tmap farange_step];
          rewrite range_len_even_0; apply broadcast_col_vector).
    f_equal. apply tabulate_ext. intros idx Hin.
    apply in_bounds_2_inv in Hin as (pos & i & -> & Hpos & Hi).
    cbn [nth shape position div_term tmap farange_step].
    rewrite range_len_even_0.
    unfold broadcast_index. cbn [length Nat.sub skipn bmask].
    assert (Hpos' : (if max_len =? 1 then 0 else pos) = pos)
      by (destruct (Nat.eqb_spec max_len 1); lia).
    assert (Hi' : (if m =? 1 then 0 else i) = i)
      by (destruct (Nat.eqb_spec m 1); lia).
    rewrite Hpos', Hi'. cbn [Nat.eqb].
    unfold position. rewrite get_column, nth_map_seq by assumption.
    unfold div_term.
    assert (Hwf : wf (farange_step (T := R) (2 * m) 2))
      by (apply wf_vector; rewrite length_map, length_seq; reflexivity).
    assert (Hin : in_bounds (shape (farange_step (T := R) (2 * m) 2)) [i])
      by (cbn [shape farange_step]; rewrite range_len_even_0;
          repeat constructor; assumption).
    rewrite get_tmap; [|apply wf_tmap; exact Hwf|exact Hin].
    rewrite get_tmap; [|exact Hwf|exact Hin].
    unfold farange_step. rewrite get_vector, range_len_even_0.
    rewrite nth_map_seq by assumption.
    rewrite !of_nat_INR. unfold r. rewrite of_nat_INR. reflexivity. }
  rewrite Hpd. cbn [rbind]. clear Hpd.
  set (pd := tabulate [max_len; m] _).
  rewrite (setitem_cols_value _ _ max_len (2 * m) _ _)
    by (try lia; try reflexivity;
        cbn [shape tmap pd tabulate]; rewrite range_len_even_0; reflexivity).
  cbn [rbind].
  rewrite (setitem_cols_value _ _ max_len (2 * m) _ _)
    by (try lia; try reflexivity;
        cbn [shape tmap pd tabulate]; rewrite range_len_even_1; reflexivity).
  cbn [rbind].
  set (pe2 := tabulate [max_len; 2 * m] _).
  change (unsqueeze pe2 0) with (Ok (mkTensor (1 :: shape pe2) (data pe2))).
  cbn [rbind].
  eexists. split; [reflexivity|]. split; [reflexivity|].
  split; [reflexivity|].
  intros pos i Hpos Hi. cbn [PositionalEncoding.pe].
  rewrite !get_unsqueeze_0.
  change (mkTensor (shape pe2) (data pe2)) with pe2.
  assert (Hpdv : forall j, j < m ->
            get pd [pos; j]
            = (INR pos / Rpower 10000 (INR (2 * j) / INR (2 * m)))%R).
  { intros j Hj. unfold pd.
    rewrite get_tabulate by (apply in_bounds_2; assumption).
    cbn [nth]. apply pe_phase. assumption. }
  assert (Hwf : wf pd) by apply wf_tabulate.
  split.
  - unfold pe2. rewrite get_tabulate by (apply in_bounds_2; lia).
    cbn [nth]. rewrite even_col_skipped.
    rewrite get_tabulate by (apply in_bounds_2; lia).
    cbn [nth]. destruct (even_col i) as [-> ->].
    rewrite get_tmap; [|exact Hwf|apply in_bounds_2; assumption].
    rewrite Hpdv by assumption. reflexivity.
  - unfold pe2. rewrite get_tabulate by (apply in_bounds_2; lia).
    cbn [nth]. destruct (odd_col i) as [-> ->].
    rewrite get_tmap; [|exact Hwf|apply in_bounds_2; assumption].
    rewrite Hpdv by assumption. reflexivity.
Qed.

Lemma broadcast_index_batch (B L D b pos j : nat) :
  pos < L -> j < D -> broadcast_index [1; L; D] [b; pos; j] = [0; pos; j].
Proof.
  intros Hpos Hj. unfold broadcast_index. cbn [length Nat.sub skipn bmask].
  cbn [Nat.eqb].
  destruct (Nat.eqb_spec L 1); destruct (Nat.eqb_spec D 1);
    repeat f_equal; lia.
Qed.

Section PositionalEncodingFacts.
Context {T : Type} `{Numeric T}.

(** [forward] adds the first L rows of the table to every batch entry and
    applies dropout to the sum. *)
Lemma PositionalEncoding_forward_value (self : PositionalEncoding.t T)
    (x : Tensor T) (B L D max_len : nat) (w : World T) :
  shape (PositionalEncoding.pe self) = [1; max_len; D] ->
  shape x = [B; L; D] -> L <= max_len ->
  exists s,
    PositionalEncoding.forward self x w
    = Dropout.forward (PositionalEncoding.dropout self) s w
    /\ shape s = [B; L; D]
    /\ forall b pos j, b < B -> pos < L -> j < D ->
         get s [b; pos; j]
         = add (get x [b; pos; j])
               (get (PositionalEncoding.pe self) [0; pos; j]).
Proof.
  intros Hpe Hx HL. unfold PositionalEncoding.forward, mbind, lift.
  unfold size, dim. rewrite Hx.
  change (norm_dim (length [B; L; D]) 1) with (Ok (A:=nat) 1).
  cbn [rbind nth]. unfold slice_dim1. rewrite Hpe.
  rewrite Nat.min_r by assumption.
  unfold tadd.
  rewrite (tmap2_shape _ _ _ [B; L; D])
    by (rewrite Hx; apply broadcast_batch).
  eexists. split; [reflexivity|]. split; [reflexivity|].
  intros b pos j Hb Hpos Hj.
  rewrite get_tabulate by (apply in_bounds_3; assumption).
  rewrite Hx. rewrite broadcast_index_id by (apply in_bounds_3; assumption).
  cbn [shape tabulate].
  rewrite (broadcast_index_batch B L D b pos j Hpos Hj).
  rewrite get_tabulate by (apply in_bounds_3; [lia | assumption..]).
  reflexivity.
Qed.
End PositionalEncodingFacts.

(** C9 (amended): for every even, positive model dimension D = 2m and every
    maximum length, the constructor succeeds and its table satisfies
    pe[pos, 2i] = sin(pos / 10000^(2i/D)) and
    pe[pos, 2i+1] = cos(pos / 10000^(2i/D)); row 0 holds 0 at the sin
    entries and 1 at the cos entries; and [forward] adds the table, sliced
    to the sequence length of the input, before applying dropout. *)
Theorem C9_positional_encoding_table (m max_len : nat) (p : R) :
  0 < m -> (0 <= p <= 1)%R ->
  exists self,
    PositionalEncoding.__init__ (2 * m) p max_len = Ok self
    /\ shape (PositionalEncoding.pe self) = [1; max_len; 2 * m]
    /\ (forall pos i, pos < max_len -> i < m ->
          get (PositionalEncoding.pe self) [0; pos; 2 * i]
          = spec_pe_sin (2 * m) pos i
          /\ get (PositionalEncoding.pe self) [0; pos; 2 * i + 1]
             = spec_pe_cos (2 * m) pos i)
    /\ (forall i, 0 < max_len -> i < m ->
          get (PositionalEncoding.pe self) [0; 0; 2 * i] = 0%R
          /\ get (PositionalEncoding.pe self) [0; 0; 2 * i + 1] = 1%R)
    /\ (forall (x : Tensor R) (B L : nat) (w : World R),
          shape x = [B; L; 2 * m] -> L <= max_len ->
          exists s,
            PositionalEncoding.forward self x w
            = Dropout.forward (PositionalEncoding.dropout self) s w
            /\ shape s = [B; L; 2 * m]
            /\ forall b pos j, b < B -> pos < L -> j < 2 * m ->
                 get s [b; pos; j]
                 = (get x [b; pos; j]
                    + get (PositionalEncoding.pe self) [0%nat; pos; j])%R).
Proof.
  intros Hm Hp.
  destruct (PositionalEncoding_init_entries m max_len p Hm Hp)
    as (self & Hinit & Hdrop & Hshape & Hentries).
  exists self. split; [assumption|]. split; [assumption|].
  split; [assumption|]. split.
  - intros i Hlen Hi. destruct (Hentries 0 i Hlen Hi) as [Hs Hc].
    rewrite Hs, Hc. unfold spec_pe_sin, spec_pe_cos.
    change (INR 0) with 0%R. unfold Rdiv. rewrite !Rmult_0_l.
    split; [apply sin_0 | apply cos_0].
  - intros x B L w Hx HL.
    destruct (@PositionalEncoding_forward_value R _ self x B L (2 * m)
                max_len w Hshape Hx HL) as (s & Hf & Hss & He).
    exists s. split; [assumption|]. split; [assumption|].
    intros b pos j Hb Hpos Hj. apply He; assumption.
Qed.

Lemma C9_positional_encoding_table_witness :
  exists self,
    PositionalEncoding.__init__ (2 * 2) 0%R 3 = Ok self
    /\ shape (PositionalEncoding.pe self) = [1; 3; 2 * 2]
    /\ (forall pos i, pos < 3 -> i < 2 ->
          get (PositionalEncoding.pe self) [0; pos; 2 * i]
          = spec_pe_sin (2 * 2) pos i
          /\ get (PositionalEncoding.pe self) [0; pos; 2 * i + 1]
             = spec_pe_cos (2 * 2) pos i)
    /\ (forall i, 0 < 3 -> i < 2 ->
          get (PositionalEncoding.pe self) [0; 0; 2 * i] = 0%R
          /\ get (PositionalEncoding.pe self) [0; 0; 2 * i + 1] = 1%R)
    /\ (forall (x : Tensor R) (B L : nat) (w : World R),
          shape x = [B; L; 2 * 2] -> L <= 3 ->
          exists s,
            PositionalEncoding.forward self x w
            = Dropout.forward (PositionalEncoding.dropout self) s w
            /\ shape s = [B; L; 2 * 2]
            /\ forall b pos j, b < B -> pos < L -> j < 2 * 2 ->
                 get s [b; pos; j]
                 = (get x [b; pos; j]
                    + get (PositionalEncoding.pe self) [0%nat; pos; j])%R).
Proof.
  apply (C9_positional_encoding_table 2 3 0%R); [lia | lra].
Defined.

(** C9 (as stated) fails for an odd model dimension: with D = 3 the cos
    values fill two columns but only one odd column exists, the assignment
    raises, and no table is built. *)
Lemma C9_counterexample :
  PositionalEncoding.__init__ 3 0%R 1 = Raise RuntimeError.
Proof.
  unfold PositionalEncoding.__init__.
  rewrite Dropout_init_R by lra.
  reflexivity.
Qed.

(** ** Broadcast indices stay in bounds *)

Lemma Forall2_rev_intro {A B} (P : A -> B -> Prop) (l : list A) (l' : list B) :
  Forall2 P l l' -> Forall2 P (rev l) (rev l').
Proof.
  induction 1; simpl; [constructor|].
  apply Forall2_app; [assumption|]. repeat constructor. assumption.
Qed.

Lemma broadcast_rev_fits_r (ra rb r : list nat) :
  broadcast_rev ra rb = Some r ->
  exists r2 suf, r = r2 ++ suf /\ Forall2 fits rb r2.
Proof.
  revert rb r. induction ra as [|x ra IH]; intros rb r Hbr.
  - simpl in Hbr. injection Hbr as <-. exists rb, [].
    rewrite app_nil_r. split; [reflexivity|].
    induction rb; constructor; [left; reflexivity | assumption].
  - destruct rb as [|y rb].
    + simpl in Hbr. injection Hbr as <-. exists [], (x :: ra).
      split; [reflexivity | constructor].
    + simpl in Hbr.
      destruct (broadcast_rev ra rb) as [r'|] eqn:Hr'; [|discriminate].
      destruct (IH _ _ Hr') as (r2 & suf & -> & Hf).
      destruct (Nat.eqb_spec x y) as [->|Hxy].
      * injection Hbr as <-. exists (y :: r2), suf.
        split; [reflexivity|]. constructor; [left; reflexivity | assumption].
      * destruct (Nat.eqb_spec x 1) as [->|Hx1].
        -- injection Hbr as <-. exists (y :: r2), suf.
           split; [reflexivity|].
           constructor; [left; reflexivity | assumption].
        -- destruct (Nat.eqb_spec y 1) as [->|Hy1]; [|discriminate].
           injection Hbr as <-. exists (x :: r2), suf.
           split; [reflexivity|].
           constructor; [right; reflexivity | assumption].
Qed.

Lemma bmask_in_bounds (b sh2 i2 : list nat) :
  Forall2 fits b sh2 -> in_bounds sh2 i2 -> in_bounds b (bmask b i2).
Proof.
  intros Hf. revert i2. induction Hf as [|n s b sh2 Hns Hf IH]; intros i2 Hin.
  - apply in_bounds_nil_inv in Hin. subst. constructor.
  - apply in_bounds_cons_inv in Hin as (i & i2' & -> & Hi & Hin).
    cbn [bmask]. constructor; [|apply IH; assumption].
    destruct (Nat.eqb_spec n 1); [lia|].
    destruct Hns; [lia | contradiction].
Qed.

Lemma fits_in_bounds (b pre sh2 idx : list nat) :
  Forall2 fits b sh2 -> in_bounds (pre ++ sh2) idx ->
  in_bounds b (broadcast_index b idx).
Proof.
  intros Hf Hin.
  pose proof (in_bounds_length _ _ Hin) as Hlen.
  apply Forall2_app_inv_r in Hin as (ip & i2 & Hip & Hi2 & ->).
  unfold broadcast_index.
  pose proof (Forall2_length Hf) as Hlb.
  pose proof (in_bounds_length _ _ Hi2) as Hl2.
  pose proof (in_bounds_length _ _ Hip) as Hlp.
  rewrite length_app.
  replace (length ip + length i2 - length b) with (length ip + 0) by lia.
  rewrite skipn_app, Nat.add_0_r, skipn_all.
  replace (length ip - length ip) with 0 by lia. cbn [skipn app].
  apply bmask_in_bounds with (sh2 := sh2); assumption.
Qed.

(** The index that broadcasting reads in the right operand is in bounds. *)
Lemma broadcast_index_in_bounds_r (a b sh idx : list nat) :
  broadcast_shapes a b = Some sh -> in_bounds sh idx ->
  in_bounds b (broadcast_index b idx).
Proof.
  unfold broadcast_shapes. intros Hbs Hin.
  destruct (broadcast_rev (rev a) (rev b)) as [r|] eqn:Hr; [|discriminate].
  injection Hbs as <-.
  destruct (broadcast_rev_fits_r _ _ _ Hr) as (r2 & suf & -> & Hf).
  rewrite rev_app_distr in Hin.
  apply Forall2_rev_intro in Hf. rewrite rev_involutive in Hf.
  apply fits_in_bounds with (pre := rev suf) (sh2 := rev r2); assumption.
Qed.

(** ** Dimensions *)

Lemma norm_dim_neg (rank k : nat) :
  0 < k <= rank -> norm_dim rank (- Z.of_nat k) = Ok (rank - k).
Proof.
  intros Hk. unfold norm_dim.
  destruct (Z.ltb_spec (- Z.of_nat k) 0); [|lia].
  destruct (Z.ltb_spec (Z.of_nat rank + - Z.of_nat k) 0); [lia|].
  f_equal. lia.
Qed.

Lemma norm_dim_m1 (rank : nat) :
  1 <= rank -> norm_dim rank (-1) = Ok (rank - 1).
Proof. intros Hr. apply (norm_dim_neg rank 1). lia. Qed.

Lemma norm_dim_m2 (rank : nat) :
  2 <= rank -> norm_dim rank (-2) = Ok (rank - 2).
Proof. intros Hr. apply (norm_dim_neg rank 2). lia. Qed.

Lemma map_nth_seq (l : list nat) :
  map (fun k => nth k l 0) (seq 0 (length l)) = l.
Proof.
  apply nth_ext with (d := 0) (d' := 0).
  - rewrite length_map, length_seq. reflexivity.
  - intros k Hk. rewrite length_map, length_seq in Hk.
    rewrite (nth_indep _ 0 (nth 0 l 0))
      by (rewrite length_map, length_seq; assumption).
    rewrite (map_nth (fun k => nth k l 0)), seq_nth by assumption.
    reflexivity.
Qed.

(** Swapping the last two axes. *)
Lemma swap_at_last2 (pre : list nat) (a b : nat) :
  swap_at (length pre) (S (length pre)) (pre ++ [a; b]) = pre ++ [b; a].
Proof.
  unfold swap_at. rewrite length_app. cbn [length].
  replace (length pre + 2) with (length pre + 1 + 1) by lia.
  rewrite !seq_app, !map_app. cbn [seq map Nat.add].
  rewrite <- app_assoc. f_equal.
  - transitivity (map (fun k => nth k pre 0) (seq 0 (length pre)));
      [|apply map_nth_seq].
    apply map_ext_in. intros k Hk. apply in_seq in Hk.
    destruct (Nat.eqb_spec k (length pre)); [lia|].
    destruct (Nat.eqb_spec k (S (length pre))); [lia|].
    apply app_nth1. lia.
  - cbn [app]. rewrite Nat.eqb_refl.
    destruct (Nat.eqb_spec (length pre + 1) (length pre)); [lia|].
    replace (length pre + 1) with (S (length pre)) by lia.
    rewrite Nat.eqb_refl.
    rewrite !app_nth2 by lia.
    replace (S (length pre) - length pre) with 1 by lia.
    rewrite Nat.sub_diag. reflexivity.
Qed.

Section MatmulFacts.
Context {T : Type} `{Numeric T}.

(** [t.transpose(-2, -1)] *)
Lemma transpose_last2 (t : Tensor T) (bs : list nat) (n m : nat) :
  shape t = bs ++ [n; m] ->
  transpose t (-2) (-1) =
  Ok (tabulate (bs ++ [m; n])
        (fun idx => get t (swap_at (length bs) (S (length bs)) idx))).
Proof.
  intros Ht. unfold transpose, dim. rewrite Ht, length_app. cbn [length].
  rewrite norm_dim_m2, norm_dim_m1 by lia.
  cbn [rbind].
  replace (length bs + 2 - 2) with (length bs) by lia.
  replace (length bs + 2 - 1) with (S (length bs)) by lia.
  rewrite swap_at_last2. reflexivity.
Qed.

Lemma matmul_rank2 (a b : Tensor T) :
  2 <= length (shape a) -> 2 <= length (shape b) ->
  matmul a b = matmul2 a b.
Proof.
  intros Ha Hb. unfold matmul.
  destruct (shape a) as [|a1 [|a2 sa]]; cbn [length] in Ha; try lia.
  destruct (shape b) as [|b1 [|b2 sb]]; cbn [length] in Hb; try lia.
  reflexivity.
Qed.

(** The matrix product of two operands with the same batch axes. *)
Lemma matmul_value (a b : Tensor T) (bs : list nat) (n m p : nat) :
  shape a = bs ++ [n; m] -> shape b = bs ++ [m; p] ->
  exists r,
    matmul a b = Ok r /\ shape r = bs ++ [n; p] /\ wf r
    /\ forall pre i j, in_bounds bs pre -> i < n -> j < p ->
         get r (pre ++ [i; j])
         = tsum m (fun c => mul (get a (pre ++ [i; c]))
                                (get b (pre ++ [c; j]))).
Proof.
  intros Ha Hb.
  rewrite matmul_rank2
    by (rewrite ?Ha, ?Hb, length_app; cbn [length]; lia).
  unfold matmul2. rewrite Ha, Hb, !rev_app_distr. cbn [rev app].
  rewrite Nat.eqb_refl, broadcast_rev_refl, rev_involutive.
  eexists. split; [reflexivity|]. split; [reflexivity|].
  split; [apply wf_tabulate|].
  intros pre i j Hpre Hi Hj.
  rewrite get_tabulate
    by (apply in_bounds_app; [assumption | apply in_bounds_2; assumption]).
  pose proof (in_bounds_length _ _ Hpre) as Hlen.
  rewrite <- Hlen.
  rewrite firstn_app, firstn_all, Nat.sub_diag. cbn [firstn].
  rewrite app_nil_r.
  rewrite !app_nth2 by lia.
  replace (S (length pre) - length pre) with 1 by lia.
  rewrite Nat.sub_diag. cbn [nth].
  rewrite broadcast_index_id by assumption. reflexivity.
Qed.

(** [t.size(-1)] *)
Lemma size_last (t : Tensor T) (bs : list nat) (n m : nat) :
  shape t = bs ++ [n; m] -> size t (-1) = Ok m.
Proof.
  intros Ht. unfold size, dim. rewrite Ht, length_app. cbn [length].
  rewrite norm_dim_m1 by lia.
  cbn [rbind]. f_equal.
  rewrite app_nth2 by lia.
  replace (length bs + 2 - 1 - length bs) with 1 by lia. reflexivity.
Qed.
End MatmulFacts.

(** ** Scaled dot-product attention *)

Lemma in_bounds_last2 (bs pre : list nat) (n m i j : nat) :
  in_bounds bs pre -> i < n -> j < m ->
  in_bounds (bs ++ [n; m]) (pre ++ [i; j]).
Proof.
  intros Hpre Hi Hj. apply in_bounds_app; [assumption|].
  apply in_bounds_2; assumption.
Qed.

Section AttentionFacts.
Context {T : Type} `{Numeric T}.

Lemma tsum_ext (n : nat) (f g : nat -> T) :
  (forall c, c < n -> f c = g c) -> tsum n f = tsum n g.
Proof.
  intros Hfg. unfold tsum. f_equal. apply map_ext_in.
  intros c Hc. apply in_seq in Hc. apply Hfg. lia.
Qed.

Lemma row_get_last2 (t : Tensor T) (pre : list nat) (i j j' : nat) :
  row_get t (pre ++ [i; j]) j' = get t (pre ++ [i; j']).
Proof.
  unfold row_get.
  change (pre ++ [i; j]) with (pre ++ [i] ++ [j]).
  rewrite app_assoc, removelast_last, <- app_assoc. reflexivity.
Qed.

Lemma last_size_last2 (bs : list nat) (n m : nat) :
  last_size (bs ++ [n; m]) = m.
Proof.
  change (bs ++ [n; m]) with (bs ++ [n] ++ [m]).
  rewrite app_assoc. apply last_size_snoc.
Qed.

(** The entries of a softmax over the last axis. *)
Lemma get_softmax (t : Tensor T) (bs pre : list nat) (L K i j : nat) :
  shape t = bs ++ [L; K] -> in_bounds bs pre -> i < L -> j < K ->
  get (softmax t) (pre ++ [i; j])
  = div (fexp (get t (pre ++ [i; j])))
        (tsum K (fun j' => fexp (get t (pre ++ [i; j'])))).
Proof.
  intros Ht Hpre Hi Hj. unfold softmax.
  rewrite get_tabulate by (rewrite Ht; apply in_bounds_last2; assumption).
  rewrite Ht, last_size_last2. f_equal.
  apply tsum_ext. intros c Hc. rewrite row_get_last2. reflexivity.
Qed.

(** The scores after scaling and masking. *)
Lemma masked_scores_value (query key : Tensor T) (mask : option (Tensor Z))
    (bs : list nat) (L K dk : nat) :
  shape query = bs ++ [L; dk] -> shape key = bs ++ [K; dk] ->
  mask_ok mask (bs ++ [L; K]) ->
  exists kt qk sc,
    transpose key (-2) (-1) = Ok kt
    /\ matmul query kt = Ok qk
    /\ match mask with
       | Some m =>
           masked_fill (tmap (fun s => div s (fsqrt (of_nat dk))) qk)
             (eq0 m) (of_Z (-1000000000))
       | None => Ok (tmap (fun s => div s (fsqrt (of_nat dk))) qk)
       end = Ok sc
    /\ shape sc = bs ++ [L; K]
    /\ forall pre i j, in_bounds bs pre -> i < L -> j < K ->
         get sc (pre ++ [i; j]) = spec_masked_score mask query key dk pre i j.
Proof.
  intros Hq Hk Hmask.
  pose proof (transpose_last2 key bs K dk Hk) as Hkt.
  destruct (matmul_value query
              (tabulate (bs ++ [dk; K])
                 (fun idx => get key
                    (swap_at (length bs) (S (length bs)) idx)))
              bs L dk K Hq eq_refl)
    as (qk & Hqk & Hsqk & Hwqk & Hvqk).
  assert (Hscore : forall pre i j, in_bounds bs pre -> i < L -> j < K ->
            get (tmap (fun s => div s (fsqrt (of_nat dk))) qk)
                (pre ++ [i; j])
            = spec_score query key dk pre i j).
  { intros pre i j Hpre Hi Hj.
    rewrite get_tmap;
      [|assumption|rewrite Hsqk; apply in_bounds_last2; assumption].
    rewrite Hvqk by assumption. unfold spec_score. f_equal.
    apply tsum_ext. intros c Hc. f_equal.
    rewrite get_tabulate by (apply in_bounds_last2; assumption).
    rewrite <- (in_bounds_length _ _ Hpre), swap_at_last2. reflexivity. }
  destruct mask as [m|].
  - destruct Hmask as [Hwm Hbm].
    eexists _, _, _. split; [exact Hkt|]. split; [exact Hqk|].
    split.
    { unfold masked_fill. apply tmap2_shape.
      cbn [shape tmap eq0]. rewrite Hsqk. exact Hbm. }
    split; [reflexivity|].
    intros pre i j Hpre Hi Hj.
    pose proof (in_bounds_last2 bs pre L K i j Hpre Hi Hj) as Hin.
    rewrite get_tabulate by assumption.
    cbn [shape tmap eq0]. rewrite Hsqk.
    rewrite (broadcast_index_id _ _ Hin).
    unfold eq0. rewrite get_tmap;
      [|assumption|apply (broadcast_index_in_bounds_r _ _ _ _ Hbm Hin)].
    unfold spec_masked_score, mask_entry.
    destruct (_ =? 0)%Z; [reflexivity|]. apply Hscore; assumption.
  - eexists _, _, _. split; [exact Hkt|]. split; [exact Hqk|].
    split; [reflexivity|]. split; [exact Hsqk|].
    intros pre i j Hpre Hi Hj. apply Hscore; assumption.
Qed.

(** What [attention] computes on well-shaped inputs. *)
Lemma attention_value (query key value : Tensor T)
    (mask : option (Tensor Z)) (dropout : option (Dropout.t T))
    (bs : list nat) (L K dk dv : nat) (w : World T) :
  shape query = bs ++ [L; dk] ->
  shape key = bs ++ [K; dk] ->
  shape value = bs ++ [K; dv] ->
  mask_ok mask (bs ++ [L; K]) ->
  exists sw out p_attn w',
    attention query key value mask dropout w = Ok ((out, p_attn), w')
    /\ shape sw = bs ++ [L; K] /\ wf sw
    /\ (forall pre i j, in_bounds bs pre -> i < L -> j < K ->
          get sw (pre ++ [i; j]) = spec_weight mask query key dk K pre i j)
    /\ match dropout with
       | Some d => Dropout.forward d sw w = Ok (p_attn, w')
       | None => p_attn = sw /\ w' = w
       end
    /\ shape p_attn = bs ++ [L; K]
    /\ shape out = bs ++ [L; dv]
    /\ forall pre i c, in_bounds bs pre -> i < L -> c < dv ->
         get out (pre ++ [i; c])
         = tsum K (fun j => mul (get p_attn (pre ++ [i; j]))
                                (get value (pre ++ [j; c]))).
Proof.
  intros Hq Hk Hv Hmask.
  destruct (masked_scores_value query key mask bs L K dk Hq Hk Hmask)
    as (kt & qk & sc & Hkt & Hqk & Hsc & Hssc & Hvsc).
  assert (Hsw : forall pre i j, in_bounds bs pre -> i < L -> j < K ->
            get (softmax sc) (pre ++ [i; j])
            = spec_weight mask query key dk K pre i j).
  { intros pre i j Hpre Hi Hj.
    rewrite (get_softmax sc bs pre L K i j Hssc Hpre Hi Hj).
    unfold spec_weight. rewrite Hvsc by assumption. f_equal.
    apply tsum_ext. intros c Hc. rewrite Hvsc by assumption. reflexivity. }
  assert (Hdrop : exists p_attn w',
            match dropout with
            | Some d => Dropout.forward d (softmax sc)
            | None => mret (softmax sc)
            end w = Ok (p_attn, w')
            /\ shape p_attn = bs ++ [L; K]
            /\ match dropout with
               | Some d => Dropout.forward d (softmax sc) w = Ok (p_attn, w')
               | None => p_attn = softmax sc /\ w' = w
               end).
  { destruct dropout as [d|].
    - destruct (Dropout_forward_ok d (softmax sc) w)
        as (p & w' & Hp & Hsp & _).
      exists p, w'. split; [assumption|]. split; [|assumption].
      rewrite Hsp. exact Hssc.
    - exists (softmax sc), w. split; [reflexivity|].
      split; [exact Hssc|]. split; reflexivity. }
  destruct Hdrop as (p_attn & w' & Hp & Hsp & Hpd).
  destruct (matmul_value p_attn value bs L K dv Hsp Hv)
    as (out & Hout & Hsout & _ & Hvout).
  exists (softmax sc), out, p_attn, w'.
  split.
  { unfold attention, mbind, lift.
    rewrite (size_last query bs L dk Hq), Hkt, Hqk, Hsc, Hp, Hout.
    reflexivity. }
  split; [exact Hssc|]. split; [apply wf_tabulate|].
  split; [exact Hsw|]. split; [exact Hpd|].
  split; [exact Hsp|]. split; [exact Hsout|]. exact Hvout.
Qed.
End AttentionFacts.

(** C4: for a query (..., L, d_k), a key (..., K, d_k), a value (..., K, d_v)
    and an optional mask that broadcasts to (..., L, K), [attention]
    computes the scores (query . key^T) / sqrt(d_k), replaces the scores
    whose mask entry is zero by -1e9, applies softmax along the key axis,
    applies the dropout module to the weights when one is supplied, and
    returns (weights . value, weights); the first has shape (..., L, d_v). *)
Theorem C4_attention_computes {T : Type} `{Numeric T}
    (query key value : Tensor T) (mask : option (Tensor Z))
    (dropout : option (Dropout.t T)) (bs : list nat) (L K dk dv : nat)
    (w : World T) :
  shape query = bs ++ [L; dk] ->
  shape key = bs ++ [K; dk] ->
  shape value = bs ++ [K; dv] ->
  mask_ok mask (bs ++ [L; K]) ->
  exists sw out p_attn w',
    attention query key value mask dropout w = Ok ((out, p_attn), w')
    /\ shape sw = bs ++ [L; K] /\ wf sw
    /\ (forall pre i j, in_bounds bs pre -> i < L -> j < K ->
          get sw (pre ++ [i; j]) = spec_weight mask query key dk K pre i j)
    /\ match dropout with
       | Some d => Dropout.forward d sw w = Ok (p_attn, w')
       | None => p_attn = sw /\ w' = w
       end
    /\ shape p_attn = bs ++ [L; K]
    /\ shape out = bs ++ [L; dv]
    /\ forall pre i c, in_bounds bs pre -> i < L -> c < dv ->
         get out (pre ++ [i; c])
         = tsum K (fun j => mul (get p_attn (pre ++ [i; j]))
                                (get value (pre ++ [j; c]))).
Proof.
  intros Hq Hk Hv Hmask.
  exact (attention_value query key value mask dropout bs L K dk dv w
           Hq Hk Hv Hmask).
Qed.

Lemma C4_attention_computes_witness :
  exists sw out p_attn w',
    attention c5_x c5_x c5_x None None c7_world = Ok ((out, p_attn), w')
    /\ shape sw = [] ++ [1; 1] /\ wf sw
    /\ (forall pre i j, in_bounds [] pre -> i < 1 -> j < 1 ->
          get sw (pre ++ [i; j]) = spec_weight None c5_x c5_x 1 1 pre i j)
    /\ (p_attn = sw /\ w' = c7_world)
    /\ shape p_attn = [] ++ [1; 1]
    /\ shape out = [] ++ [1; 1]
    /\ forall pre i c, in_bounds [] pre -> i < 1 -> c < 1 ->
         get out (pre ++ [i; c])
         = tsum 1 (fun j => mul (get p_attn (pre ++ [i; j]))
                                (get c5_x (pre ++ [j; c]))).
Proof.
  apply (C4_attention_computes c5_x c5_x c5_x None None [] 1 1 1 1 c7_world);
    [reflexivity | reflexivity | reflexivity | exact I].
Defined.

(** ** Rows of attention weights over the reals *)

Lemma sum_list_nil_R : sum_list (T := R) [] = 0%R.
Proof. reflexivity. Qed.

Lemma sum_list_cons_R (x : R) (l : list R) :
  sum_list (x :: l) = (x + sum_list l)%R.
Proof. reflexivity. Qed.

Lemma sum_list_div (l : list R) (c : R) :
  sum_list (map (fun x => x / c)%R l) = (sum_list l / c)%R.
Proof.
  induction l as [|x l IH]; cbn [map].
  - rewrite sum_list_nil_R. unfold Rdiv. rewrite Rmult_0_l. reflexivity.
  - rewrite !sum_list_cons_R, IH. unfold Rdiv. ring.
Qed.

Lemma tsum_div (n : nat) (f : nat -> R) (c : R) :
  tsum n (fun j => f j / c)%R = (tsum n f / c)%R.
Proof.
  unfold tsum. rewrite <- sum_list_div, map_map. reflexivity.
Qed.

Lemma sum_list_pos (l : list R) :
  l <> [] -> Forall (fun x => 0 < x)%R l -> (0 < sum_list l)%R.
Proof.
  intros Hne Hall. induction Hall as [|x l Hx Hall IH]; [contradiction|].
  rewrite sum_list_cons_R. destruct l as [|y l].
  - rewrite sum_list_nil_R. lra.
  - assert (0 < sum_list (y :: l))%R by (apply IH; discriminate). lra.
Qed.

Lemma tsum_exp_pos (n : nat) (f : nat -> R) :
  0 < n -> (0 < tsum n (fun j => exp (f j)))%R.
Proof.
  intros Hn. unfold tsum. apply sum_list_pos.
  - destruct n; [lia | discriminate].
  - apply Forall_forall. intros x Hx.
    apply in_map_iff in Hx as (j & <- & _). apply exp_pos.
Qed.

(** A softmax row over the reals sums to 1. *)
Lemma spec_weight_row_sum (mask : option (Tensor Z)) (query key : Tensor R)
    (dk K : nat) (pre : list nat) (i : nat) :
  0 < K ->
  tsum K (fun j => spec_weight mask query key dk K pre i j) = 1%R.
Proof.
  intros HK. unfold spec_weight.
  change (fun j => div (fexp (spec_masked_score mask query key dk pre i j))
                       (tsum K (fun j' =>
                          fexp (spec_masked_score mask query key dk pre i j'))))
    with (fun j => (exp (spec_masked_score mask query key dk pre i j)
                    / tsum K (fun j' =>
                        exp (spec_masked_score mask query key dk pre i j')))%R).
  rewrite tsum_div.
  pose proof (tsum_exp_pos K
                (fun j => spec_masked_score mask query key dk pre i j) HK).
  field. lra.
Qed.


(** With an inactive dropout module, or none, the weights that [attention]
    returns are the softmax weights. *)
Lemma attention_weights_inactive {T : Type} `{Numeric T}
    (dropout : option (Dropout.t T)) (sw p_attn : Tensor T) (w w' : World T) :
  (forall d, dropout = Some d -> dropout_inactive d) ->
  match dropout with
  | Some d => Dropout.forward d sw w = Ok (p_attn, w')
  | None => p_attn = sw /\ w' = w
  end ->
  p_attn = sw.
Proof.
  intros Hin Hd. destruct dropout as [d|].
  - rewrite (Dropout_forward_inactive d sw w (Hin d eq_refl)) in Hd.
    injection Hd as <- _. reflexivity.
  - apply Hd.
Qed.




(** ** A fully masked row over the extended reals *)

Lemma sum_list_cons_x (x : xfloat) (l : list xfloat) :
  sum_list (x :: l) = XFloat.xadd x (sum_list l).
Proof. reflexivity. Qed.

Lemma sum_list_fin (l : list xfloat) :
  Forall (fun x => XFloat.is_finite x = true) l ->
  exists r, sum_list l = XFin r.
Proof.
  induction 1 as [|x l Hx Hall [r IH]].
  - exists 0%R. reflexivity.
  - rewrite sum_list_cons_x, IH. destruct x as [| |v]; try discriminate.
    exists (v + r)%R. reflexivity.
Qed.

Lemma sum_list_const_fin (n : nat) (e : R) :
  sum_list (repeat (XFin e) n) = XFin (INR n * e).
Proof.
  induction n as [|n IH].
  - simpl. f_equal. ring.
  - cbn [repeat]. rewrite sum_list_cons_x, IH, S_INR. simpl. f_equal. ring.
Qed.

Lemma map_const_seq {A} (x : A) (s n : nat) :
  map (fun _ => x) (seq s n) = repeat x n.
Proof.
  revert s. induction n as [|n IH]; intros s; simpl; [reflexivity|].
  rewrite IH. reflexivity.
Qed.

Lemma tsum_const_fin (n : nat) (e : R) :
  tsum n (fun _ => XFin e) = XFin (INR n * e).
Proof. unfold tsum. rewrite map_const_seq. apply sum_list_const_fin. Qed.

(** The softmax weight of a row whose scores are all -1e9 is 1/K. *)
Lemma uniform_weight (K : nat) (c : R) :
  0 < K ->
  XFloat.xdiv (XFloat.xexp (XFin c)) (tsum K (fun _ => XFloat.xexp (XFin c)))
  = XFin (1 / INR K).
Proof.
  intros HK. cbn [XFloat.xexp]. rewrite tsum_const_fin. cbn [XFloat.xdiv].
  assert (HKr : (0 < INR K)%R) by (apply lt_0_INR; assumption).
  pose proof (exp_pos c) as He.
  rewrite is_zero_false by nra.
  f_equal. field. split; lra.
Qed.

Lemma masked_row_weight (query key : Tensor xfloat) (m : Tensor Z)
    (dk K : nat) (pre : list nat) (i j : nat) :
  0 < K ->
  (forall j', j' < K -> mask_entry m (pre ++ [i; j']) = 0%Z) ->
  j < K ->
  spec_weight (Some m) query key dk K pre i j = XFin (1 / INR K).
Proof.
  intros HK Hrow Hj. unfold spec_weight.
  assert (Hs : forall j', j' < K ->
            spec_masked_score (Some m) query key dk pre i j'
            = XFin (-1000000000)).
  { intros j' Hj'. unfold spec_masked_score.
    rewrite (Hrow j' Hj'). reflexivity. }
  rewrite (Hs j Hj).
  rewrite (tsum_ext K _ (fun _ => fexp (XFin (-1000000000)))).
  - apply uniform_weight. assumption.
  - intros c Hc. rewrite (Hs c Hc). reflexivity.
Qed.

Lemma xfeqb_false (a b : R) : a <> b -> feqb (XFin a) (XFin b) = false.
Proof.
  intros Hab. simpl. destruct (Req_dec_T a b); [contradiction | reflexivity].
Qed.

(** C6 (amended): for a query row whose mask entries are all zero, with at
    least one key position, when no dropout module is supplied or the
    supplied module acts as the identity, the weights of the row are all
    1/K (finite, summing to 1); and when the value entries of the batch
    entry are finite, the output of the row contains no NaN and no Inf. *)
Theorem C6_fully_masked_row
    (query key value : Tensor xfloat) (m : Tensor Z)
    (dropout : option (Dropout.t xfloat)) (bs : list nat) (L K dk dv : nat)
    (w : World xfloat) (pre : list nat) (i : nat) :
  shape query = bs ++ [L; dk] ->
  shape key = bs ++ [K; dk] ->
  shape value = bs ++ [K; dv] ->
  mask_ok (Some m) (bs ++ [L; K]) ->
  in_bounds bs pre -> i < L -> 0 < K ->
  (forall j, j < K -> mask_entry m (pre ++ [i; j]) = 0%Z) ->
  (forall d, dropout = Some d -> dropout_inactive d) ->
  exists out p_attn w',
    attention query key value (Some m) dropout w = Ok ((out, p_attn), w')
    /\ (forall j, j < K -> get p_attn (pre ++ [i; j]) = XFin (1 / INR K))
    /\ tsum K (fun j => get p_attn (pre ++ [i; j])) = XFin 1
    /\ ((forall j c, j < K -> c < dv ->
           XFloat.is_finite (get value (pre ++ [j; c])) = true) ->
        forall c, c < dv ->
          XFloat.is_finite (get out (pre ++ [i; c])) = true).
Proof.
  intros Hq Hk Hv Hmask Hpre Hi HK Hrow Hdrop.
  destruct (attention_value query key value (Some m) dropout bs L K dk dv w
              Hq Hk Hv Hmask)
    as (sw & out & p_attn & w' & Hatt & _ & _ & Hsw & Hd & _ & _ & Hout).
  exists out, p_attn, w'. split; [exact Hatt|].
  rewrite (attention_weights_inactive dropout sw p_attn w w' Hdrop Hd) in *.
  assert (Hw : forall j, j < K -> get sw (pre ++ [i; j]) = XFin (1 / INR K)).
  { intros j Hj. rewrite (Hsw pre i j Hpre Hi Hj).
    apply masked_row_weight; assumption. }
  split; [exact Hw|]. split.
  - rewrite (tsum_ext K _ (fun _ => XFin (1 / INR K)))
      by (intros j Hj; apply Hw; assumption).
    rewrite tsum_const_fin. f_equal.
    assert (HKr : (0 < INR K)%R) by (apply lt_0_INR; assumption).
    field. lra.
  - intros Hfin c Hc. rewrite (Hout pre i c Hpre Hi Hc).
    destruct (sum_list_fin
                (map (fun j => mul (get sw (pre ++ [i; j]))
                                   (get value (pre ++ [j; c])))
                     (seq 0 K))) as [r Hr].
    + apply Forall_forall. intros x Hx.
      apply in_map_iff in Hx as (j & <- & Hj). apply in_seq in Hj.
      rewrite (Hw j ltac:(lia)).
      specialize (Hfin j c ltac:(lia) Hc).
      destruct (get value (pre ++ [j; c])); try discriminate. reflexivity.
    + unfold tsum. rewrite Hr. reflexivity.
Qed.

Lemma C6_fully_masked_row_witness :
  exists out p_attn w',
    attention c6_x c6_x c6_x (Some c6_mask) None c6_world
    = Ok ((out, p_attn), w')
    /\ (forall j, j < 1 -> get p_attn ([] ++ [0; j]) = XFin (1 / INR 1))
    /\ tsum 1 (fun j => get p_attn ([] ++ [0; j])) = XFin 1
    /\ ((forall j c, j < 1 -> c < 1 ->
           XFloat.is_finite (get c6_x ([] ++ [j; c])) = true) ->
        forall c, c < 1 ->
          XFloat.is_finite (get out ([] ++ [0; c])) = true).
Proof.
  apply (C6_fully_masked_row c6_x c6_x c6_x c6_mask None [] 1 1 1 1 c6_world
           [] 0).
  - reflexivity.
  - reflexivity.
  - reflexivity.
  - split; reflexivity.
  - constructor.
  - lia.
  - lia.
  - intros j Hj. replace j with 0 by lia. reflexivity.
  - discriminate.
Defined.

(** C6 (as stated) fails in two ways.  With a dropout module in training
    mode (probability 1/2, outcome "keep") the weight of the fully masked
    row is doubled, so the row is not normalised; and with a NaN value
    entry the output of the fully masked row is NaN. *)
Lemma C6_counterexample :
  (exists out p_attn w',
     attention c6_x c6_x c6_x (Some c6_mask) (Some c6_dropout) c6_world
     = Ok ((out, p_attn), w')
     /\ tsum 1 (fun j => get p_attn [0; j]) = XFin 2)
  /\ (exists out p_attn w',
        attention c6_x c6_x c6_nan (Some c6_mask) None c6_world
        = Ok ((out, p_attn), w')
        /\ get out [0; 0] = XNaN).
Proof.
  assert (Hmask : mask_ok (Some c6_mask) ([] ++ [1; 1]))
    by (split; reflexivity).
  assert (Hrow : forall j, j < 1 -> mask_entry c6_mask ([] ++ [0; j]) = 0%Z)
    by (intros j Hj; replace j with 0 by lia; reflexivity).
  split.
  - destruct (attention_value c6_x c6_x c6_x (Some c6_mask) (Some c6_dropout)
                [] 1 1 1 1 c6_world eq_refl eq_refl eq_refl Hmask)
      as (sw & out & p_attn & w' & Hatt & Hssw & Hwsw & Hsw & Hd & _).
    exists out, p_attn, w'. split; [exact Hatt|].
    pose proof (Hsw [] 0 0 ltac:(constructor) ltac:(lia) ltac:(lia)) as H00.
    rewrite (masked_row_weight c6_x c6_x c6_mask 1 1 [] 0 0
               ltac:(lia) Hrow ltac:(lia)) in H00.
    unfold Dropout.forward in Hd.
    cbn [Dropout.p Dropout.training c6_dropout] in Hd.
    change (@zero xfloat _) with (XFin 0) in Hd.
    change (@one xfloat _) with (XFin 1) in Hd.
    rewrite (xfeqb_false (1 / 2) 0) in Hd by lra.
    rewrite (xfeqb_false (1 / 2) 1) in Hd by lra.
    rewrite Hssw in Hd. cbn in Hd.
    unfold wf in Hwsw. rewrite Hssw in Hwsw. cbn in Hwsw.
    unfold get in H00. rewrite Hssw in H00. cbn in H00.
    destruct (data sw) as [|x [|y l]]; try discriminate.
    cbn in Hd, H00. subst x. injection Hd as <- _.
    unfold tsum, get. cbn.
    rewrite (is_zero_false (1 + - (1 / 2))) by lra.
    cbn. f_equal. field.
  - destruct (attention_value c6_x c6_x c6_nan (Some c6_mask) None
                [] 1 1 1 1 c6_world eq_refl eq_refl eq_refl Hmask)
      as (sw & out & p_attn & w' & Hatt & _ & _ & Hsw & [-> _] & _ & _ & Hout).
    exists out, sw, w'. split; [exact Hatt|].
    pose proof (Hout [] 0 0 ltac:(constructor) ltac:(lia) ltac:(lia)) as H00.
    cbn [app] in H00. rewrite H00.
    unfold tsum. cbn [seq map]. rewrite sum_list_cons_x.
    change (get c6_nan [0; 0]) with XNaN.
    destruct (get sw [0; 0]); reflexivity.
Qed.

(** ** Relative-position attention *)

Section RPRFacts.
Context {T : Type} `{Numeric T}.

Lemma mbind_ok {A B} (m : M T A) (k : A -> M T B) (w w2 : World T) (b : B) :
  mbind m k w = Ok (b, w2) ->
  exists a w1, m w = Ok (a, w1) /\ k a w1 = Ok (b, w2).
Proof.
  unfold mbind. destruct (m w) as [[a w1]|e]; [|discriminate].
  intros Hk. exists a, w1. split; [reflexivity | assumption].
Qed.

Lemma lift_ok {A} (r : result A) (w w1 : World T) (a : A) :
  lift r w = Ok (a, w1) -> r = Ok a /\ w1 = w.
Proof.
  unfold lift. destruct r as [a'|e]; [|discriminate].
  intros Heq. injection Heq as -> ->. split; reflexivity.
Qed.

(** The state after creating an embedding table. *)
Lemma Embedding_init_ok (n : Z) (d : nat) (w w1 : World T)
    (e : Embedding.t T) :
  Embedding.__init__ n d w = Ok (e, w1) ->
  (0 <= n)%Z
  /\ e = Embedding.mk
           (mkTensor [Z.to_nat n; d] (map (draws w) (seq 0 (Z.to_nat n * d))))
  /\ draws w1 = (fun i => draws w (Z.to_nat n * d + i))
  /\ coins w1 = coins w
  /\ allocated w1 = allocated w ++ [ParamEmbedding (Z.to_nat n) d].
Proof.
  unfold Embedding.__init__.
  destruct (Z.ltb_spec n 0) as [Hn|Hn]; [discriminate|].
  unfold mbind, sample, allocate, mret. cbn.
  intros Heq. injection Heq as <- <-. cbn. repeat split. assumption.
Qed.

(** The state after looking up the relation embeddings. *)
Lemma generate_embeddings_ok (len depth : nat) (k : Z) (w w1 : World T)
    (r : Tensor T) :
  MultiHeadedAttention_RPR.generate_relative_positions_embeddings
    len len depth k w = Ok (r, w1) ->
  relation_embeddings len depth k
    (map (draws w) (seq 0 (Z.to_nat (k * 2 + 1) * depth))) = Ok r
  /\ draws w1 = (fun i => draws w (Z.to_nat (k * 2 + 1) * depth + i))
  /\ coins w1 = coins w
  /\ allocated w1
     = allocated w ++ [ParamEmbedding (Z.to_nat (k * 2 + 1)) depth].
Proof.
  unfold MultiHeadedAttention_RPR.generate_relative_positions_embeddings.
  intros Hg.
  apply mbind_ok in Hg as (m & w0 & Hm & Hg).
  apply lift_ok in Hm as [Hm ->].
  apply mbind_ok in Hg as (e & w2 & He & Hg).
  apply lift_ok in Hg as [Hg ->].
  apply Embedding_init_ok in He as (Hn & -> & Hd & Hc & Ha).
  unfold relation_embeddings. rewrite Hm. cbn [rbind].
  destruct (Z.ltb_spec (k * 2 + 1) 0) as [Hlt|_]; [lia|].
  repeat split; assumption.
Qed.

(** The relation embeddings raise exactly when the lookup with the drawn
    table raises. *)
Lemma generate_embeddings_value (len depth : nat) (k : Z) (w : World T) :
  value_of (MultiHeadedAttention_RPR.generate_relative_positions_embeddings
              len len depth k w)
  = relation_embeddings len depth k
      (map (draws w) (seq 0 (Z.to_nat (k * 2 + 1) * depth))).
Proof.
  unfold MultiHeadedAttention_RPR.generate_relative_positions_embeddings,
    relation_embeddings, mbind, lift.
  destruct (MultiHeadedAttention_RPR._generate_relative_positions_matrix
              len len k) as [m|e]; [|reflexivity].
  cbn [rbind]. unfold Embedding.__init__.
  destruct (Z.ltb_spec (k * 2 + 1) 0) as [Hlt|Hge]; [reflexivity|].
  unfold mbind, sample, allocate, mret, lift. cbn.
  destruct (Embedding.forward _ m); reflexivity.
Qed.

(** With inactive dropout, a call returns what [forward_with_tables]
    computes from the two tables that the call draws, and the module
    itself. *)
Lemma RPR_forward_value (self : MultiHeadedAttention_RPR.t T)
    (query key value : Tensor T) (mask : option (Tensor Z)) (w : World T) :
  dropout_inactive (MultiHeadedAttention_RPR.dropout self) ->
  value_of (MultiHeadedAttention_RPR.forward self query key value mask w)
  = (out <- forward_with_tables self query key value mask
              (drawn_keys_table self w) (drawn_values_table self w) ;;
     Ok (out, self)).
Proof.
  intros Hdrop.
  unfold MultiHeadedAttention_RPR.forward, forward_with_tables,
    drawn_keys_table, drawn_values_table, table_size.
  set (k := MultiHeadedAttention_RPR.max_relative_position self).
  set (dk := MultiHeadedAttention_RPR.d_k self).
  unfold mbind, lift.
  destruct (unsqueeze_mask mask) as [m'|e]; cbn [rbind value_of];
    [|reflexivity].
  destruct (size query 0) as [nbatches|e]; cbn [rbind value_of];
    [|reflexivity].
  destruct (size query 1) as [seq_len|e]; cbn [rbind value_of];
    [|reflexivity].
  destruct (map_result _ _) as [qkv|e]; cbn [rbind value_of];
    [|reflexivity].
  destruct qkv as [|q [|k' [|v [|x qkv]]]]; try reflexivity.
  pose proof (generate_embeddings_value seq_len dk k w) as Hv1.
  destruct (MultiHeadedAttention_RPR.generate_relative_positions_embeddings
              seq_len seq_len dk k w) as [[rk w1]|e] eqn:Hg1;
    cbn [value_of] in Hv1; rewrite <- Hv1; cbn [rbind value_of];
    [|reflexivity].
  apply generate_embeddings_ok in Hg1 as (_ & Hd1 & _ & _).
  pose proof (generate_embeddings_value seq_len dk k w1) as Hv2.
  rewrite Hd1 in Hv2.
  destruct (MultiHeadedAttention_RPR.generate_relative_positions_embeddings
              seq_len seq_len dk k w1) as [[rv w2]|e] eqn:Hg2;
    cbn [value_of] in Hv2; rewrite <- Hv2; cbn [rbind value_of];
    [|reflexivity].
  destruct (MultiHeadedAttention_RPR._relative_attn_inner q k' rk true)
    as [logits|e]; cbn [rbind value_of]; [|reflexivity].
  rewrite (Dropout_forward_inactive _ _ _ Hdrop).
  destruct (MultiHeadedAttention_RPR._relative_attn_inner _ v rv false)
    as [x|e]; cbn [rbind value_of]; [|reflexivity].
  destruct (merge_heads _ _ _ x) as [x'|e]; cbn [rbind value_of];
    [|reflexivity].
  destruct (rev (MultiHeadedAttention_RPR.linears self)) as [|l ls];
    [reflexivity|].
  destruct (Linear.forward l x') as [out|e]; reflexivity.
Qed.

(** A successful call leaves the module as it is and allocates two
    embedding tables. *)
Lemma RPR_forward_effect (self self' : MultiHeadedAttention_RPR.t T)
    (query key value out : Tensor T) (mask : option (Tensor Z))
    (w w' : World T) :
  MultiHeadedAttention_RPR.forward self query key value mask w
  = Ok ((out, self'), w') ->
  self' = self
  /\ allocated w'
     = allocated w
       ++ [ParamEmbedding
             (Z.to_nat
                (MultiHeadedAttention_RPR.max_relative_position self * 2 + 1))
             (MultiHeadedAttention_RPR.d_k self);
           ParamEmbedding
             (Z.to_nat
                (MultiHeadedAttention_RPR.max_relative_position self * 2 + 1))
             (MultiHeadedAttention_RPR.d_k self)].
Proof.
  unfold MultiHeadedAttention_RPR.forward. intros Hf.
  apply mbind_ok in Hf as (m' & w0 & Hm & Hf).
  apply lift_ok in Hm as [_ ->].
  apply mbind_ok in Hf as (nbatches & w0 & Hn & Hf).
  apply lift_ok in Hn as [_ ->].
  apply mbind_ok in Hf as (seq_len & w0 & Hs & Hf).
  apply lift_ok in Hs as [_ ->].
  apply mbind_ok in Hf as (qkv & w0 & Hq & Hf).
  apply lift_ok in Hq as [_ ->].
  destruct qkv as [|q [|k' [|v [|x qkv]]]]; try discriminate.
  apply mbind_ok in Hf as (rk & w1 & Hg1 & Hf).
  apply generate_embeddings_ok in Hg1 as (_ & _ & _ & Ha1).
  apply mbind_ok in Hf as (rv & w2 & Hg2 & Hf).
  apply generate_embeddings_ok in Hg2 as (_ & _ & _ & Ha2).
  apply mbind_ok in Hf as (logits & w3 & Hl & Hf).
  apply lift_ok in Hl as [_ ->].
  apply mbind_ok in Hf as (weights & w3 & Hd & Hf).
  destruct (Dropout_forward_ok (MultiHeadedAttention_RPR.dropout self)
              (softmax logits) w2) as (d' & w3' & Hd' & _ & Ha3).
  rewrite Hd in Hd'. injection Hd' as <- <-.
  apply mbind_ok in Hf as (x & w4 & Hx & Hf).
  apply lift_ok in Hx as [_ ->].
  apply mbind_ok in Hf as (x' & w4 & Hx' & Hf).
  apply lift_ok in Hx' as [_ ->].
  destruct (rev (MultiHeadedAttention_RPR.linears self)) as [|l ls];
    [discriminate|].
  apply mbind_ok in Hf as (o & w4 & Ho & Hf).
  apply lift_ok in Ho as [_ ->].
  unfold mret in Hf. injection Hf as <- <- <-.
  split; [reflexivity|].
  rewrite Ha3, Ha2, Ha1, <- app_assoc. reflexivity.
Qed.

(** With inactive dropout a successful call consumes exactly the samples
    of its two tables. *)
Lemma RPR_forward_draws (self self' : MultiHeadedAttention_RPR.t T)
    (query key value out : Tensor T) (mask : option (Tensor Z))
    (w w' : World T) :
  dropout_inactive (MultiHeadedAttention_RPR.dropout self) ->
  MultiHeadedAttention_RPR.forward self query key value mask w
  = Ok ((out, self'), w') ->
  draws w' = (fun i => draws w (table_size self + (table_size self + i)))
  /\ coins w' = coins w.
Proof.
  unfold MultiHeadedAttention_RPR.forward, table_size. intros Hdrop Hf.
  apply mbind_ok in Hf as (m' & w0 & Hm & Hf).
  apply lift_ok in Hm as [_ ->].
  apply mbind_ok in Hf as (nbatches & w0 & Hn & Hf).
  apply lift_ok in Hn as [_ ->].
  apply mbind_ok in Hf as (seq_len & w0 & Hs & Hf).
  apply lift_ok in Hs as [_ ->].
  apply mbind_ok in Hf as (qkv & w0 & Hq & Hf).
  apply lift_ok in Hq as [_ ->].
  destruct qkv as [|q [|k' [|v [|x qkv]]]]; try discriminate.
  apply mbind_ok in Hf as (rk & w1 & Hg1 & Hf).
  apply generate_embeddings_ok in Hg1 as (_ & Hd1 & Hc1 & _).
  apply mbind_ok in Hf as (rv & w2 & Hg2 & Hf).
  apply generate_embeddings_ok in Hg2 as (_ & Hd2 & Hc2 & _).
  apply mbind_ok in Hf as (logits & w3 & Hl & Hf).
  apply lift_ok in Hl as [_ ->].
  apply mbind_ok in Hf as (weights & w3 & Hd & Hf).
  rewrite (Dropout_forward_inactive _ _ _ Hdrop) in Hd.
  injection Hd as <- <-.
  apply mbind_ok in Hf as (x & w4 & Hx & Hf).
  apply lift_ok in Hx as [_ ->].
  apply mbind_ok in Hf as (x' & w4 & Hx' & Hf).
  apply lift_ok in Hx' as [_ ->].
  destruct (rev (MultiHeadedAttention_RPR.linears self)) as [|l ls];
    [discriminate|].
  apply mbind_ok in Hf as (o & w4 & Ho & Hf).
  apply lift_ok in Ho as [_ ->].
  unfold mret in Hf. injection Hf as <- <- <-.
  split.
  - rewrite Hd2, Hd1. reflexivity.
  - rewrite Hc2, Hc1. reflexivity.
Qed.

Lemma value_of_ok_inv {A} (r : result (A * World T)) (a : A) :
  value_of r = Ok a -> exists w, r = Ok (a, w).
Proof.
  destruct r as [[a' w]|e]; cbn [value_of]; [|discriminate].
  intros Heq. injection Heq as ->. exists w. reflexivity.
Qed.



(** The mask plays no part in the computation: any two masks that can be
    unsqueezed give the same result. *)
Lemma forward_with_tables_ignores_mask (self : MultiHeadedAttention_RPR.t T)
    (query key value : Tensor T) (mask1 mask2 : option (Tensor Z))
    (keys_table values_table : list T) :
  is_ok (unsqueeze_mask mask1) = true ->
  is_ok (unsqueeze_mask mask2) = true ->
  forward_with_tables self query key value mask1 keys_table values_table
  = forward_with_tables self query key value mask2 keys_table values_table.
Proof.
  unfold forward_with_tables. intros H1 H2.
  destruct (unsqueeze_mask mask1); [|discriminate].
  destruct (unsqueeze_mask mask2); [|discriminate].
  reflexivity.
Qed.
End RPRFacts.

Lemma dropout_zero_inactive : dropout_inactive (Dropout.mk 0%R true).
Proof. left. apply feqb_R_refl. Qed.

Lemma softmax_single (e : R) : (0 < e)%R -> (e / (e + 0))%R = 1%R.
Proof. intros He. field. lra. Qed.

(** C1 (code bug): the claim asks that two forward calls on the same module
    with identical inputs, identical parameters and dropout disabled return
    equal outputs.  [MultiHeadedAttention_RPR.forward] does not: the module
    with one head of width 1, unit projections and clipping bound 1, called
    twice in succession on the input [[[1.0]]] without a mask, returns
    1 + (the fifth sample of the generator) and then 1 + (the eleventh
    sample), because each call draws its two relation tables of three rows
    anew.  Whenever these two samples differ, so do the two outputs. *)
Theorem C1_successive_calls_differ (w : World R) :
  draws w 4 <> draws w 10 ->
  exists out1 out2 w1 w2,
    MultiHeadedAttention_RPR.forward c1_self c1_x c1_x c1_x None w
    = Ok ((out1, c1_self), w1)
    /\ MultiHeadedAttention_RPR.forward c1_self c1_x c1_x c1_x None w1
       = Ok ((out2, c1_self), w2)
    /\ out1 = mkTensor [1; 1; 1] [(1 + draws w 4)%R]
    /\ out2 = mkTensor [1; 1; 1] [(1 + draws w 10)%R]
    /\ out1 <> out2.
Proof.
  destruct w as [dr co al]. cbn [draws]. intros Hne.
  set (w := mkWorld dr co al).
  pose proof (RPR_forward_value c1_self c1_x c1_x c1_x None w
                dropout_zero_inactive) as Hv1.
  eval_rhs Hv1.
  apply value_of_ok_inv in Hv1 as (w1 & Hf1).
  destruct (RPR_forward_draws c1_self c1_self c1_x c1_x c1_x _ None w w1
              dropout_zero_inactive Hf1) as [Hd1 _].
  pose proof (RPR_forward_value c1_self c1_x c1_x c1_x None w1
                dropout_zero_inactive) as Hv2.
  unfold drawn_keys_table, drawn_values_table in Hv2. rewrite Hd1 in Hv2.
  eval_rhs Hv2.
  apply value_of_ok_inv in Hv2 as (w2 & Hf2).
  name_exps. rewrite !softmax_single in Hf1, Hf2 by assumption.
  eexists _, _, w1, w2. split; [exact Hf1|]. split; [exact Hf2|].
  split; [do 2 f_equal; lra|]. split; [do 2 f_equal; lra|].
  intros Heq. injection Heq as Heq. apply Hne. lra.
Qed.

(** The generator whose i-th next sample is i: the two calls return 5 and
    then 11. *)
Lemma C1_successive_calls_differ_witness :
  exists out1 out2 w1 w2,
    MultiHeadedAttention_RPR.forward c1_self c1_x c1_x c1_x None c1_world
    = Ok ((out1, c1_self), w1)
    /\ MultiHeadedAttention_RPR.forward c1_self c1_x c1_x c1_x None w1
       = Ok ((out2, c1_self), w2)
    /\ out1 = mkTensor [1; 1; 1] [(1 + draws c1_world 4)%R]
    /\ out2 = mkTensor [1; 1; 1] [(1 + draws c1_world 10)%R]
    /\ out1 <> out2.
Proof.
  apply (C1_successive_calls_differ c1_world).
  cbn [c1_world draws]. intros Heq. apply INR_eq in Heq. discriminate.
Defined.

(** ** The module's parameters *)

Section RPRInit.
Context {T : Type} `{Numeric T}.

(** The constructor allocates the template projection and its four
    copies, and nothing else. *)
Lemma RPR_init_effect (h d_model : nat) (k : Z) (p : T)
    (w w' : World T) (self : MultiHeadedAttention_RPR.t T) :
  MultiHeadedAttention_RPR.__init__ h d_model k p w = Ok (self, w') ->
  allocated w' = allocated w ++ repeat (ParamLinear d_model d_model) 5
  /\ length (MultiHeadedAttention_RPR.linears self) = 4.
Proof.
  unfold MultiHeadedAttention_RPR.__init__.
  destruct (h =? 0); [discriminate|].
  destruct (negb (d_model mod h =? 0)); [discriminate|].
  intros Hi.
  apply mbind_ok in Hi as (l & w1 & Hl & Hi).
  apply mbind_ok in Hi as (ls & w2 & Hls & Hi).
  apply mbind_ok in Hi as (d & w3 & Hd & Hi).
  apply lift_ok in Hd as [_ ->].
  unfold mret in Hi. injection Hi as <- <-.
  unfold Linear.__init__, mbind, sample, allocate, mret in Hl.
  injection Hl as <- <-.
  cbn in Hls. unfold mbind, allocate, mret in Hls. cbn in Hls.
  injection Hls as <- <-. cbn.
  split; [|reflexivity].
  rewrite <- !app_assoc. reflexivity.
Qed.
End RPRInit.

(** C2 (code bug): the claim asks that the relation-embedding tables are
    created once, with the module, and that a forward call adds none.  The
    code does otherwise.  The constructor allocates only the linear
    projections (the template and its four copies) and no table; every
    successful forward call allocates two new embedding tables of
    (2 * max_relative_position + 1) rows and d_k columns.  The call leaves
    the module itself unchanged, so the new tables are never among its
    parameters. *)
Theorem C2_rpr_tables_are_created_by_forward {T : Type} `{Numeric T}
    (h d_model : nat) (k : Z) (p : T) (w0 w1 w2 : World T)
    (self self' : MultiHeadedAttention_RPR.t T)
    (query key value out : Tensor T) (mask : option (Tensor Z)) :
  MultiHeadedAttention_RPR.__init__ h d_model k p w0 = Ok (self, w1) ->
  MultiHeadedAttention_RPR.forward self query key value mask w1
  = Ok ((out, self'), w2) ->
  allocated w1 = allocated w0 ++ repeat (ParamLinear d_model d_model) 5
  /\ self' = self
  /\ allocated w2
     = allocated w1
       ++ [ParamEmbedding
             (Z.to_nat
                (MultiHeadedAttention_RPR.max_relative_position self * 2 + 1))
             (MultiHeadedAttention_RPR.d_k self);
           ParamEmbedding
             (Z.to_nat
                (MultiHeadedAttention_RPR.max_relative_position self * 2 + 1))
             (MultiHeadedAttention_RPR.d_k self)].
Proof.
  intros Hinit Hfwd.
  destruct (RPR_init_effect h d_model k p w0 w1 self Hinit) as [Ha _].
  destruct (RPR_forward_effect self self' query key value out mask w1 w2 Hfwd)
    as [Hs Hf].
  split; [exact Ha|]. split; [exact Hs | exact Hf].
Qed.

(** C2, the failing call: the module holds no table before the call, and
    the call creates two embedding tables of three rows. *)
Lemma C2_counterexample :
  exists out w1,
    MultiHeadedAttention_RPR.forward c1_self c1_x c1_x c1_x None c1_world
    = Ok ((out, c1_self), w1)
    /\ allocated c1_world = []
    /\ allocated w1 = [ParamEmbedding 3 1; ParamEmbedding 3 1].
Proof.
  pose proof (RPR_forward_value c1_self c1_x c1_x c1_x None c1_world
                dropout_zero_inactive) as Hv1.
  eval_rhs Hv1.
  apply value_of_ok_inv in Hv1 as (w1 & Hf1).
  eexists _, w1. split; [exact Hf1|]. split; [reflexivity|].
  apply (RPR_forward_effect _ _ _ _ _ _ _ _ _ Hf1).
Qed.

(** The constructor and a call on the module it builds. *)
Lemma rpr_init_and_call :
  MultiHeadedAttention_RPR.__init__ 1 1 1%Z 0%R c1_world
  = Ok (c2_self, c2_world)
  /\ exists out w2,
       MultiHeadedAttention_RPR.forward c2_self c1_x c1_x c1_x None c2_world
       = Ok ((out, c2_self), w2).
Proof.
  split.
  - unfold MultiHeadedAttention_RPR.__init__.
    rewrite (Dropout_init_R 0) by lra. reflexivity.
  - pose proof (RPR_forward_value c2_self c1_x c1_x c1_x None c2_world
                  dropout_zero_inactive) as Hv.
    eval_rhs Hv.
    apply value_of_ok_inv in Hv as (w2 & Hf).
    eexists _, w2. exact Hf.
Qed.

Lemma C2_rpr_tables_are_created_by_forward_witness :
  exists out w2,
    MultiHeadedAttention_RPR.__init__ 1 1 1%Z 0%R c1_world
    = Ok (c2_self, c2_world)
    /\ MultiHeadedAttention_RPR.forward c2_self c1_x c1_x c1_x None c2_world
       = Ok ((out, c2_self), w2)
    /\ allocated c2_world
       = allocated c1_world ++ repeat (ParamLinear 1 1) 5
    /\ c2_self = c2_self
    /\ allocated w2
       = allocated c2_world
         ++ [ParamEmbedding
               (Z.to_nat
                  (MultiHeadedAttention_RPR.max_relative_position c2_self * 2
                   + 1))
               (MultiHeadedAttention_RPR.d_k c2_self);
             ParamEmbedding
               (Z.to_nat
                  (MultiHeadedAttention_RPR.max_relative_position c2_self * 2
                   + 1))
               (MultiHeadedAttention_RPR.d_k c2_self)].
Proof.
  destruct rpr_init_and_call as [Hinit (out & w2 & Hfwd)].
  exists out, w2. split; [exact Hinit|]. split; [exact Hfwd|].
  exact (C2_rpr_tables_are_created_by_forward 1 1 1%Z 0%R c1_world c2_world
           w2 c2_self c2_self c1_x c1_x c1_x out None Hinit Hfwd).
Defined.

(** ** Relative-position attention against standard attention *)




(** ** Linear layers *)

Lemma broadcast_rev_nil_r (a : list nat) : broadcast_rev a [] = Some a.
Proof. destruct a; reflexivity. Qed.

Section LinearFacts.
Context {T : Type} `{Numeric T}.

(** [w.T] of a matrix *)
Lemma transpose_matrix (t : Tensor T) (p m : nat) :
  shape t = [p; m] ->
  transpose t 0 1
  = Ok (tabulate [m; p] (fun idx => get t [nth 1 idx 0; nth 0 idx 0])).
Proof.
  intros Ht. unfold transpose, dim. rewrite Ht.
  change (norm_dim (length [p; m]) 0) with (@Ok nat 0).
  change (norm_dim (length [p; m]) 1) with (@Ok nat 1).
  cbn [rbind]. f_equal.
  change (swap_at 0 1 [p; m]) with [m; p].
  apply tabulate_ext. intros idx Hin.
  apply in_bounds_2_inv in Hin as (i & j & -> & _ & _). reflexivity.
Qed.

(** The product of a batch of matrices with one matrix. *)
Lemma matmul_matrix_r (a b : Tensor T) (bs : list nat) (n m p : nat) :
  shape a = bs ++ [n; m] -> shape b = [m; p] ->
  exists r,
    matmul a b = Ok r /\ shape r = bs ++ [n; p] /\ wf r
    /\ forall pre i j, in_bounds bs pre -> i < n -> j < p ->
         get r (pre ++ [i; j])
         = tsum m (fun c => mul (get a (pre ++ [i; c])) (get b [c; j])).
Proof.
  intros Ha Hb.
  rewrite matmul_rank2
    by (rewrite ?Ha, ?Hb, ?length_app; cbn [length]; lia).
  unfold matmul2. rewrite Ha, Hb, !rev_app_distr. cbn [rev app].
  rewrite Nat.eqb_refl, broadcast_rev_nil_r, rev_involutive.
  eexists. split; [reflexivity|]. split; [reflexivity|].
  split; [apply wf_tabulate|].
  intros pre i j Hpre Hi Hj.
  rewrite get_tabulate
    by (apply in_bounds_app; [assumption | apply in_bounds_2; assumption]).
  pose proof (in_bounds_length _ _ Hpre) as Hlen.
  rewrite <- Hlen.
  rewrite firstn_app, firstn_all, Nat.sub_diag. cbn [firstn].
  rewrite app_nil_r.
  rewrite !app_nth2 by lia.
  replace (S (length pre) - length pre) with 1 by lia.
  rewrite Nat.sub_diag. cbn [nth].
  rewrite broadcast_index_id by assumption.
  unfold broadcast_index. cbn [bmask app]. reflexivity.
Qed.

(** [nn.Linear]: y[..., i, j] = sum_c x[..., i, c] * weight[j, c] + bias[j] *)
Lemma Linear_forward_value (l : Linear.t T) (x : Tensor T) (bs : list nat)
    (n m p : nat) :
  linear_dims l m p -> shape x = bs ++ [n; m] ->
  exists r,
    Linear.forward l x = Ok r /\ shape r = bs ++ [n; p] /\ wf r
    /\ forall pre i j, in_bounds bs pre -> i < n -> j < p ->
         get r (pre ++ [i; j])
         = add (tsum m (fun c => mul (get x (pre ++ [i; c]))
                                     (get (Linear.weight l) [j; c])))
               (get (Linear.bias l) [j]).
Proof.
  intros [Hw Hb] Hx. unfold Linear.forward.
  rewrite (transpose_matrix _ p m Hw). cbn [rbind].
  destruct (matmul_matrix_r x
              (tabulate [m; p]
                 (fun idx => get (Linear.weight l) [nth 1 idx 0; nth 0 idx 0]))
              bs n m p Hx eq_refl) as (y & Hy & Hsy & Hwy & Hvy).
  rewrite Hy. cbn [rbind]. unfold tadd.
  assert (Hbr : broadcast_shapes (shape y) (shape (Linear.bias l))
                = Some (bs ++ [n; p])).
  { rewrite Hsy, Hb.
    replace (bs ++ [n; p]) with ((bs ++ [n]) ++ [p])
      by (rewrite <- app_assoc; reflexivity).
    apply broadcast_vector_r. }
  rewrite (tmap2_shape _ _ _ _ Hbr).
  eexists. split; [reflexivity|]. split; [reflexivity|].
  split; [apply wf_tabulate|].
  intros pre i j Hpre Hi Hj.
  rewrite get_tabulate
    by (apply in_bounds_app; [assumption | apply in_bounds_2; assumption]).
  rewrite Hsy, Hb.
  rewrite broadcast_index_id
    by (apply in_bounds_app; [assumption | apply in_bounds_2; assumption]).
  replace (pre ++ [i; j]) with ((pre ++ [i]) ++ [j]) at 2
    by (rewrite <- app_assoc; reflexivity).
  rewrite broadcast_index_vector by assumption.
  rewrite Hvy by assumption.
  f_equal. apply tsum_ext. intros c Hc.
  rewrite get_tabulate by (apply in_bounds_2; assumption).
  reflexivity.
Qed.
End LinearFacts.

(** ** PositionwiseFeedForward *)

Section FeedForwardFacts.
Context {T : Type} `{Numeric T}.

Lemma Linear_init_ok (m p : nat) (w : World T) :
  exists l w1,
    Linear.__init__ m p w = Ok (l, w1)
    /\ linear_dims l m p
    /\ allocated w1 = allocated w ++ [ParamLinear m p]
    /\ coins w1 = coins w.
Proof.
  unfold Linear.__init__, mbind, sample, allocate, mret. cbn.
  eexists. eexists. split; [reflexivity|].
  split; [split; reflexivity|]. split; reflexivity.
Qed.

(** The feed-forward network when its dropout is the identity. *)
Lemma FeedForward_forward_value (self : PositionwiseFeedForward.t T)
    (x : Tensor T) (bs : list nat) (n d_model d_ff : nat) (w : World T) :
  linear_dims (PositionwiseFeedForward.w_1 self) d_model d_ff ->
  linear_dims (PositionwiseFeedForward.w_2 self) d_ff d_model ->
  dropout_inactive (PositionwiseFeedForward.dropout self) ->
  shape x = bs ++ [n; d_model] ->
  exists y,
    PositionwiseFeedForward.forward self x w = Ok (y, w)
    /\ shape y = bs ++ [n; d_model]
    /\ forall pre i j, in_bounds bs pre -> i < n -> j < d_model ->
         get y (pre ++ [i; j])
         = add (tsum d_ff (fun k =>
                  mul (let a :=
                         add (tsum d_model (fun c =>
                                mul (get x (pre ++ [i; c]))
                                    (get (Linear.weight
                                            (PositionwiseFeedForward.w_1 self))
                                         [k; c])))
                             (get (Linear.bias
                                     (PositionwiseFeedForward.w_1 self)) [k])
                       in if fltb a zero then zero else a)
                      (get (Linear.weight (PositionwiseFeedForward.w_2 self))
                           [j; k])))
               (get (Linear.bias (PositionwiseFeedForward.w_2 self)) [j]).
Proof.
  intros H1 H2 Hd Hx. unfold PositionwiseFeedForward.forward.
  destruct (Linear_forward_value _ x bs n d_model d_ff H1 Hx)
    as (a & Ha & Hsa & Hwa & Hva).
  unfold mbind at 1. unfold lift at 1. rewrite Ha.
  unfold mbind at 1. rewrite (Dropout_forward_inactive _ _ _ Hd).
  assert (Hsr : shape (relu a) = bs ++ [n; d_ff]) by exact Hsa.
  destruct (Linear_forward_value _ (relu a) bs n d_ff d_model H2 Hsr)
    as (y & Hy & Hsy & Hwy & Hvy).
  unfold lift. rewrite Hy.
  exists y. split; [reflexivity|]. split; [assumption|].
  intros pre i j Hpre Hi Hj.
  rewrite Hvy by assumption. f_equal.
  apply tsum_ext. intros k Hk. f_equal.
  unfold relu. rewrite get_tmap;
    [| assumption
     | rewrite Hsa; apply in_bounds_app;
       [assumption | apply in_bounds_2; assumption]].
  rewrite Hva by assumption. reflexivity.
Qed.

(** The feed-forward network keeps the shape of its input, whatever its
    dropout does, and allocates nothing. *)
Lemma FeedForward_forward_shape (self : PositionwiseFeedForward.t T)
    (x : Tensor T) (bs : list nat) (n d_model d_ff : nat) (w : World T) :
  linear_dims (PositionwiseFeedForward.w_1 self) d_model d_ff ->
  linear_dims (PositionwiseFeedForward.w_2 self) d_ff d_model ->
  shape x = bs ++ [n; d_model] ->
  exists y w',
    PositionwiseFeedForward.forward self x w = Ok (y, w')
    /\ shape y = bs ++ [n; d_model]
    /\ allocated w' = allocated w.
Proof.
  intros H1 H2 Hx. unfold PositionwiseFeedForward.forward.
  destruct (Linear_forward_value _ x bs n d_model d_ff H1 Hx)
    as (a & Ha & Hsa & Hwa & Hva).
  unfold mbind at 1. unfold lift at 1. rewrite Ha.
  destruct (Dropout_forward_ok (PositionwiseFeedForward.dropout self)
              (relu a) w) as (d & w' & Hdr & Hsd & Hal).
  unfold mbind at 1. rewrite Hdr.
  assert (Hsd' : shape d = bs ++ [n; d_ff]) by (rewrite Hsd; exact Hsa).
  destruct (Linear_forward_value _ d bs n d_ff d_model H2 Hsd')
    as (y & Hy & Hsy & Hwy & Hvy).
  unfold lift. rewrite Hy.
  exists y, w'. split; [reflexivity|]. split; assumption.
Qed.
End FeedForwardFacts.

(** ** Tensors are determined by their entries *)

Lemma unravel_exists (sh : list nat) (k : nat) :
  k < numel sh -> exists idx, in_bounds sh idx /\ ravel sh idx = k.
Proof.
  revert k. induction sh as [|n sh IH]; intros k Hk.
  - exists []. split; [constructor|]. simpl in *. lia.
  - cbn [numel fold_right] in Hk. fold (numel sh) in Hk.
    assert (Hm : numel sh <> 0) by (intros E; rewrite E in Hk; lia).
    destruct (IH (k mod numel sh)) as (idx' & Hin & Hr).
    { apply Nat.mod_upper_bound. assumption. }
    exists (k / numel sh :: idx'). split.
    + constructor; [|assumption].
      apply Nat.Div0.div_lt_upper_bound. lia.
    + cbn [ravel]. rewrite Hr.
      pose proof (Nat.div_mod_eq k (numel sh)). lia.
Qed.

Lemma tensor_ext {A} `{Default A} (a b : Tensor A) :
  wf a -> wf b -> shape a = shape b ->
  (forall idx, in_bounds (shape a) idx -> get a idx = get b idx) ->
  a = b.
Proof.
  destruct a as [sa da], b as [sb db]. unfold wf, get. cbn [shape data].
  intros Ha Hb <- Hv. f_equal.
  apply nth_ext with (d := dflt) (d' := dflt); [congruence|].
  intros k Hk. rewrite Ha in Hk.
  destruct (unravel_exists sa k Hk) as (idx & Hin & <-).
  apply Hv. assumption.
Qed.

Lemma tabulate_get {A} `{Default A} (t : Tensor A) :
  wf t -> tabulate (shape t) (get t) = t.
Proof.
  intros Hw. apply tensor_ext.
  - apply wf_tabulate.
  - assumption.
  - reflexivity.
  - intros idx Hin. apply get_tabulate. exact Hin.
Qed.

(** An in-bounds entry of a well-formed tensor is one of its elements. *)
Lemma get_in_data {A} `{Default A} (t : Tensor A) (idx : list nat) :
  wf t -> in_bounds (shape t) idx -> In (get t idx) (data t).
Proof.
  intros Hw Hin. unfold get. apply nth_In. rewrite Hw.
  apply ravel_lt. assumption.
Qed.

(** ** More about scaled dot-product attention *)

Section AttentionMore.
Context {T : Type} `{Numeric T}.

(** Filling at the zeros of a mask without zeros changes nothing. *)
Lemma masked_fill_no_zero (t : Tensor T) (m : Tensor Z) (v : T) :
  wf t -> wf m ->
  broadcast_shapes (shape t) (shape m) = Some (shape t) ->
  Forall (fun z => z <> 0%Z) (data m) ->
  masked_fill t (eq0 m) v = Ok t.
Proof.
  intros Hwt Hwm Hbr Hnz. unfold masked_fill.
  rewrite (tmap2_shape _ t (eq0 m) _ Hbr). f_equal.
  transitivity (tabulate (shape t) (get t)); [|apply tabulate_get; assumption].
  apply tabulate_ext. intros idx Hin.
  rewrite (broadcast_index_id _ _ Hin).
  pose proof (broadcast_index_in_bounds_r _ _ _ _ Hbr Hin) as Hinm.
  unfold eq0. cbn [shape tmap].
  rewrite get_tmap by assumption.
  pose proof (get_in_data m _ Hwm Hinm) as Hd.
  rewrite Forall_forall in Hnz. specialize (Hnz _ Hd).
  destruct (Z.eqb_spec (get m (broadcast_index (shape m) idx)) 0);
    [contradiction | reflexivity].
Qed.

Lemma attention_no_zero_mask (query key value : Tensor T) (m : Tensor Z)
    (dropout : option (Dropout.t T)) (bs : list nat) (L K dk : nat)
    (w : World T) :
  shape query = bs ++ [L; dk] ->
  shape key = bs ++ [K; dk] ->
  mask_ok (Some m) (bs ++ [L; K]) ->
  Forall (fun z => z <> 0%Z) (data m) ->
  attention query key value (Some m) dropout w
  = attention query key value None dropout w.
Proof.
  intros Hq Hk [Hwm Hbm] Hnz.
  pose proof (transpose_last2 key bs K dk Hk) as Hkt.
  destruct (matmul_value query
              (tabulate (bs ++ [dk; K])
                 (fun idx => get key
                    (swap_at (length bs) (S (length bs)) idx)))
              bs L dk K Hq eq_refl)
    as (qk & Hqk & Hsqk & Hwqk & _).
  unfold attention, mbind, lift.
  rewrite (size_last query bs L dk Hq), Hkt, Hqk.
  rewrite masked_fill_no_zero;
    [reflexivity | apply wf_tmap; assumption | assumption
     | cbn [shape tmap]; rewrite Hsqk; assumption | assumption].
Qed.

(** A query and a key of different widths cannot be multiplied. *)
Lemma attention_width_mismatch (query key value : Tensor T)
    (mask : option (Tensor Z)) (dropout : option (Dropout.t T))
    (bq bk : list nat) (L K dq dk : nat) (w : World T) :
  shape query = bq ++ [L; dq] ->
  shape key = bk ++ [K; dk] ->
  dq <> dk ->
  attention query key value mask dropout w = Raise RuntimeError.
Proof.
  intros Hq Hk Hne.
  pose proof (transpose_last2 key bk K dk Hk) as Hkt.
  unfold attention, mbind, lift.
  rewrite (size_last query bq L dq Hq), Hkt.
  rewrite matmul_rank2
    by (rewrite ?Hq; cbn [shape tabulate]; rewrite length_app;
        cbn [length]; lia).
  unfold matmul2. cbn [shape tabulate].
  rewrite Hq, !rev_app_distr. cbn [rev app].
  destruct (Nat.eqb_spec dq dk); [contradiction | reflexivity].
Qed.
End AttentionMore.

(** ** Weighted sums over the reals *)

Lemma sum_list_weighted_bounds (wt v : nat -> R) (lo hi : R) (l : list nat) :
  (forall j, In j l -> (0 <= wt j)%R /\ (lo <= v j <= hi)%R) ->
  (lo * sum_list (map wt l) <= sum_list (map (fun j => wt j * v j) l)
   <= hi * sum_list (map wt l))%R.
Proof.
  induction l as [|j l IH]; intros Hl; cbn [map].
  - rewrite !sum_list_nil_R. lra.
  - rewrite !sum_list_cons_R.
    destruct (Hl j (or_introl eq_refl)) as [Hw Hv].
    specialize (IH (fun k Hk => Hl k (or_intror Hk))).
    nra.
Qed.

Lemma tsum_weighted_bounds (n : nat) (wt v : nat -> R) (lo hi : R) :
  (forall j, j < n -> (0 <= wt j)%R) ->
  tsum n wt = 1%R ->
  (forall j, j < n -> (lo <= v j <= hi)%R) ->
  (lo <= tsum n (fun j => wt j * v j) <= hi)%R.
Proof.
  intros Hw Hs Hv.
  pose proof (sum_list_weighted_bounds wt v lo hi (seq 0 n)) as Hb.
  unfold tsum in *. rewrite Hs in Hb.
  assert (Hall : forall j, In j (seq 0 n) ->
            (0 <= wt j)%R /\ (lo <= v j <= hi)%R).
  { intros j Hj. apply in_seq in Hj. split; [apply Hw | apply Hv]; lia. }
  specialize (Hb Hall).
  change (sum_list (map (fun j => (wt j * v j)%R) (seq 0 n)))
    with (sum_list (map (fun j => (wt j * v j)%R) (seq 0 n))) in Hb.
  lra.
Qed.

Lemma sum_list_term_le (f : nat -> R) (l : list nat) (j : nat) :
  (forall k, In k l -> (0 <= f k)%R) -> In j l ->
  (f j <= sum_list (map f l))%R.
Proof.
  induction l as [|k l IH]; intros Hl Hj; [contradiction|].
  cbn [map]. rewrite sum_list_cons_R.
  assert (Hs : (0 <= sum_list (map f l))%R).
  { clear IH Hj. induction l as [|k' l IH']; cbn [map].
    - rewrite sum_list_nil_R. lra.
    - rewrite sum_list_cons_R.
      pose proof (Hl k' (or_intror (or_introl eq_refl))).
      assert (0 <= sum_list (map f l))%R.
      { apply IH'. intros k0 [->|Hk0]; apply Hl;
          [left; reflexivity | right; right; assumption]. }
      lra. }
  pose proof (Hl k (or_introl eq_refl)).
  destruct Hj as [->|Hj]; [lra|].
  specialize (IH (fun k0 Hk0 => Hl k0 (or_intror Hk0)) Hj). lra.
Qed.

(** A softmax weight over the reals lies in (0, 1]. *)
Lemma spec_weight_range (mask : option (Tensor Z)) (query key : Tensor R)
    (dk K : nat) (pre : list nat) (i j : nat) :
  j < K ->
  (0 < spec_weight mask query key dk K pre i j <= 1)%R.
Proof.
  intros Hj.
  assert (HK : 0 < K) by lia.
  pose proof (spec_weight_row_sum mask query key dk K pre i HK) as Hsum.
  assert (Hpos : forall k,
            (0 < spec_weight mask query key dk K pre i k)%R).
  { intros k. unfold spec_weight.
    change (0 < exp (spec_masked_score mask query key dk pre i k)
                / tsum K (fun j' =>
                    exp (spec_masked_score mask query key dk pre i j')))%R.
    apply Rdiv_lt_0_compat; [apply exp_pos|].
    apply tsum_exp_pos. assumption. }
  split; [apply Hpos|].
  rewrite <- Hsum. unfold tsum.
  apply (sum_list_term_le
           (fun k => spec_weight mask query key dk K pre i k)).
  - intros k _. apply Rlt_le. apply Hpos.
  - apply in_seq. lia.
Qed.

(** ** Views, transpositions and permutations *)

Lemma numel_app (a b : list nat) : numel (a ++ b) = numel a * numel b.
Proof.
  induction a as [|x a IH]; cbn [app numel fold_right].
  - fold (numel b). lia.
  - fold (numel (a ++ b)). fold (numel a). rewrite IH. lia.
Qed.

Lemma existsb_lt_m1_of_nat (l : list nat) :
  existsb (fun d => (d <? -1)%Z) (map Z.of_nat l) = false.
Proof.
  induction l as [|x l IH]; cbn [map existsb]; [reflexivity|].
  rewrite IH. destruct (Z.ltb_spec (Z.of_nat x) (-1)); [lia | reflexivity].
Qed.

Lemma filter_m1_of_nat (l : list nat) :
  filter (fun d => (d =? -1)%Z) (map Z.of_nat l) = [].
Proof.
  induction l as [|x l IH]; cbn [map filter]; [reflexivity|].
  destruct (Z.eqb_spec (Z.of_nat x) (-1)); [lia | assumption].
Qed.

Lemma filter_not_m1_of_nat (l : list nat) :
  filter (fun d => negb (d =? -1)%Z) (map Z.of_nat l) = map Z.of_nat l.
Proof.
  induction l as [|x l IH]; cbn [map filter]; [reflexivity|].
  destruct (Z.eqb_spec (Z.of_nat x) (-1)); [lia|].
  cbn [negb]. rewrite IH. reflexivity.
Qed.

Lemma map_to_nat_of_nat (l : list nat) : map Z.to_nat (map Z.of_nat l) = l.
Proof.
  induction l as [|x l IH]; cbn [map]; [reflexivity|].
  rewrite IH, Nat2Z.id. reflexivity.
Qed.

Lemma map_infer_of_nat (q : nat) (l : list nat) :
  map (fun d => if (d =? -1)%Z then q else Z.to_nat d) (map Z.of_nat l) = l.
Proof.
  induction l as [|x l IH]; cbn [map]; [reflexivity|].
  destruct (Z.eqb_spec (Z.of_nat x) (-1)); [lia|].
  rewrite IH, Nat2Z.id. reflexivity.
Qed.

(** [t.view(pre..., -1, post...)]: the size of the axis written -1 is
    inferred from the number of elements. *)
Lemma view_infer {A} (t : Tensor A) (pre post : list nat) (q : nat) :
  numel (shape t) = q * (numel pre * numel post) ->
  numel pre * numel post <> 0 ->
  view t (map Z.of_nat pre ++ (-1)%Z :: map Z.of_nat post)
  = Ok (mkTensor (pre ++ q :: post) (data t)).
Proof.
  intros Hn Hk. unfold view.
  rewrite existsb_app. cbn [existsb].
  rewrite !existsb_lt_m1_of_nat. cbn [orb].
  change ((-1 <? -1)%Z) with false. cbn [orb].
  rewrite !filter_app. cbn [filter].
  change ((-1 =? -1)%Z) with true. cbn [negb].
  rewrite !filter_m1_of_nat, !filter_not_m1_of_nat. cbn [app length].
  rewrite map_app, !map_to_nat_of_nat, numel_app.
  destruct (Nat.eqb_spec (numel pre * numel post) 0); [contradiction|].
  rewrite Hn, Nat.Div0.mod_mul. cbn [Nat.eqb].
  rewrite Nat.div_mul by assumption.
  rewrite map_app. cbn [map].
  change ((-1 =? -1)%Z) with true. cbv iota.
  rewrite !map_infer_of_nat. reflexivity.
Qed.

(** With no element to count, the size of the axis written -1 is
    ambiguous and the view is refused. *)
Lemma view_infer_ambiguous {A} (t : Tensor A) (pre post : list nat) :
  numel pre * numel post = 0 ->
  view t (map Z.of_nat pre ++ (-1)%Z :: map Z.of_nat post)
  = Raise RuntimeError.
Proof.
  intros Hk. unfold view.
  rewrite existsb_app. cbn [existsb].
  rewrite !existsb_lt_m1_of_nat. cbn [orb].
  change ((-1 <? -1)%Z) with false. cbn [orb].
  rewrite !filter_app. cbn [filter].
  change ((-1 =? -1)%Z) with true. cbn [negb].
  rewrite !filter_m1_of_nat, !filter_not_m1_of_nat. cbn [app length].
  rewrite map_app, !map_to_nat_of_nat, numel_app, Hk. reflexivity.
Qed.

Lemma in_bounds_4 (a b c d i j k l : nat) :
  i < a -> j < b -> k < c -> l < d -> in_bounds [a; b; c; d] [i; j; k; l].
Proof. intros. repeat constructor; assumption. Qed.

Lemma in_bounds_4_inv (a b c d : nat) (idx : list nat) :
  in_bounds [a; b; c; d] idx ->
  exists i j k l, idx = [i; j; k; l] /\ i < a /\ j < b /\ k < c /\ l < d.
Proof.
  intros Hin.
  apply in_bounds_cons_inv in Hin as (i & r1 & -> & Hi & Hin).
  apply in_bounds_cons_inv in Hin as (j & r2 & -> & Hj & Hin).
  apply in_bounds_cons_inv in Hin as (k & r3 & -> & Hk & Hin).
  apply in_bounds_cons_inv in Hin as (l & r4 & -> & Hl & Hin).
  apply in_bounds_nil_inv in Hin. subst.
  exists i, j, k, l. repeat split; assumption.
Qed.

Section ShapeOps.
Context {A : Type} `{Default A}.

(** [t.transpose(1, 2)] of a tensor of rank 4 *)
Lemma transpose_12 (t : Tensor A) (a b c d : nat) :
  shape t = [a; b; c; d] ->
  transpose t 1 2
  = Ok (tabulate [a; c; b; d] (fun idx =>
          get t [nth 0 idx 0; nth 2 idx 0; nth 1 idx 0; nth 3 idx 0])).
Proof.
  intros Ht. unfold transpose, dim. rewrite Ht.
  change (norm_dim (length [a; b; c; d]) 1) with (@Ok nat 1).
  change (norm_dim (length [a; b; c; d]) 2) with (@Ok nat 2).
  cbn [rbind]. f_equal.
  change (swap_at 1 2 [a; b; c; d]) with [a; c; b; d].
  apply tabulate_ext. intros idx Hin.
  apply in_bounds_4_inv in Hin as (i & j & k & l & -> & _). reflexivity.
Qed.

(** [t.permute(2, 0, 1, 3)] *)
Lemma permute_2013 (t : Tensor A) (a b c d : nat) :
  shape t = [a; b; c; d] ->
  permute t [2; 0; 1; 3]%Z
  = Ok (tabulate [c; a; b; d] (fun idx =>
          get t [nth 1 idx 0; nth 2 idx 0; nth 0 idx 0; nth 3 idx 0])).
Proof.
  intros Ht. unfold permute, dim. rewrite Ht.
  change (norm_dims (length [a; b; c; d]) [2; 0; 1; 3]%Z)
    with (@Ok (list nat) [2; 0; 1; 3]).
  cbn [rbind].
  change (is_permutation [2; 0; 1; 3] (length [a; b; c; d])) with true.
  cbv iota. f_equal.
Qed.

(** [t.permute(1, 2, 0, 3)] *)
Lemma permute_1203 (t : Tensor A) (a b c d : nat) :
  shape t = [a; b; c; d] ->
  permute t [1; 2; 0; 3]%Z
  = Ok (tabulate [b; c; a; d] (fun idx =>
          get t [nth 2 idx 0; nth 0 idx 0; nth 1 idx 0; nth 3 idx 0])).
Proof.
  intros Ht. unfold permute, dim. rewrite Ht.
  change (norm_dims (length [a; b; c; d]) [1; 2; 0; 3]%Z)
    with (@Ok (list nat) [1; 2; 0; 3]).
  cbn [rbind].
  change (is_permutation [1; 2; 0; 3] (length [a; b; c; d])) with true.
  cbv iota. f_equal.
Qed.

(** An entry of a view is the entry of the viewed tensor at the same
    row-major position. *)
Lemma get_view (t : Tensor A) (sh idx idx' : list nat) :
  ravel sh idx = ravel (shape t) idx' ->
  get (mkTensor sh (data t)) idx = get t idx'.
Proof. intros Hr. unfold get. cbn [shape data]. rewrite Hr. reflexivity. Qed.
End ShapeOps.

Lemma broadcast_rev_fits (ra rb : list nat) :
  Forall2 fits rb ra -> broadcast_rev ra rb = Some ra.
Proof.
  intros Hf. induction Hf as [|y x rb ra Hyx Hf IH]; [reflexivity|].
  cbn [broadcast_rev]. rewrite IH.
  destruct (Nat.eqb_spec x y); [reflexivity|].
  destruct (Nat.eqb_spec x 1) as [->|]; [destruct Hyx; congruence|].
  destruct Hyx as [->| ->]; [congruence|]. reflexivity.
Qed.

(** An operand whose sizes fit the sizes of the other operand is broadcast
    to the shape of the other operand. *)
Lemma broadcast_shapes_fits (a b : list nat) :
  Forall2 fits b a -> broadcast_shapes a b = Some a.
Proof.
  intros Hf. unfold broadcast_shapes.
  rewrite broadcast_rev_fits by (apply Forall2_rev_intro; assumption).
  cbn [option_map]. rewrite rev_involutive. reflexivity.
Qed.

(** ** MultiHeadedAttention *)

Section MultiHeadFacts.
Context {T : Type} `{Numeric T}.

(** Splitting the features of a projected batch into heads. *)
Lemma split_heads_shape (l : Linear.t T) (x : Tensor T) (N L E h dk : nat) :
  linear_dims l E E -> shape x = [N; L; E] -> h * dk = E ->
  0 < N -> 0 < E ->
  exists r, split_heads N h dk l x = Ok r /\ shape r = [N; h; L; dk].
Proof.
  intros Hl Hx HE HN HE0. unfold split_heads.
  destruct (Linear_forward_value l x [N] L E E Hl Hx)
    as (y & Hy & Hsy & _ & _).
  rewrite Hy. cbn [rbind].
  change [Z.of_nat N; (-1)%Z; Z.of_nat h; Z.of_nat dk]
    with (map Z.of_nat [N] ++ (-1)%Z :: map Z.of_nat [h; dk]).
  rewrite (view_infer y [N] [h; dk] L).
  - cbn [rbind app].
    rewrite (transpose_12 (mkTensor [N; L; h; dk] (data y)) N L h dk eq_refl).
    eexists. split; reflexivity.
  - rewrite Hsy. cbn [app numel fold_right]. nia.
  - cbn [numel fold_right]. nia.
Qed.

(** An empty batch cannot be split into heads: the view is ambiguous. *)
Lemma split_heads_empty_batch (l : Linear.t T) (x : Tensor T)
    (L E h dk : nat) :
  linear_dims l E E -> shape x = [0; L; E] ->
  split_heads 0 h dk l x = Raise RuntimeError.
Proof.
  intros Hl Hx. unfold split_heads.
  destruct (Linear_forward_value l x [0] L E E Hl Hx)
    as (y & Hy & Hsy & _ & _).
  rewrite Hy. cbn [rbind].
  change [Z.of_nat 0; (-1)%Z; Z.of_nat h; Z.of_nat dk]
    with (map Z.of_nat [0] ++ (-1)%Z :: map Z.of_nat [h; dk]).
  rewrite (view_infer_ambiguous y [0] [h; dk]) by reflexivity.
  reflexivity.
Qed.

(** Concatenating the heads again. *)
Lemma merge_heads_shape (x : Tensor T) (N L h dk : nat) :
  shape x = [N; h; L; dk] -> 0 < N -> 0 < h * dk ->
  exists r, merge_heads N h dk x = Ok r /\ shape r = [N; L; h * dk].
Proof.
  intros Hx HN HE. unfold merge_heads, contiguous.
  rewrite (transpose_12 x N h L dk Hx). cbn [rbind].
  change [Z.of_nat N; (-1)%Z; Z.of_nat (h * dk)]
    with (map Z.of_nat [N] ++ (-1)%Z :: map Z.of_nat [h * dk]).
  rewrite (view_infer _ [N] [h * dk] L).
  - eexists. split; reflexivity.
  - cbn [shape tabulate app numel fold_right]. nia.
  - cbn [numel fold_right]. nia.
Qed.

(** [mask.unsqueeze(1)] of a mask that fits (N, L, K) fits the scores of
    every head. *)
Lemma unsqueeze_mask_ok (mask : option (Tensor Z)) (N h L K : nat) :
  mha_mask_ok mask N L K ->
  exists mask',
    unsqueeze_mask mask = Ok mask' /\ mask_ok mask' ([N; h] ++ [L; K]).
Proof.
  destruct mask as [m|]; [|intros _; exists None; split; [reflexivity | exact I]].
  intros [Hwm Hf]. cbn [unsqueeze_mask].
  inversion Hf as [|n N' r1 r1' Hn Hf1 Hs1]; subst.
  inversion Hf1 as [|a L' r2 r2' Ha Hf2 Hs2]; subst.
  inversion Hf2 as [|s K' r3 r3' Hs Hf3 Hs3]; subst.
  inversion Hf3; subst.
  unfold unsqueeze, dim. rewrite <- Hs1.
  change (norm_dim (S (length [n; a; s])) 1) with (@Ok nat 1).
  cbn [rbind insert_at].
  eexists. split; [reflexivity|].
  split.
  - unfold wf in *. cbn [shape data]. rewrite Hwm, <- Hs1.
    cbn [numel fold_right]. lia.
  - cbn [shape app]. apply broadcast_shapes_fits.
    apply Forall2_cons; [assumption|].
    apply Forall2_cons; [right; reflexivity|].
    apply Forall2_cons; [assumption|].
    apply Forall2_cons; [assumption | constructor].
Qed.

Lemma Dropout_forward_alloc (d : Dropout.t T) (x y : Tensor T)
    (w w' : World T) :
  Dropout.forward d x w = Ok (y, w') -> allocated w' = allocated w.
Proof.
  intros Hd.
  destruct (Dropout_forward_ok d x w) as (y0 & w0 & H0 & _ & Hal).
  rewrite H0 in Hd. injection Hd as <- <-. exact Hal.
Qed.

(** The shapes of a call of [MultiHeadedAttention.forward]. *)
Lemma MHA_forward_shape (self : MultiHeadedAttention.t T)
    (query key value : Tensor T) (mask : option (Tensor Z))
    (N L K E : nat) (w : World T) :
  mha_dims self E -> 0 < N -> 0 < E ->
  shape query = [N; L; E] -> shape key = [N; K; E] ->
  shape value = [N; K; E] ->
  mha_mask_ok mask N L K ->
  exists out p_attn w',
    MultiHeadedAttention.forward self query key value mask w
    = Ok ((out,
           MultiHeadedAttention.mk
             (MultiHeadedAttention.d_k self) (MultiHeadedAttention.h self)
             (MultiHeadedAttention.linears self) (Some p_attn)
             (MultiHeadedAttention.dropout self)), w')
    /\ shape out = [N; L; E]
    /\ shape p_attn = [N; MultiHeadedAttention.h self; L; K]
    /\ allocated w' = allocated w.
Proof.
  intros (Hlen & Hall & Hhd) HN HE Hq Hk Hv Hmask.
  destruct self as [dk h ls at0 dr].
  cbn [MultiHeadedAttention.linears MultiHeadedAttention.h
       MultiHeadedAttention.d_k MultiHeadedAttention.dropout] in *.
  destruct ls as [|l0 [|l1 [|l2 [|l3 [|l4 ls]]]]]; try discriminate.
  inversion Hall as [|? ? H0 Hall1]; subst.
  inversion Hall1 as [|? ? H1 Hall2]; subst.
  inversion Hall2 as [|? ? H2 Hall3]; subst.
  inversion Hall3 as [|? ? H3 _]; subst.
  destruct (unsqueeze_mask_ok mask N h L K Hmask) as (mask' & Hum & Hmok).
  destruct (split_heads_shape l0 query N L (h * dk) h dk H0 Hq eq_refl HN HE)
    as (q' & Hq' & Hsq).
  destruct (split_heads_shape l1 key N K (h * dk) h dk H1 Hk eq_refl HN HE)
    as (k' & Hk' & Hsk).
  destruct (split_heads_shape l2 value N K (h * dk) h dk H2 Hv eq_refl HN HE)
    as (v' & Hv' & Hsv).
  destruct (attention_value q' k' v' mask' (Some dr) [N; h] L K dk dk w
              Hsq Hsk Hsv Hmok)
    as (sw & xo & p_attn & w' & Hatt & _ & _ & _ & Hd & Hsp & Hso & _).
  destruct (merge_heads_shape xo N L h dk Hso HN HE) as (xm & Hxm & Hsxm).
  destruct (Linear_forward_value l3 xm [N] L (h * dk) (h * dk) H3 Hsxm)
    as (out & Hout & Hsout & _ & _).
  exists out, p_attn, w'.
  split.
  - unfold MultiHeadedAttention.forward.
    cbn [MultiHeadedAttention.linears MultiHeadedAttention.h
         MultiHeadedAttention.d_k MultiHeadedAttention.dropout].
    unfold mbind at 1. unfold lift at 1. rewrite Hum.
    unfold mbind at 1. unfold lift at 1.
    unfold size, dim. rewrite Hq.
    change (norm_dim (length [N; L; h * dk]) 0) with (@Ok nat 0).
    cbn [rbind nth].
    unfold mbind at 1. unfold lift at 1.
    cbn [combine map_result fst snd].
    rewrite Hq', Hk', Hv'. cbn [rbind].
    unfold mbind at 1. rewrite Hatt. cbn [fst snd].
    unfold mbind at 1. unfold lift at 1. rewrite Hxm.
    cbn [rev app].
    unfold mbind, lift, mret. rewrite Hout. reflexivity.
  - split; [exact Hsout|]. split; [exact Hsp|].
    apply (Dropout_forward_alloc dr sw p_attn w w' Hd).
Qed.

(** On an empty batch the call fails. *)
Lemma MHA_forward_empty_batch (self : MultiHeadedAttention.t T)
    (query key value : Tensor T) (mask : option (Tensor Z)) (L E : nat)
    (w : World T) :
  mha_dims self E -> shape query = [0; L; E] ->
  is_ok (unsqueeze_mask mask) = true ->
  MultiHeadedAttention.forward self query key value mask w
  = Raise RuntimeError.
Proof.
  intros (Hlen & Hall & Hhd) Hq Hmask.
  destruct self as [dk h ls at0 dr].
  cbn [MultiHeadedAttention.linears MultiHeadedAttention.h
       MultiHeadedAttention.d_k MultiHeadedAttention.dropout] in *.
  destruct ls as [|l0 ls]; [discriminate|].
  inversion Hall as [|? ? H0 _]; subst.
  unfold MultiHeadedAttention.forward.
  cbn [MultiHeadedAttention.linears MultiHeadedAttention.h
       MultiHeadedAttention.d_k MultiHeadedAttention.dropout].
  unfold mbind at 1. unfold lift at 1.
  destruct (unsqueeze_mask mask) as [mask'|e]; [|discriminate].
  unfold mbind at 1. unfold lift at 1.
  unfold size, dim. rewrite Hq.
  change (norm_dim (length [0; L; h * dk]) 0) with (@Ok nat 0).
  cbn [rbind nth].
  unfold mbind at 1. unfold lift at 1.
  cbn [combine map_result fst snd].
  rewrite (split_heads_empty_batch l0 query L (h * dk) h dk H0 Hq).
  reflexivity.
Qed.
End MultiHeadFacts.

(** ** The relative-position products *)

Lemma swap_at_comm (i j : nat) (l : list nat) : swap_at i j l = swap_at j i l.
Proof.
  unfold swap_at. apply map_ext. intros k.
  destruct (Nat.eqb_spec k i), (Nat.eqb_spec k j); subst; reflexivity.
Qed.

Lemma head_index_lt (N h n hd : nat) : n < N -> hd < h -> n * h + hd < N * h.
Proof. intros Hn Hh. nia. Qed.

Section RelativeInner.
Context {T : Type} `{Numeric T}.

(** [t.transpose(-1, -2)] *)
Lemma transpose_last2_rev (t : Tensor T) (bs : list nat) (n m : nat) :
  shape t = bs ++ [n; m] ->
  transpose t (-1) (-2) =
  Ok (tabulate (bs ++ [m; n])
        (fun idx => get t (swap_at (length bs) (S (length bs)) idx))).
Proof.
  intros Ht. rewrite <- (transpose_last2 t bs n m Ht).
  unfold transpose, dim. rewrite Ht, length_app. cbn [length].
  rewrite norm_dim_m2, norm_dim_m1 by lia.
  cbn [rbind]. f_equal.
  rewrite (swap_at_comm (length bs + 2 - 1) (length bs + 2 - 2)).
  apply tabulate_ext. intros idx _.
  rewrite (swap_at_comm (length bs + 2 - 1) (length bs + 2 - 2)).
  reflexivity.
Qed.

(** The second operand of a product, transposed when asked. *)
Lemma maybe_transposed (y : Tensor T) (tr : bool) (bs : list nat)
    (m p : nat) :
  shape y = bs ++ (if tr then [p; m] else [m; p]) ->
  exists y',
    (if tr then transpose y (-1) (-2) else Ok y) = Ok y'
    /\ shape y' = bs ++ [m; p]
    /\ forall pre c j, in_bounds bs pre -> c < m -> j < p ->
         get y' (pre ++ [c; j])
         = get y (pre ++ (if tr then [j; c] else [c; j])).
Proof.
  intros Hy. destruct tr.
  - rewrite (transpose_last2_rev y bs p m Hy).
    eexists. split; [reflexivity|]. split; [reflexivity|].
    intros pre c j Hpre Hc Hj.
    rewrite get_tabulate by (apply in_bounds_last2; assumption).
    rewrite <- (in_bounds_length _ _ Hpre), swap_at_last2. reflexivity.
  - exists y. split; [reflexivity|]. split; [assumption|].
    intros. reflexivity.
Qed.

(** The two products of [_relative_attn_inner] and their sum. *)
Lemma relative_attn_inner_steps (x y z : Tensor T) (tr : bool)
    (N h L m p p' : nat) :
  0 < N -> 0 < h -> 0 < L ->
  shape x = [N; h; L; m] ->
  shape y = (if tr then [N; h; p; m] else [N; h; m; p]) ->
  shape z = (if tr then [L; p'; m] else [L; m; p']) ->
  exists xy xz,
    MultiHeadedAttention_RPR._relative_attn_inner x y z tr = tadd xy xz
    /\ shape xy = [N; h; L; p] /\ shape xz = [N; h; L; p']
    /\ (forall n hd i j, n < N -> hd < h -> i < L -> j < p ->
          get xy [n; hd; i; j]
          = tsum m (fun c =>
              mul (get x [n; hd; i; c])
                  (get y (if tr then [n; hd; j; c] else [n; hd; c; j]))))
    /\ (forall n hd i j, n < N -> hd < h -> i < L -> j < p' ->
          get xz [n; hd; i; j]
          = tsum m (fun c =>
              mul (get x [n; hd; i; c])
                  (get z (if tr then [i; j; c] else [i; c; j])))).
Proof.
  intros HN Hh HL Hx Hy Hz.
  assert (Hy0 : shape y = [N; h] ++ (if tr then [p; m] else [m; p]))
    by (rewrite Hy; destruct tr; reflexivity).
  assert (Hz0 : shape z = [L] ++ (if tr then [p'; m] else [m; p']))
    by (rewrite Hz; destruct tr; reflexivity).
  destruct (maybe_transposed y tr [N; h] m p Hy0) as (y' & Hy' & Hsy' & Hvy').
  destruct (maybe_transposed z tr [L] m p' Hz0) as (z' & Hz' & Hsz' & Hvz').
  destruct (matmul_value x y' [N; h] L m p Hx Hsy')
    as (xy & Hxy & Hsxy & Hwxy & Hvxy).
  pose proof (permute_2013 x N h L m Hx) as Hxp.
  set (xp := tabulate [L; N; h; m] (fun idx =>
               get x [nth 1 idx 0; nth 2 idx 0; nth 0 idx 0; nth 3 idx 0]))
    in Hxp.
  assert (Hview1 : view (contiguous xp)
                     [Z.of_nat L; Z.of_nat (N * h); (-1)%Z]
                   = Ok (mkTensor [L; N * h; m] (data xp))).
  { change [Z.of_nat L; Z.of_nat (N * h); (-1)%Z]
      with (map Z.of_nat [L; N * h] ++ (-1)%Z :: map Z.of_nat []).
    unfold contiguous.
    rewrite (view_infer xp [L; N * h] [] m); [reflexivity | |].
    - cbn [xp shape tabulate numel fold_right]. ring.
    - cbn [numel fold_right]. nia. }
  destruct (matmul_value (mkTensor [L; N * h; m] (data xp)) z' [L]
              (N * h) m p' eq_refl Hsz')
    as (xz & Hxz & Hsxz & Hwxz & Hvxz).
  assert (Hview2 : view xz [Z.of_nat L; Z.of_nat N; Z.of_nat h; (-1)%Z]
                   = Ok (mkTensor [L; N; h; p'] (data xz))).
  { change [Z.of_nat L; Z.of_nat N; Z.of_nat h; (-1)%Z]
      with (map Z.of_nat [L; N; h] ++ (-1)%Z :: map Z.of_nat []).
    rewrite (view_infer xz [L; N; h] [] p'); [reflexivity | |].
    - rewrite Hsxz. cbn [app numel fold_right]. ring.
    - cbn [numel fold_right]. nia. }
  pose proof (permute_1203 (mkTensor [L; N; h; p'] (data xz)) L N h p'
                eq_refl) as Hperm.
  eexists. eexists. split.
  { unfold MultiHeadedAttention_RPR._relative_attn_inner.
    unfold size, dim. rewrite Hx.
    change (norm_dim (length [N; h; L; m]) 0) with (@Ok nat 0).
    change (norm_dim (length [N; h; L; m]) 1) with (@Ok nat 1).
    change (norm_dim (length [N; h; L; m]) 2) with (@Ok nat 2).
    cbn [rbind nth].
    rewrite Hy'. cbn [rbind]. rewrite Hxy. cbn [rbind].
    rewrite Hxp. cbn [rbind]. rewrite Hview1. cbn [rbind].
    rewrite Hz'. cbn [rbind]. rewrite Hxz. cbn [rbind].
    rewrite Hview2. cbn [rbind]. rewrite Hperm. cbn [rbind].
    reflexivity. }
  split; [exact Hsxy|]. split; [reflexivity|].
  split.
  - intros n hd i j Hn Hhd Hi Hj.
    change [n; hd; i; j] with ([n; hd] ++ [i; j]).
    rewrite Hvxy by (try assumption; apply in_bounds_2; assumption).
    apply tsum_ext. intros c Hc. f_equal.
    rewrite Hvy' by (try assumption; apply in_bounds_2; assumption).
    destruct tr; reflexivity.
  - intros n hd i j Hn Hhd Hi Hj.
    rewrite get_tabulate by (apply in_bounds_4; assumption). cbn [nth].
    pose proof (head_index_lt N h n hd Hn Hhd) as Hq.
    rewrite (get_view xz [L; N; h; p'] [i; n; hd; j] [i; n * h + hd; j])
      by (rewrite Hsxz; cbn [app ravel numel fold_right]; ring).
    change [i; n * h + hd; j] with ([i] ++ [n * h + hd; j]).
    rewrite Hvxz
      by (first [assumption | constructor; [assumption | constructor]]).
    apply tsum_ext. intros c Hc. f_equal.
    + cbn [app].
      rewrite (get_view xp [L; N * h; m] [i; n * h + hd; c] [i; n; hd; c])
        by (cbn [xp shape tabulate ravel numel fold_right]; ring).
      unfold xp. rewrite get_tabulate by (apply in_bounds_4; assumption).
      reflexivity.
    + rewrite Hvz'
        by (first [assumption | constructor; [assumption | constructor]]).
      destruct tr; reflexivity.
Qed.

(** What [_relative_attn_inner] computes: the entry (n, hd, i, j) of the
    result is sum_c x[n, hd, i, c] * y'[n, hd, c, j]
    + sum_c x[n, hd, i, c] * z'[i, c, j], where y' and z' are y and z
    with their last two axes exchanged when [transpose] is set. *)
Lemma relative_attn_inner_value (x y z : Tensor T) (tr : bool)
    (N h L m p : nat) :
  0 < N -> 0 < h -> 0 < L ->
  shape x = [N; h; L; m] ->
  shape y = (if tr then [N; h; p; m] else [N; h; m; p]) ->
  shape z = (if tr then [L; p; m] else [L; m; p]) ->
  exists r,
    MultiHeadedAttention_RPR._relative_attn_inner x y z tr = Ok r
    /\ shape r = [N; h; L; p] /\ wf r
    /\ forall n hd i j, n < N -> hd < h -> i < L -> j < p ->
         get r [n; hd; i; j]
         = add (tsum m (fun c =>
                  mul (get x [n; hd; i; c])
                      (get y (if tr then [n; hd; j; c] else [n; hd; c; j]))))
               (tsum m (fun c =>
                  mul (get x [n; hd; i; c])
                      (get z (if tr then [i; j; c] else [i; c; j])))).
Proof.
  intros HN Hh HL Hx Hy Hz.
  destruct (relative_attn_inner_steps x y z tr N h L m p p
              HN Hh HL Hx Hy Hz)
    as (xy & xz & Hr & Hsxy & Hsxz & Hvxy & Hvxz).
  assert (Hbr : broadcast_shapes (shape xy) (shape xz)
                = Some [N; h; L; p])
    by (rewrite Hsxy, Hsxz; apply broadcast_shapes_refl).
  rewrite Hr. unfold tadd. rewrite (tmap2_shape _ _ _ _ Hbr).
  eexists. split; [reflexivity|]. split; [reflexivity|].
  split; [apply wf_tabulate|].
  intros n hd i j Hn Hhd Hi Hj.
  pose proof (in_bounds_4 N h L p n hd i j Hn Hhd Hi Hj) as Hin.
  rewrite get_tabulate by assumption.
  rewrite Hsxy, Hsxz, !(broadcast_index_id _ _ Hin).
  rewrite Hvxy, Hvxz by assumption. reflexivity.
Qed.

(** The relation tensor has one row of offsets per query position: with
    keys of another length the two products cannot be added. *)
Lemma relative_attn_inner_length_mismatch (x y z : Tensor T)
    (N h L K m : nat) :
  0 < N -> 0 < h -> 0 < L ->
  shape x = [N; h; L; m] -> shape y = [N; h; K; m] ->
  shape z = [L; L; m] ->
  K <> L -> K <> 1 -> L <> 1 ->
  MultiHeadedAttention_RPR._relative_attn_inner x y z true
  = Raise RuntimeError.
Proof.
  intros HN Hh HL Hx Hy Hz HKL HK1 HL1.
  destruct (relative_attn_inner_steps x y z true N h L m K L
              HN Hh HL Hx Hy Hz)
    as (xy & xz & Hr & Hsxy & Hsxz & _ & _).
  rewrite Hr. unfold tadd, tmap2. rewrite Hsxy, Hsxz.
  unfold broadcast_shapes. cbn [rev app broadcast_rev].
  destruct (Nat.eqb_spec K L); [contradiction|].
  destruct (Nat.eqb_spec K 1); [contradiction|].
  destruct (Nat.eqb_spec L 1); [contradiction|].
  rewrite !Nat.eqb_refl. reflexivity.
Qed.
End RelativeInner.

(** ** Embedding lookups *)

Section EmbeddingFacts.
Context {T : Type} `{Numeric T}.

Lemma Embedding_forward_value (e : Embedding.t T) (idx : Tensor Z)
    (n d : nat) :
  shape (Embedding.weight e) = [n; d] ->
  Forall (fun i => (0 <= i < Z.of_nat n)%Z) (data idx) ->
  exists r,
    Embedding.forward e idx = Ok r
    /\ shape r = shape idx ++ [d] /\ wf r
    /\ forall ix c, in_bounds (shape idx) ix -> c < d ->
         get r (ix ++ [c])
         = get (Embedding.weight e) [Z.to_nat (get idx ix); c].
Proof.
  intros Hw Hall. unfold Embedding.forward. rewrite Hw. cbn [nth].
  assert (Hfa : forallb (fun i => (0 <=? i)%Z && (i <? Z.of_nat n)%Z)
                  (data idx) = true).
  { apply forallb_forall. intros i Hi.
    rewrite Forall_forall in Hall. specialize (Hall i Hi).
    apply andb_true_intro. split; [apply Z.leb_le | apply Z.ltb_lt]; lia. }
  rewrite Hfa.
  eexists. split; [reflexivity|]. split; [reflexivity|].
  split; [apply wf_tabulate|].
  intros ix c Hix Hc.
  rewrite get_tabulate by (apply in_bounds_snoc; assumption).
  rewrite removelast_last, last_last. reflexivity.
Qed.

Lemma Embedding_forward_out_of_range (e : Embedding.t T) (idx : Tensor Z)
    (n d : nat) (i : Z) :
  shape (Embedding.weight e) = [n; d] ->
  In i (data idx) -> (i < 0 \/ Z.of_nat n <= i)%Z ->
  Embedding.forward e idx = Raise IndexError.
Proof.
  intros Hw Hi Hout. unfold Embedding.forward. rewrite Hw. cbn [nth].
  destruct (forallb _ (data idx)) eqn:Hfa; [|reflexivity].
  rewrite forallb_forall in Hfa. specialize (Hfa i Hi).
  apply andb_prop in Hfa as [H1 H2].
  apply Z.leb_le in H1. apply Z.ltb_lt in H2. lia.
Qed.

(** A row of a freshly drawn table. *)
Lemma get_drawn_table (n d row c : nat) (f : nat -> T) :
  row < n -> c < d ->
  get (mkTensor [n; d] (map f (seq 0 (n * d)))) [row; c] = f (row * d + c).
Proof.
  intros Hr Hc. unfold get. cbn [shape data ravel numel fold_right].
  replace (row * (d * 1) + (c * 1 + 0)) with (row * d + c) by lia.
  assert (Hlt : row * d + c < n * d) by nia.
  rewrite (nth_indep _ dflt (f 0))
    by (rewrite length_map, length_seq; assumption).
  rewrite (map_nth f), seq_nth by assumption. reflexivity.
Qed.

Lemma Embedding_init_succeeds (n d : nat) (w : World T) :
  Embedding.__init__ (Z.of_nat n) d w
  = Ok (Embedding.mk (mkTensor [n; d] (map (draws w) (seq 0 (n * d)))),
        mkWorld (fun i => draws w (n * d + i)) (coins w)
                (allocated w ++ [ParamEmbedding n d])).
Proof.
  unfold Embedding.__init__.
  destruct (Z.ltb_spec (Z.of_nat n) 0) as [Hn|Hn]; [lia|].
  unfold mbind, sample, allocate, mret. cbn.
  rewrite Nat2Z.id. reflexivity.
Qed.

Lemma Embedding_init_negative (n : Z) (d : nat) (w : World T) :
  (- 2 ^ 63 <= n < 0)%Z -> Embedding.__init__ n d w = Raise RuntimeError.
Proof.
  intros Hn. unfold Embedding.__init__.
  destruct (Z.ltb_spec n 0) as [_|Hge]; [reflexivity | lia].
Qed.
End EmbeddingFacts.

(** ** The relation embeddings *)

Lemma tabulate_data_forall {A} (P : A -> Prop) (sh : list nat)
    (f : list nat -> A) :
  (forall idx, in_bounds sh idx -> P (f idx)) ->
  Forall P (data (tabulate sh f)).
Proof.
  intros HP. cbn [data tabulate]. apply Forall_forall. intros x Hx.
  apply in_map_iff in Hx as (idx & <- & Hidx).
  apply HP. apply in_indices. assumption.
Qed.

Lemma spec_clip_range (x k : Z) :
  (0 <= k)%Z -> (0 <= spec_clip x (- k) k + k <= 2 * k)%Z.
Proof.
  intros Hk. unfold spec_clip.
  destruct (Z.ltb_spec x (- k)); [lia|].
  destruct (Z.ltb_spec k x); lia.
Qed.

Section RelationEmbeddings.
Context {T : Type} `{Numeric T}.

(** The relation embeddings of a call: the entry (i, j) is the row
    clip(j - i, -k, k) + k of a table that the call draws from the
    generator. *)
Lemma generate_embeddings_spec (len depth : nat) (k : Z) (w : World T) :
  (0 <= k < 2 ^ 62)%Z -> (Z.of_nat len <= 2 ^ 62)%Z ->
  exists r w1,
    MultiHeadedAttention_RPR.generate_relative_positions_embeddings
      len len depth k w = Ok (r, w1)
    /\ shape r = [len; len; depth]
    /\ (forall i j c, i < len -> j < len -> c < depth ->
          get r [i; j; c]
          = draws w (Z.to_nat (spec_clip (Z.of_nat j - Z.of_nat i) (- k) k + k)
                     * depth + c))
    /\ draws w1 = (fun i => draws w (Z.to_nat (k * 2 + 1) * depth + i))
    /\ coins w1 = coins w
    /\ allocated w1
       = allocated w ++ [ParamEmbedding (Z.to_nat (k * 2 + 1)) depth].
Proof.
  intros Hk Hlen.
  unfold MultiHeadedAttention_RPR.generate_relative_positions_embeddings.
  rewrite (relative_positions_matrix_value len k Hk Hlen).
  unfold mbind at 1. unfold lift at 1.
  replace (k * 2 + 1)%Z with (Z.of_nat (Z.to_nat (k * 2 + 1)))
    by (rewrite Z2Nat.id; lia).
  unfold mbind. rewrite Embedding_init_succeeds.
  set (n := Z.to_nat (k * 2 + 1)).
  set (mat := tabulate [len; len] _).
  destruct (Embedding_forward_value
              (Embedding.mk (mkTensor [n; depth]
                               (map (draws w) (seq 0 (n * depth)))))
              mat n depth eq_refl)
    as (r & Hr & Hsr & _ & Hvr).
  { apply tabulate_data_forall. intros idx _.
    pose proof (spec_clip_range
                  (Z.of_nat (nth 1 idx 0) - Z.of_nat (nth 0 idx 0)) k
                  ltac:(lia)).
    unfold n. rewrite Z2Nat.id by lia. lia. }
  unfold lift. rewrite Hr.
  eexists. eexists. split; [reflexivity|].
  split; [exact Hsr|]. cbn [draws coins allocated].
  rewrite Nat2Z.id.
  split; [|repeat split].
  intros i j c Hi Hj Hc.
  change [i; j; c] with ([i; j] ++ [c]).
  rewrite Hvr by (try assumption; apply in_bounds_2; assumption).
  cbn [Embedding.weight].
  unfold mat. rewrite get_tabulate by (apply in_bounds_2; assumption).
  cbn [nth].
  pose proof (spec_clip_range (Z.of_nat j - Z.of_nat i) k ltac:(lia)).
  apply get_drawn_table; [|assumption].
  unfold n. apply Nat2Z.inj_lt. rewrite !Z2Nat.id by lia. lia.
Qed.
End RelationEmbeddings.

(** ** MultiHeadedAttention_RPR.forward *)

Section RPRForward.
Context {T : Type} `{Numeric T}.

(** The shapes and the allocations of a call on a self-attention input. *)
Lemma RPR_forward_shape (self : MultiHeadedAttention_RPR.t T)
    (query key value : Tensor T) (mask : option (Tensor Z))
    (N L E : nat) (w : World T) :
  rpr_dims self E -> 0 < N -> 0 < L -> 0 < E ->
  (0 <= MultiHeadedAttention_RPR.max_relative_position self < 2 ^ 62)%Z ->
  (Z.of_nat L <= 2 ^ 62)%Z ->
  shape query = [N; L; E] -> shape key = [N; L; E] ->
  shape value = [N; L; E] ->
  is_ok (unsqueeze_mask mask) = true ->
  exists out w',
    MultiHeadedAttention_RPR.forward self query key value mask w
    = Ok ((out, self), w')
    /\ shape out = [N; L; E]
    /\ allocated w'
       = allocated w
         ++ [ParamEmbedding
               (Z.to_nat
                  (MultiHeadedAttention_RPR.max_relative_position self * 2 + 1))
               (MultiHeadedAttention_RPR.d_k self);
             ParamEmbedding
               (Z.to_nat
                  (MultiHeadedAttention_RPR.max_relative_position self * 2 + 1))
               (MultiHeadedAttention_RPR.d_k self)].
Proof.
  intros (Hlen & Hall & Hhd) HN HL HE Hk HLb Hq Hke Hv Hmask.
  destruct self as [dk h ls dr k].
  cbn [MultiHeadedAttention_RPR.linears MultiHeadedAttention_RPR.h
       MultiHeadedAttention_RPR.d_k MultiHeadedAttention_RPR.dropout
       MultiHeadedAttention_RPR.max_relative_position] in *.
  destruct ls as [|l0 [|l1 [|l2 [|l3 [|l4 ls]]]]]; try discriminate.
  inversion Hall as [|? ? H0 Hall1]; subst.
  inversion Hall1 as [|? ? H1 Hall2]; subst.
  inversion Hall2 as [|? ? H2 Hall3]; subst.
  inversion Hall3 as [|? ? H3 _]; subst.
  assert (Hh : 0 < h) by nia.
  destruct (unsqueeze_mask mask) as [mask'|e] eqn:Hum; [|discriminate].
  destruct (split_heads_shape l0 query N L (h * dk) h dk H0 Hq eq_refl HN HE)
    as (q' & Hq' & Hsq).
  destruct (split_heads_shape l1 key N L (h * dk) h dk H1 Hke eq_refl HN HE)
    as (k' & Hk' & Hsk).
  destruct (split_heads_shape l2 value N L (h * dk) h dk H2 Hv eq_refl HN HE)
    as (v' & Hv' & Hsv).
  destruct (generate_embeddings_spec L dk k w Hk HLb)
    as (rk & w1 & Hrk & Hsrk & _ & _ & _ & Ha1).
  destruct (generate_embeddings_spec L dk k w1 Hk HLb)
    as (rv & w2 & Hrv & Hsrv & _ & _ & _ & Ha2).
  destruct (relative_attn_inner_value q' k' rk true N h L dk L
              HN Hh HL Hsq Hsk Hsrk)
    as (logits & Hlg & Hslg & _ & _).
  destruct (Dropout_forward_ok dr (softmax logits) w2)
    as (wts & w3 & Hdr & Hswt & Ha3).
  assert (Hswt' : shape wts = [N; h; L; L]) by (rewrite Hswt; exact Hslg).
  destruct (relative_attn_inner_value wts v' rv false N h L L dk
              HN Hh HL Hswt' Hsv Hsrv)
    as (xo & Hxo & Hsxo & _ & _).
  destruct (merge_heads_shape xo N L h dk Hsxo HN HE) as (xm & Hxm & Hsxm).
  destruct (Linear_forward_value l3 xm [N] L (h * dk) (h * dk) H3 Hsxm)
    as (out & Hout & Hsout & _ & _).
  exists out, w3. split.
  - unfold MultiHeadedAttention_RPR.forward.
    cbn [MultiHeadedAttention_RPR.linears MultiHeadedAttention_RPR.h
         MultiHeadedAttention_RPR.d_k MultiHeadedAttention_RPR.dropout
         MultiHeadedAttention_RPR.max_relative_position].
    unfold mbind at 1. unfold lift at 1. rewrite Hum.
    unfold mbind at 1. unfold lift at 1.
    unfold size, dim. rewrite Hq.
    change (norm_dim (length [N; L; h * dk]) 0) with (@Ok nat 0).
    change (norm_dim (length [N; L; h * dk]) 1) with (@Ok nat 1).
    cbn [rbind nth].
    unfold mbind at 1. unfold lift at 1.
    unfold mbind at 1. unfold lift at 1.
    cbn [combine map_result fst snd].
    rewrite Hq', Hk', Hv'. cbn [rbind].
    unfold mbind at 1. rewrite Hrk.
    unfold mbind at 1. rewrite Hrv.
    unfold mbind at 1. unfold lift at 1. rewrite Hlg.
    unfold mbind at 1. rewrite Hdr.
    unfold mbind at 1. unfold lift at 1. rewrite Hxo.
    unfold mbind at 1. unfold lift at 1. rewrite Hxm.
    cbn [rev app].
    unfold mbind, lift, mret. rewrite Hout. reflexivity.
  - split; [exact Hsout|].
    rewrite Ha3, Ha2, Ha1, <- app_assoc. reflexivity.
Qed.
End RPRForward.

(** ** More about PositionalEncoding *)

Lemma range_len_odd_0 (m : nat) : range_len 0 (2 * m + 1) 2 = m + 1.
Proof.
  unfold range_len. symmetry.
  apply (Nat.div_unique _ 2 (m + 1) 0); lia.
Qed.

Lemma range_len_odd_1 (m : nat) : range_len 1 (2 * m + 1) 2 = m.
Proof.
  unfold range_len. symmetry.
  apply (Nat.div_unique _ 2 m 1); lia.
Qed.

(** Assigning a source with the wrong number of columns (and more than
    one) to a column slice is refused. *)
Lemma setitem_cols_mismatch {A} `{Default A} (t src : Tensor A)
    (rows cols start step c : nat) :
  shape t = [rows; cols] -> shape src = [rows; c] ->
  c <> range_len start cols step -> c <> 1 ->
  setitem_cols t start step src = Raise RuntimeError.
Proof.
  intros Ht Hs Hc Hc1. unfold setitem_cols. rewrite Ht, Hs.
  unfold broadcast_shapes. cbn [rev app broadcast_rev].
  rewrite Nat.eqb_refl.
  destruct (Nat.eqb_spec c (range_len start cols step)); [contradiction|].
  destruct (Nat.eqb_spec c 1); [contradiction|].
  destruct (Nat.eqb_spec (range_len start cols step) 1); [|reflexivity].
  cbn [option_map rev app].
  destruct (list_eq_dec Nat.eq_dec _ _) as [Heq|_]; [|reflexivity].
  injection Heq as Heq. contradiction.
Qed.

Section PositionalEncodingMore.
Context {T : Type} `{Numeric T}.

(** An odd model dimension of at least 3: the cos values fill one column
    more than the odd columns of the table. *)
Lemma PositionalEncoding_init_odd (m max_len : nat) (p : T)
    (d : Dropout.t T) :
  Dropout.__init__ p = Ok d ->
  PositionalEncoding.__init__ (2 * (m + 1) + 1) p max_len
  = Raise RuntimeError.
Proof.
  intros Hd. unfold PositionalEncoding.__init__.
  rewrite Hd. cbn [rbind].
  change (unsqueeze (farange max_len) 1)
    with (Ok (mkTensor [max_len; 1] (map (@of_nat T _) (seq 0 max_len)))).
  cbn [rbind]. unfold PositionalEncoding.log_ratio.
  destruct (Nat.eqb_spec (2 * (m + 1) + 1) 0) as [|HD]; [lia|].
  cbn [rbind].
  set (r := div (flog (of_Z 10000)) (of_nat (2 * (m + 1) + 1))).
  set (div_term := tmap fexp (tmap (fun a => mul a (neg r))
                                   (farange_step (2 * (m + 1) + 1) 2))).
  set (position := mkTensor [max_len; 1]
                     (map (@of_nat T _) (seq 0 max_len))).
  assert (Hbr : broadcast_shapes (shape position) (shape div_term)
                = Some [max_len; m + 2]).
  { cbn [shape position div_term tmap farange_step].
    rewrite range_len_odd_0.
    replace (m + 1 + 1) with (m + 2) by lia.
    apply broadcast_col_vector. }
  unfold tmul. rewrite (tmap2_shape _ _ _ _ Hbr). cbn [rbind].
  set (pd := tabulate [max_len; m + 2] _).
  rewrite (setitem_cols_value _ _ max_len (2 * (m + 1) + 1) 0 2);
    [ | lia | reflexivity
      | cbn [shape tmap pd tabulate]; rewrite range_len_odd_0;
        f_equal; f_equal; lia ].
  cbn [rbind].
  rewrite (setitem_cols_mismatch _ _ max_len (2 * (m + 1) + 1) 1 2 (m + 2));
    [reflexivity | reflexivity | reflexivity
     | rewrite range_len_odd_1; lia | lia].
Qed.

(** A model dimension of 0: the ratio log(1e4) / d_model divides by
    zero. *)
Lemma PositionalEncoding_init_zero (max_len : nat) (p : T)
    (d : Dropout.t T) :
  Dropout.__init__ p = Ok d ->
  PositionalEncoding.__init__ 0 p max_len = Raise ZeroDivisionError.
Proof.
  intros Hd. unfold PositionalEncoding.__init__.
  rewrite Hd. reflexivity.
Qed.

(** An invalid dropout probability is refused first. *)
Lemma PositionalEncoding_init_bad_dropout (d_model max_len : nat) (p : T) :
  fltb p zero || fltb one p = true ->
  PositionalEncoding.__init__ d_model p max_len = Raise ValueError.
Proof.
  intros Hp. unfold PositionalEncoding.__init__, Dropout.__init__.
  rewrite Hp. reflexivity.
Qed.

(** A sequence longer than the table: the table cannot be broadcast to
    the input. *)
Lemma PositionalEncoding_forward_too_long (self : PositionalEncoding.t T)
    (x : Tensor T) (B L D max_len : nat) (w : World T) :
  shape (PositionalEncoding.pe self) = [1; max_len; D] ->
  shape x = [B; L; D] -> 1 < max_len -> max_len < L ->
  PositionalEncoding.forward self x w = Raise RuntimeError.
Proof.
  intros Hpe Hx H1 HL. unfold PositionalEncoding.forward.
  unfold mbind at 1. unfold lift at 1.
  unfold size, dim. rewrite Hx.
  change (norm_dim (length [B; L; D]) 1) with (Ok (A:=nat) 1).
  cbn [rbind nth].
  unfold mbind at 1. unfold lift at 1.
  unfold slice_dim1. rewrite Hpe.
  rewrite Nat.min_l by lia.
  unfold mbind at 1. unfold lift at 1.
  unfold tadd, tmap2. rewrite Hx. cbn [shape tabulate].
  unfold broadcast_shapes. cbn [rev app broadcast_rev].
  destruct (Nat.eqb_spec L max_len); [lia|].
  destruct (Nat.eqb_spec L 1); [lia|].
  destruct (Nat.eqb_spec max_len 1); [lia|].
  destruct (B =? 1); reflexivity.
Qed.
End PositionalEncodingMore.

(** Every entry of the table is a sine or a cosine. *)
Lemma PositionalEncoding_table_bounded (m max_len : nat) (p : R) :
  0 < m -> (0 <= p <= 1)%R ->
  exists self,
    PositionalEncoding.__init__ (2 * m) p max_len = Ok self
    /\ forall pos j, pos < max_len -> j < 2 * m ->
         (-1 <= get (PositionalEncoding.pe self) [0%nat; pos; j] <= 1)%R.
Proof.
  intros Hm Hp.
  destruct (PositionalEncoding_init_entries m max_len p Hm Hp)
    as (self & Hinit & _ & _ & Hv).
  exists self. split; [exact Hinit|].
  intros pos j Hpos Hj.
  destruct (Nat.Even_or_Odd j) as [[i ->]|[i ->]].
  - destruct (Hv pos i Hpos ltac:(lia)) as [-> _].
    unfold spec_pe_sin. apply SIN_bound.
  - destruct (Hv pos i Hpos ltac:(lia)) as [_ ->].
    unfold spec_pe_cos. apply COS_bound.
Qed.

(** ** More about LayerNorm *)

Lemma broadcast_vector_mismatch (pre : list nat) (F F' : nat) :
  F <> F' -> F <> 1 -> F' <> 1 ->
  broadcast_shapes [F] (pre ++ [F']) = None.
Proof.
  intros Hne H1 H1'. unfold broadcast_shapes.
  rewrite rev_app_distr. cbn [rev app broadcast_rev].
  destruct (Nat.eqb_spec F F'); [contradiction|].
  destruct (Nat.eqb_spec F 1); [contradiction|].
  destruct (Nat.eqb_spec F' 1); [contradiction|].
  reflexivity.
Qed.

Section LayerNormMore.
Context {T : Type} `{Numeric T}.

(** The scale vector cannot be broadcast to an input of another width. *)
Lemma LayerNorm_forward_mismatch (self : LayerNorm.t T) (x : Tensor T)
    (pre : list nat) (F F' : nat) :
  shape x = pre ++ [F'] ->
  shape (LayerNorm.weight self) = [F] ->
  F <> F' -> F <> 1 -> F' <> 1 ->
  LayerNorm.forward self x = Raise RuntimeError.
Proof.
  intros Hx Hw Hne H1 H1'. unfold LayerNorm.forward.
  unfold tsub.
  rewrite (tmap2_shape _ _ _ (pre ++ [F']))
    by (unfold mean_last; simpl shape; rewrite Hx, keepdim_shape_snoc;
        apply broadcast_keepdim).
  cbn [rbind]. unfold tmul, tmap2. cbn [shape tabulate].
  rewrite Hw, broadcast_vector_mismatch by assumption.
  reflexivity.
Qed.

Lemma row_of_tmap (f : T -> T) (x : Tensor T) (pre p : list nat)
    (F j : nat) :
  wf x -> shape x = pre ++ [F] -> in_bounds pre p ->
  row_of (tmap f x) (p ++ [j]) = map f (row_of x (p ++ [j])).
Proof.
  intros Hwf Hx Hp. unfold row_of. cbn [shape tmap].
  rewrite Hx, last_size_snoc, map_map.
  apply map_ext_in. intros c Hc. apply in_seq in Hc.
  rewrite !row_get_snoc.
  apply get_tmap; [assumption|].
  rewrite Hx. apply in_bounds_snoc; [assumption | lia].
Qed.

Lemma length_row_of (x : Tensor T) (pre : list nat) (F : nat)
    (idx : list nat) :
  shape x = pre ++ [F] -> length (row_of x idx) = F.
Proof.
  intros Hx. unfold row_of.
  rewrite length_map, length_seq, Hx, last_size_snoc. reflexivity.
Qed.
End LayerNormMore.

(** *** Over the reals *)

Lemma sum_list_affine (a b : R) (l : list R) :
  sum_list (map (fun v => a * v + b)%R l)
  = (a * sum_list l + INR (length l) * b)%R.
Proof.
  induction l as [|x l IH]; cbn [map length].
  - rewrite !sum_list_nil_R. simpl. ring.
  - rewrite !sum_list_cons_R, IH, S_INR. ring.
Qed.

Lemma spec_mean_R (row : list R) :
  spec_mean row = (sum_list row / INR (length row))%R.
Proof. unfold spec_mean. rewrite of_nat_INR. reflexivity. Qed.

Lemma spec_mean_shift (row : list R) (c : R) :
  row <> [] ->
  spec_mean (map (fun v => v + c)%R row) = (spec_mean row + c)%R.
Proof.
  intros Hne. rewrite !spec_mean_R, length_map.
  rewrite (map_ext (fun v => (v + c)%R) (fun v => (1 * v + c)%R))
    by (intros; ring).
  rewrite sum_list_affine.
  assert (INR (length row) <> 0%R).
  { apply not_0_INR. destruct row; [contradiction | discriminate]. }
  field. assumption.
Qed.

Lemma spec_std_shift (k : nat) (row : list R) (c : R) :
  row <> [] ->
  spec_std k (map (fun v => v + c)%R row) = spec_std k row.
Proof.
  intros Hne. unfold spec_std.
  rewrite (spec_mean_shift row c Hne), length_map, map_map.
  f_equal. f_equal. f_equal. apply map_ext. intros v.
  change (mul (sub (v + c) (spec_mean row + c))
              (sub (v + c) (spec_mean row + c)))%R
    with ((v + c - (spec_mean row + c)) * (v + c - (spec_mean row + c)))%R.
  change (mul (sub v (spec_mean row)) (sub v (spec_mean row)))
    with ((v - spec_mean row) * (v - spec_mean row))%R.
  ring.
Qed.

Lemma spec_layer_norm_shift (k : nat) (w b eps v c : R) (row : list R) :
  row <> [] ->
  spec_layer_norm k w b eps (v + c)%R (map (fun u => u + c)%R row)
  = spec_layer_norm k w b eps v row.
Proof.
  intros Hne. unfold spec_layer_norm.
  rewrite (spec_mean_shift row c Hne), (spec_std_shift k row c Hne).
  f_equal. f_equal. f_equal.
  change (sub (v + c) (spec_mean row + c))%R
    with (v + c - (spec_mean row + c))%R.
  change (sub v (spec_mean row)) with (v - spec_mean row)%R.
  ring.
Qed.

(** Adding a constant to every entry does not change the output. *)
Lemma LayerNorm_forward_shift (self : LayerNorm.t R) (x : Tensor R)
    (pre : list nat) (F : nat) (c : R) :
  wf x -> shape x = pre ++ [F] -> layer_norm_dims self F ->
  LayerNorm.forward self (tmap (fun v => v + c)%R x)
  = LayerNorm.forward self x.
Proof.
  intros Hwf Hx [Hw Hb].
  rewrite (LayerNorm_forward_value self (tmap (fun v => (v + c)%R) x) pre F
             Hx Hw Hb).
  rewrite (LayerNorm_forward_value self x pre F Hx Hw Hb).
  f_equal. apply tabulate_ext. intros idx Hin.
  pose proof Hin as Hin0.
  apply in_bounds_snoc_inv in Hin as (p & j & -> & Hp & Hj).
  rewrite (row_of_tmap _ x pre p F j Hwf Hx Hp).
  rewrite get_tmap by (try assumption; rewrite Hx; assumption).
  apply spec_layer_norm_shift.
  intros Hnil. apply (f_equal (@length R)) in Hnil.
  rewrite (length_row_of x pre F _ Hx) in Hnil. cbn in Hnil. lia.
Qed.

Lemma sum_list_centered (row : list R) (q : R) :
  row <> [] ->
  sum_list (map (fun v => (1 * (v - spec_mean row)) * q + 0)%R row) = 0%R.
Proof.
  intros Hne.
  rewrite (map_ext _ (fun v => (q * v + - (spec_mean row * q))%R))
    by (intros; ring).
  rewrite sum_list_affine, spec_mean_R.
  assert (INR (length row) <> 0%R).
  { apply not_0_INR. destruct row; [contradiction | discriminate]. }
  field. assumption.
Qed.

(** With the scale 1 and the shift 0 of the constructor, every normalised
    row sums to 0. *)
Lemma LayerNorm_rows_centered (x : Tensor R) (pre : list nat) (F : nat)
    (eps : R) (w : World R) :
  shape x = pre ++ [F] -> 0 < F ->
  exists self w' y,
    LayerNorm.__init__ F eps w = Ok (self, w')
    /\ LayerNorm.forward self x = Ok y
    /\ shape y = shape x
    /\ forall p, in_bounds pre p ->
         tsum F (fun j => get y (p ++ [j])) = 0%R.
Proof.
  intros Hx HF.
  exists (LayerNorm.mk (ones [F]) (zeros [F]) eps).
  eexists. eexists.
  split; [reflexivity|].
  split;
    [apply (LayerNorm_forward_value (LayerNorm.mk (ones [F]) (zeros [F]) eps)
              x pre F Hx eq_refl eq_refl)|].
  split; [symmetry; exact Hx|].
  intros p Hp.
  set (row := row_of x (p ++ [0])).
  assert (Hrow : row <> []).
  { intros Hnil. apply (f_equal (@length R)) in Hnil. unfold row in Hnil.
    rewrite (length_row_of x pre F _ Hx) in Hnil. cbn in Hnil. lia. }
  assert (Hy : forall j, j < F ->
            get (tabulate (pre ++ [F]) (fun idx =>
                   spec_layer_norm 1
                     (get (ones (T := R) [F]) [last idx 0%nat])
                     (get (zeros (T := R) [F]) [last idx 0%nat])
                     eps (get x idx) (row_of x idx))) (p ++ [j])
            = (1 * (row_get x (p ++ [0%nat]) j - spec_mean row)
               * / (spec_std 1 row + eps) + 0)%R).
  { intros j Hj.
    rewrite get_tabulate by (apply in_bounds_snoc; [assumption | lia]).
    rewrite last_last. unfold ones, zeros.
    rewrite !get_tabulate by (constructor; [lia | constructor]).
    rewrite (row_of_snoc x p j 0). fold row.
    rewrite row_get_snoc. reflexivity. }
  assert (Hrowdef : row = map (row_get x (p ++ [0])) (seq 0 F)).
  { unfold row, row_of. rewrite Hx, last_size_snoc. reflexivity. }
  rewrite <- (sum_list_centered row (/ (spec_std 1 row + eps)) Hrow).
  unfold tsum.
  transitivity
    (sum_list
       (map (fun v => (1 * (v - spec_mean row) * / (spec_std 1 row + eps)
                       + 0)%R)
            (map (row_get x (p ++ [0])) (seq 0 F))));
    [|rewrite <- Hrowdef; reflexivity].
  rewrite map_map.
  f_equal. apply map_ext_in. intros j Hj. apply in_seq in Hj.
  apply Hy. lia.
Qed.

(** ** Encoder and decoder layers *)

Section LayerFacts.
Context {T : Type} `{Numeric T}.

Lemma tadd_same_shape (a b : Tensor T) :
  shape b = shape a ->
  tadd a b
  = Ok (tabulate (shape a) (fun idx => add (get a idx) (get b idx))).
Proof.
  intros Hs. unfold tadd.
  rewrite (tmap2_shape _ _ _ (shape a))
    by (rewrite Hs; apply broadcast_shapes_refl).
  f_equal. apply tabulate_ext. intros idx Hin.
  rewrite Hs, !broadcast_index_id by assumption. reflexivity.
Qed.

Lemma LayerNorm_forward_shape (self : LayerNorm.t T) (x : Tensor T)
    (pre : list nat) (F : nat) :
  layer_norm_dims self F -> shape x = pre ++ [F] ->
  exists n, LayerNorm.forward self x = Ok n /\ shape n = pre ++ [F].
Proof.
  intros [Hw Hb] Hx.
  rewrite (LayerNorm_forward_value self x pre F Hx Hw Hb).
  eexists. split; reflexivity.
Qed.

(** A residual connection around a sublayer that returns a tensor of the
    shape of the input. *)
Lemma SublayerConnection_forward_shape (s : SublayerConnection.t T)
    (x n y : Tensor T) (sublayer : Tensor T -> M T (Tensor T))
    (w w1 : World T) :
  LayerNorm.forward (SublayerConnection.norm s) x = Ok n ->
  sublayer n w = Ok (y, w1) -> shape y = shape x ->
  exists r w2,
    SublayerConnection.forward s x sublayer w = Ok (r, w2)
    /\ shape r = shape x /\ allocated w2 = allocated w1.
Proof.
  intros Hn Hy Hsy.
  destruct (Dropout_forward_ok (SublayerConnection.dropout s) y w1)
    as (d & w2 & Hd & Hsd & Hal).
  rewrite (SublayerConnection_forward_steps s x sublayer w w1 w2 n y d
             Hn Hy Hd).
  rewrite tadd_same_shape by congruence.
  eexists. eexists. split; [reflexivity|]. split; [reflexivity | exact Hal].
Qed.

(** The same when the dropout of the connection is the identity: the
    result is the sum of the input and of the output of the sublayer. *)
Lemma SublayerConnection_forward_plain (s : SublayerConnection.t T)
    (x n y : Tensor T) (sublayer : Tensor T -> M T (Tensor T))
    (w w1 : World T) :
  dropout_inactive (SublayerConnection.dropout s) ->
  LayerNorm.forward (SublayerConnection.norm s) x = Ok n ->
  sublayer n w = Ok (y, w1) -> shape y = shape x ->
  SublayerConnection.forward s x sublayer w
  = Ok (tabulate (shape x) (fun idx => add (get x idx) (get y idx)), w1).
Proof.
  intros Hd Hn Hy Hsy.
  rewrite (SublayerConnection_forward_steps s x sublayer w w1 w1 n y y
             Hn Hy (Dropout_forward_inactive _ y w1 Hd)).
  rewrite tadd_same_shape by assumption. reflexivity.
Qed.

Lemma EncoderLayer_forward_steps (self : EncoderLayer.t T)
    (x x1 : Tensor T) (mask : option (Tensor Z))
    (s0 s1 : SublayerConnection.t T) (w w1 : World T) :
  EncoderLayer.sublayer self = [s0; s1] ->
  SublayerConnection.forward s0 x
    (fun n => EncoderLayer.self_attn self n n n mask) w = Ok (x1, w1) ->
  EncoderLayer.forward self x mask w
  = SublayerConnection.forward s1 x1 (EncoderLayer.feed_forward self) w1.
Proof.
  intros Hs H0. unfold EncoderLayer.forward. rewrite Hs.
  unfold getitem. cbn [nth_error].
  unfold mbind at 1. unfold lift at 1.
  unfold mbind at 1. rewrite H0.
  unfold mbind at 1. unfold lift at 1. reflexivity.
Qed.

Lemma DecoderLayer_forward_steps (self : DecoderLayer.t T)
    (x memory x1 x2 : Tensor T) (src_mask tgt_mask : option (Tensor Z))
    (s0 s1 s2 : SublayerConnection.t T) (w w1 w2 : World T) :
  DecoderLayer.sublyer self = [s0; s1; s2] ->
  SublayerConnection.forward s0 x
    (fun n => DecoderLayer.self_attn self n n n tgt_mask) w = Ok (x1, w1) ->
  SublayerConnection.forward s1 x1
    (fun n => DecoderLayer.src_attn self n memory memory src_mask) w1
    = Ok (x2, w2) ->
  DecoderLayer.forward self x memory src_mask tgt_mask w
  = SublayerConnection.forward s2 x2 (DecoderLayer.feed_forward self) w2.
Proof.
  intros Hs H0 H1. unfold DecoderLayer.forward. rewrite Hs.
  unfold getitem. cbn [nth_error]. cbv zeta.
  unfold mbind at 1. unfold lift at 1.
  unfold mbind at 1. rewrite H0.
  unfold mbind at 1. unfold lift at 1.
  unfold mbind at 1. rewrite H1.
  unfold mbind at 1. unfold lift at 1. reflexivity.
Qed.

(** The call of a MultiHeadedAttention module returns a tensor of the
    shape of the query. *)
Lemma MultiHeadedAttention_call_shape (self : MultiHeadedAttention.t T)
    (query key value : Tensor T) (mask : option (Tensor Z))
    (N L K E : nat) (w : World T) :
  mha_dims self E -> 0 < N -> 0 < E ->
  shape query = [N; L; E] -> shape key = [N; K; E] ->
  shape value = [N; K; E] ->
  mha_mask_ok mask N L K ->
  exists out w',
    MultiHeadedAttention_call self query key value mask w = Ok (out, w')
    /\ shape out = [N; L; E] /\ allocated w' = allocated w.
Proof.
  intros Hd HN HE Hq Hk Hv Hm.
  destruct (MHA_forward_shape self query key value mask N L K E w
              Hd HN HE Hq Hk Hv Hm)
    as (out & p & w' & Hf & Hso & _ & Hal).
  exists out, w'. split; [|split; assumption].
  unfold MultiHeadedAttention_call, mbind, mret. rewrite Hf. reflexivity.
Qed.
End LayerFacts.

(** ** Constructors and failing calls of the attention modules *)

Lemma relative_positions_matrix_ok (L : nat) (k : Z) :
  (- 2 ^ 63 < k < 2 ^ 63)%Z ->
  exists m, MultiHeadedAttention_RPR._generate_relative_positions_matrix L L k
            = Ok m.
Proof.
  intros Hk.
  unfold MultiHeadedAttention_RPR._generate_relative_positions_matrix.
  rewrite Nat.eqb_refl. simpl negb. cbv iota.
  unfold unsqueeze, arange, dim. simpl shape. simpl length.
  change (norm_dim 2 0) with (Ok (A:=nat) 0).
  change (norm_dim 2 (-1)) with (Ok (A:=nat) 1).
  simpl rbind. unfold isub.
  rewrite (tmap2_shape _ _ _ [L; L]) by apply broadcast_row_col.
  simpl rbind. unfold clamp, iadd_scalar.
  rewrite !fits64_true by lia.
  simpl rbind. eexists. reflexivity.
Qed.

Lemma relative_positions_matrix_assert (d_q d_k : nat) (k : Z) :
  d_k <> d_q ->
  MultiHeadedAttention_RPR._generate_relative_positions_matrix d_q d_k k
  = Raise AssertionError.
Proof.
  intros Hne.
  unfold MultiHeadedAttention_RPR._generate_relative_positions_matrix.
  destruct (Nat.eqb_spec d_k d_q); [contradiction | reflexivity].
Qed.

Section AttentionModules.
Context {T : Type} `{Numeric T}.

Lemma clones_spec (l : Linear.t T) (n : nat) (w : World T) :
  exists w', utils.clones l n w = Ok (repeat l n, w').
Proof.
  revert w. induction n as [|n IH]; intros w.
  - eexists. reflexivity.
  - cbn [utils.clones repeat].
    unfold mbind at 1. unfold allocate at 1.
    destruct (IH (mkWorld (draws w) (coins w)
                    (allocated w
                     ++ [ParamLinear
                           (nth 1 (shape (Linear.weight l)) 0)
                           (nth 0 (shape (Linear.weight l)) 0)])))
      as (w' & Hw').
    unfold mbind. rewrite Hw'. eexists. reflexivity.
Qed.

(** The constructor of MultiHeadedAttention. *)
Lemma MHA_init_spec (h d_model : nat) (p : T) (w : World T) :
  (h = 0 ->
   MultiHeadedAttention.__init__ h d_model p w = Raise ZeroDivisionError)
  /\ (h <> 0 -> d_model mod h <> 0 ->
      MultiHeadedAttention.__init__ h d_model p w = Raise AssertionError)
  /\ (h <> 0 -> d_model mod h = 0 ->
      forall d, Dropout.__init__ p = Ok d ->
      exists self w',
        MultiHeadedAttention.__init__ h d_model p w = Ok (self, w')
        /\ mha_dims self d_model
        /\ MultiHeadedAttention.h self = h
        /\ MultiHeadedAttention.attn self = None
        /\ MultiHeadedAttention.dropout self = d).
Proof.
  unfold MultiHeadedAttention.__init__.
  split; [intros ->; reflexivity|].
  split.
  - intros Hh Hm.
    destruct (Nat.eqb_spec h 0); [contradiction|].
    destruct (Nat.eqb_spec (d_model mod h) 0); [contradiction|].
    reflexivity.
  - intros Hh Hm d Hd.
    destruct (Nat.eqb_spec h 0); [contradiction|].
    rewrite Hm. cbn [Nat.eqb negb].
    destruct (Linear_init_ok d_model d_model w)
      as (l & w1 & Hl & Hdims & _ & _).
    unfold mbind at 1. rewrite Hl.
    destruct (clones_spec l 4 w1) as (w2 & Hc).
    unfold mbind at 1. rewrite Hc.
    unfold mbind, lift, mret. rewrite Hd.
    eexists. eexists. split; [reflexivity|].
    cbn [MultiHeadedAttention.h MultiHeadedAttention.attn
         MultiHeadedAttention.dropout].
    split; [|repeat split].
    unfold mha_dims.
    cbn [MultiHeadedAttention.linears MultiHeadedAttention.h
         MultiHeadedAttention.d_k repeat length].
    split; [reflexivity|]. split.
    + repeat (apply Forall_cons; [assumption|]). apply Forall_nil.
    + pose proof (Nat.div_mod_eq d_model h). nia.
Qed.

(** The relative-position module never reads its mask. *)
Lemma RPR_forward_mask_unused (self : MultiHeadedAttention_RPR.t T)
    (query key value : Tensor T) (mask1 mask2 : option (Tensor Z))
    (w : World T) :
  is_ok (unsqueeze_mask mask1) = true ->
  is_ok (unsqueeze_mask mask2) = true ->
  MultiHeadedAttention_RPR.forward self query key value mask1 w
  = MultiHeadedAttention_RPR.forward self query key value mask2 w.
Proof.
  intros H1 H2. unfold MultiHeadedAttention_RPR.forward.
  unfold mbind at 1. unfold lift at 1.
  unfold mbind at 12. unfold lift at 12.
  destruct (unsqueeze_mask mask1); [|discriminate].
  destruct (unsqueeze_mask mask2); [|discriminate].
  reflexivity.
Qed.

(** A negative clipping bound: no embedding table can be created. *)
Lemma generate_embeddings_negative (len depth : nat) (k : Z) (w : World T) :
  (- 2 ^ 62 <= k < 0)%Z ->
  MultiHeadedAttention_RPR.generate_relative_positions_embeddings
    len len depth k w = Raise RuntimeError.
Proof.
  intros Hk.
  unfold MultiHeadedAttention_RPR.generate_relative_positions_embeddings.
  unfold mbind at 1. unfold lift at 1.
  destruct (relative_positions_matrix_ok len k ltac:(lia)) as [m ->].
  unfold mbind. rewrite Embedding_init_negative by lia. reflexivity.
Qed.

Lemma RPR_forward_prefix (self : MultiHeadedAttention_RPR.t T)
    (query key value : Tensor T) (mask : option (Tensor Z))
    (N L K E : nat) (w : World T) :
  rpr_dims self E -> 0 < N -> 0 < E ->
  shape query = [N; L; E] -> shape key = [N; K; E] ->
  shape value = [N; K; E] ->
  is_ok (unsqueeze_mask mask) = true ->
  exists q' k' v' l3,
    shape q' = [N; MultiHeadedAttention_RPR.h self; L;
                MultiHeadedAttention_RPR.d_k self]
    /\ shape k' = [N; MultiHeadedAttention_RPR.h self; K;
                   MultiHeadedAttention_RPR.d_k self]
    /\ shape v' = [N; MultiHeadedAttention_RPR.h self; K;
                   MultiHeadedAttention_RPR.d_k self]
    /\ 0 < MultiHeadedAttention_RPR.h self
    /\ MultiHeadedAttention_RPR.forward self query key value mask w
       = (relation_keys <~
            MultiHeadedAttention_RPR.generate_relative_positions_embeddings
              L L (MultiHeadedAttention_RPR.d_k self)
              (MultiHeadedAttention_RPR.max_relative_position self) ;;
          relation_values <~
            MultiHeadedAttention_RPR.generate_relative_positions_embeddings
              L L (MultiHeadedAttention_RPR.d_k self)
              (MultiHeadedAttention_RPR.max_relative_position self) ;;
          logits <~ lift (MultiHeadedAttention_RPR._relative_attn_inner
                            q' k' relation_keys true) ;;
          weights <~ Dropout.forward (MultiHeadedAttention_RPR.dropout self)
                       (softmax logits) ;;
          x <~ lift (MultiHeadedAttention_RPR._relative_attn_inner
                       weights v' relation_values false) ;;
          x <~ lift (merge_heads N (MultiHeadedAttention_RPR.h self)
                       (MultiHeadedAttention_RPR.d_k self) x) ;;
          out <~ lift (Linear.forward l3 x) ;;
          mret (out, self)) w.
Proof.
  intros (Hlen & Hall & Hhd) HN HE Hq Hke Hv Hmask.
  destruct self as [dk h ls dr k].
  cbn [MultiHeadedAttention_RPR.linears MultiHeadedAttention_RPR.h
       MultiHeadedAttention_RPR.d_k MultiHeadedAttention_RPR.dropout
       MultiHeadedAttention_RPR.max_relative_position] in *.
  destruct ls as [|l0 [|l1 [|l2 [|l3 [|l4 ls]]]]]; try discriminate.
  inversion Hall as [|? ? H0 Hall1]; subst.
  inversion Hall1 as [|? ? H1 Hall2]; subst.
  inversion Hall2 as [|? ? H2 Hall3]; subst.
  assert (Hh : 0 < h) by nia.
  destruct (unsqueeze_mask mask) as [mask'|e] eqn:Hum; [|discriminate].
  destruct (split_heads_shape l0 query N L (h * dk) h dk H0 Hq eq_refl HN HE)
    as (q' & Hq' & Hsq).
  destruct (split_heads_shape l1 key N K (h * dk) h dk H1 Hke eq_refl HN HE)
    as (k' & Hk' & Hsk).
  destruct (split_heads_shape l2 value N K (h * dk) h dk H2 Hv eq_refl HN HE)
    as (v' & Hv' & Hsv).
  exists q', k', v', l3.
  split; [exact Hsq|]. split; [exact Hsk|]. split; [exact Hsv|].
  split; [exact Hh|].
  unfold MultiHeadedAttention_RPR.forward.
  cbn [MultiHeadedAttention_RPR.linears MultiHeadedAttention_RPR.h
       MultiHeadedAttention_RPR.d_k MultiHeadedAttention_RPR.dropout
       MultiHeadedAttention_RPR.max_relative_position].
  unfold mbind at 1. unfold lift at 1. rewrite Hum.
  unfold mbind at 1. unfold lift at 1.
  unfold size, dim. rewrite Hq.
  change (norm_dim (length [N; L; h * dk]) 0) with (@Ok nat 0).
  change (norm_dim (length [N; L; h * dk]) 1) with (@Ok nat 1).
  cbn [rbind nth].
  unfold mbind at 1. unfold lift at 1.
  unfold mbind at 1. unfold lift at 1.
  cbn [combine map_result fst snd].
  rewrite Hq', Hk', Hv'. cbn [rbind rev app].
  reflexivity.
Qed.

(** With a negative clipping bound (within the range of int64) every
    well-shaped call fails. *)
Lemma RPR_forward_negative_bound (self : MultiHeadedAttention_RPR.t T)
    (query key value : Tensor T) (mask : option (Tensor Z))
    (N L K E : nat) (w : World T) :
  rpr_dims self E -> 0 < N -> 0 < E ->
  shape query = [N; L; E] -> shape key = [N; K; E] ->
  shape value = [N; K; E] ->
  is_ok (unsqueeze_mask mask) = true ->
  (- 2 ^ 62 <= MultiHeadedAttention_RPR.max_relative_position self < 0)%Z ->
  MultiHeadedAttention_RPR.forward self query key value mask w
  = Raise RuntimeError.
Proof.
  intros Hd HN HE Hq Hk Hv Hm Hneg.
  destruct (RPR_forward_prefix self query key value mask N L K E w
              Hd HN HE Hq Hk Hv Hm)
    as (q' & k' & v' & l3 & _ & _ & _ & _ & ->).
  unfold mbind at 1.
  rewrite generate_embeddings_negative by assumption. reflexivity.
Qed.

(** Keys of another length than the queries: the call fails. *)
Lemma RPR_forward_length_mismatch (self : MultiHeadedAttention_RPR.t T)
    (query key value : Tensor T) (mask : option (Tensor Z))
    (N L K E : nat) (w : World T) :
  rpr_dims self E -> 0 < N -> 0 < E ->
  (0 <= MultiHeadedAttention_RPR.max_relative_position self < 2 ^ 62)%Z ->
  (Z.of_nat L <= 2 ^ 62)%Z ->
  shape query = [N; L; E] -> shape key = [N; K; E] ->
  shape value = [N; K; E] ->
  is_ok (unsqueeze_mask mask) = true ->
  1 < L -> K <> L -> K <> 1 ->
  MultiHeadedAttention_RPR.forward self query key value mask w
  = Raise RuntimeError.
Proof.
  intros Hd HN HE Hkr HLb Hq Hk Hv Hm HL HKL HK1.
  destruct (RPR_forward_prefix self query key value mask N L K E w
              Hd HN HE Hq Hk Hv Hm)
    as (q' & k' & v' & l3 & Hsq & Hsk & _ & Hh & ->).
  destruct (generate_embeddings_spec L (MultiHeadedAttention_RPR.d_k self)
              _ w Hkr HLb)
    as (rk & w1 & Hrk & Hsrk & _ & _ & _ & _).
  destruct (generate_embeddings_spec L (MultiHeadedAttention_RPR.d_k self)
              _ w1 Hkr HLb)
    as (rv & w2 & Hrv & _).
  unfold mbind at 1. rewrite Hrk.
  unfold mbind at 1. rewrite Hrv.
  unfold mbind at 1. unfold lift at 1.
  rewrite (relative_attn_inner_length_mismatch q' k' rk N _ L K _
             HN Hh ltac:(lia) Hsq Hsk Hsrk HKL HK1 ltac:(lia)).
  reflexivity.
Qed.
End AttentionModules.

(** ** Zero relation tables *)










(** * Further properties of the layers *)

(** ** LayerNorm *)

(** X1 (LayerNorm.forward): over the reals, for at least two features and
    a positive eps (so that no division by zero occurs), adding one
    constant to every entry of the input does not change the output: the
    mean moves with the input and the deviations from it stay the same. *)
Theorem LayerNorm_shift_invariant (self : LayerNorm.t R) (x : Tensor R)
    (pre : list nat) (F : nat) (c : R) :
  wf x -> shape x = pre ++ [F] -> layer_norm_dims self F ->
  2 <= F -> (0 < LayerNorm.eps self)%R ->
  (exists y, LayerNorm.forward self x = Ok y /\ shape y = shape x)
  /\ LayerNorm.forward self (tmap (fun v => v + c)%R x)
     = LayerNorm.forward self x.
Proof.
  intros Hwf Hx Hd _ _. split.
  - destruct (LayerNorm_forward_shape self x pre F Hd Hx) as (y & Hy & Hsy).
    exists y. split; [assumption | congruence].
  - apply (LayerNorm_forward_shift self x pre F c Hwf Hx Hd).
Qed.

Lemma LayerNorm_shift_invariant_witness :
  (exists y, LayerNorm.forward (LayerNorm.mk (ones [2]) (zeros [2]) 1%R) c7_x
             = Ok y
             /\ shape y = shape c7_x)
  /\ LayerNorm.forward (LayerNorm.mk (ones [2]) (zeros [2]) 1%R)
       (tmap (fun v => v + 1)%R c7_x)
     = LayerNorm.forward (LayerNorm.mk (ones [2]) (zeros [2]) 1%R) c7_x.
Proof.
  apply (LayerNorm_shift_invariant (LayerNorm.mk (ones [2]) (zeros [2]) 1%R)
           c7_x [2] 2 1%R).
  - reflexivity.
  - reflexivity.
  - split; reflexivity.
  - lia.
  - cbn. lra.
Defined.

(** X2 (LayerNorm.__init__, LayerNorm.forward): the constructor builds a
    module whose scale is the vector of ones, whose shift is the vector of
    zeros and whose eps is the one given.  Over the reals, for at least two
    features and a positive eps, the module it builds maps every feature x
    of a row to (x - mean) / (std + eps), mean and sample standard deviation
    being those of the row, so that every returned row of features sums
    to 0; the output has the shape of the input. *)
Theorem LayerNorm_constructed_rows_sum_to_zero (x : Tensor R)
    (pre : list nat) (F : nat) (eps : R) (w : World R) :
  shape x = pre ++ [F] -> 2 <= F -> (0 < eps)%R ->
  exists self w' y,
    LayerNorm.__init__ F eps w = Ok (self, w')
    /\ LayerNorm.weight self = ones [F]
    /\ LayerNorm.bias self = zeros [F]
    /\ LayerNorm.eps self = eps
    /\ LayerNorm.forward self x = Ok y
    /\ shape y = shape x
    /\ (forall p j, in_bounds pre p -> j < F ->
          get y (p ++ [j])
          = ((get x (p ++ [j]) - spec_mean (row_of x (p ++ [j])))
             / (spec_std 1 (row_of x (p ++ [j])) + eps))%R)
    /\ forall p, in_bounds pre p ->
         tsum F (fun j => get y (p ++ [j])) = 0%R.
Proof.
  intros Hx HF _.
  destruct (LayerNorm_rows_centered x pre F eps w Hx ltac:(lia))
    as (self & w' & y & Hi & Hf & Hs & Hsum).
  exists self, w', y.
  unfold LayerNorm.__init__, mbind, allocate, mret in Hi.
  injection Hi as <- <-.
  cbn [LayerNorm.weight LayerNorm.bias LayerNorm.eps].
  repeat (split; [reflexivity|]).
  split; [exact Hf|]. split; [exact Hs|]. split; [|exact Hsum].
  intros p j Hp Hj.
  rewrite (LayerNorm_forward_value (LayerNorm.mk (ones [F]) (zeros [F]) eps)
             x pre F Hx eq_refl eq_refl) in Hf.
  injection Hf as <-.
  rewrite get_tabulate by (apply in_bounds_snoc; assumption).
  rewrite last_last. unfold ones, zeros.
  rewrite !get_tabulate by (constructor; [lia | constructor]).
  unfold spec_layer_norm.
  change ((1 * (get x (p ++ [j]) - spec_mean (row_of x (p ++ [j])))
           / (spec_std 1 (row_of x (p ++ [j])) + eps) + 0)%R
          = ((get x (p ++ [j]) - spec_mean (row_of x (p ++ [j])))
             / (spec_std 1 (row_of x (p ++ [j])) + eps))%R).
  unfold Rdiv. ring.
Qed.

Lemma LayerNorm_constructed_rows_sum_to_zero_witness :
  exists self w' y,
    LayerNorm.__init__ 2 LayerNorm.default_eps c7_world = Ok (self, w')
    /\ LayerNorm.weight self = ones [2]
    /\ LayerNorm.bias self = zeros [2]
    /\ LayerNorm.eps self = LayerNorm.default_eps
    /\ LayerNorm.forward self c7_x = Ok y
    /\ shape y = shape c7_x
    /\ (forall p j, in_bounds [2] p -> j < 2 ->
          get y (p ++ [j])
          = ((get c7_x (p ++ [j]) - spec_mean (row_of c7_x (p ++ [j])))
             / (spec_std 1 (row_of c7_x (p ++ [j]))
                + LayerNorm.default_eps))%R)
    /\ forall p, in_bounds [2] p ->
         tsum 2 (fun j => get y (p ++ [j])) = 0%R.
Proof.
  apply (LayerNorm_constructed_rows_sum_to_zero c7_x [2] 2
           LayerNorm.default_eps c7_world).
  - reflexivity.
  - lia.
  - unfold LayerNorm.default_eps. cbn. lra.
Defined.

(** X3 (LayerNorm.forward): an input whose trailing axis has another width
    than the scale vector (neither width being 1) is refused with a
    RuntimeError: the scale cannot be broadcast to the centred input. *)
Theorem LayerNorm_width_mismatch_raises {T : Type} `{Numeric T}
    (self : LayerNorm.t T) (x : Tensor T) (pre : list nat) (F F' : nat) :
  shape x = pre ++ [F'] ->
  shape (LayerNorm.weight self) = [F] ->
  F <> F' -> F <> 1 -> F' <> 1 ->
  LayerNorm.forward self x = Raise RuntimeError.
Proof. apply LayerNorm_forward_mismatch. Qed.

Lemma LayerNorm_width_mismatch_raises_witness :
  LayerNorm.forward (SublayerConnection.norm c7_self) x_wide
  = Raise RuntimeError.
Proof.
  apply (LayerNorm_width_mismatch_raises (SublayerConnection.norm c7_self)
           x_wide [1] 2 3);
    [reflexivity | reflexivity | lia | lia | lia].
Defined.

(** ** attention *)

(** X4 (attention): a mask without any zero entry has no effect: the call
    returns what it returns without a mask, whatever the dropout module
    does. *)
Theorem attention_mask_without_zeros {T : Type} `{Numeric T}
    (query key value : Tensor T) (m : Tensor Z)
    (dropout : option (Dropout.t T)) (bs : list nat) (L K dk : nat)
    (w : World T) :
  shape query = bs ++ [L; dk] ->
  shape key = bs ++ [K; dk] ->
  mask_ok (Some m) (bs ++ [L; K]) ->
  Forall (fun z => z <> 0%Z) (data m) ->
  attention query key value (Some m) dropout w
  = attention query key value None dropout w.
Proof. apply attention_no_zero_mask. Qed.

Lemma attention_mask_without_zeros_witness :
  attention c5_x two_keys two_keys (Some mask_ones) None c7_world
  = attention c5_x two_keys two_keys None None c7_world.
Proof.
  apply (attention_mask_without_zeros c5_x two_keys two_keys mask_ones None
           [] 1 2 1 c7_world).
  - reflexivity.
  - reflexivity.
  - split; reflexivity.
  - repeat constructor; discriminate.
Defined.

(** X5 (attention): a query and a key whose feature widths differ are
    refused with a RuntimeError (the product query . key^T is not
    defined). *)
Theorem attention_width_mismatch_raises {T : Type} `{Numeric T}
    (query key value : Tensor T) (mask : option (Tensor Z))
    (dropout : option (Dropout.t T)) (bq bk : list nat) (L K dq dk : nat)
    (w : World T) :
  shape query = bq ++ [L; dq] ->
  shape key = bk ++ [K; dk] ->
  dq <> dk ->
  attention query key value mask dropout w = Raise RuntimeError.
Proof. apply attention_width_mismatch. Qed.

Lemma attention_width_mismatch_raises_witness :
  attention c5_x c7_x c7_x None None c7_world = Raise RuntimeError.
Proof.
  apply (attention_width_mismatch_raises c5_x c7_x c7_x None None
           [] [] 1 2 1 2 c7_world);
    [reflexivity | reflexivity | lia].
Defined.

(** X6 (attention): over the reals and without active dropout, for a
    positive width d_k and at least one key, every returned weight lies
    between 0 and 1 and every entry of the output is a weighted average of
    the corresponding entries of the values: it lies between any bounds
    that hold for those entries. *)
Theorem attention_output_within_values
    (query key value : Tensor R) (mask : option (Tensor Z))
    (dropout : option (Dropout.t R)) (bs : list nat) (L K dk dv : nat)
    (w : World R) (pre : list nat) (i c : nat) (lo hi : R) :
  shape query = bs ++ [L; dk] ->
  shape key = bs ++ [K; dk] ->
  shape value = bs ++ [K; dv] ->
  mask_ok mask (bs ++ [L; K]) ->
  (forall d, dropout = Some d -> dropout_inactive d) ->
  in_bounds bs pre -> i < L -> c < dv -> 0 < K -> 0 < dk ->
  (forall j, j < K -> (lo <= get value (pre ++ [j; c]) <= hi)%R) ->
  exists out p_attn w',
    attention query key value mask dropout w = Ok ((out, p_attn), w')
    /\ (forall j, j < K -> (0 <= get p_attn (pre ++ [i; j]) <= 1)%R)
    /\ (lo <= get out (pre ++ [i; c]) <= hi)%R.
Proof.
  intros Hq Hk Hv Hmask Hdrop Hpre Hi Hc HK _ Hb.
  destruct (attention_value query key value mask dropout bs L K dk dv w
              Hq Hk Hv Hmask)
    as (sw & out & p_attn & w' & Hatt & _ & _ & Hsw & Hd & _ & _ & Hout).
  exists out, p_attn, w'. split; [exact Hatt|].
  rewrite (attention_weights_inactive dropout sw p_attn w w' Hdrop Hd) in *.
  split.
  - intros j Hj. rewrite Hsw by assumption.
    pose proof (spec_weight_range mask query key dk K pre i j Hj). lra.
  - rewrite Hout by assumption.
    apply (tsum_weighted_bounds K (fun j => get sw (pre ++ [i; j]))
             (fun j => get value (pre ++ [j; c])) lo hi).
    + intros j Hj. rewrite Hsw by assumption.
      apply Rlt_le. apply spec_weight_range. assumption.
    + rewrite <- (spec_weight_row_sum mask query key dk K pre i HK).
      apply tsum_ext. intros j Hj. apply Hsw; assumption.
    + exact Hb.
Qed.

Lemma attention_output_within_values_witness :
  exists out p_attn w',
    attention c5_x two_keys two_keys None None c7_world
    = Ok ((out, p_attn), w')
    /\ (forall j, j < 2 -> (0 <= get p_attn ([] ++ [0%nat; j]) <= 1)%R)
    /\ (0 <= get out ([] ++ [0%nat; 0%nat]) <= 1)%R.
Proof.
  apply (attention_output_within_values c5_x two_keys two_keys None None
           [] 1 2 1 1 c7_world [] 0 0 0%R 1%R);
    [ reflexivity | reflexivity | reflexivity | exact I | discriminate
    | constructor | lia | lia | lia | lia | ].
  intros j Hj. destruct j as [|[|j]]; [cbn; lra | cbn; lra | lia].
Defined.

(** X7 (attention): over the reals, without active dropout and for a
    positive width d_k, the weight of a key that the mask hides is at most
    exp(-1e9 - s), where s is the score of any visible key of the same row:
    the mask lowers the score of a hidden key to -1e9, and how small its
    weight becomes depends on how far the visible scores lie above -1e9. *)
Theorem attention_masked_weight
    (query key value : Tensor R) (m : Tensor Z)
    (dropout : option (Dropout.t R)) (bs : list nat) (L K dk dv : nat)
    (w : World R) (pre : list nat) (i j j' : nat) :
  shape query = bs ++ [L; dk] ->
  shape key = bs ++ [K; dk] ->
  shape value = bs ++ [K; dv] ->
  mask_ok (Some m) (bs ++ [L; K]) ->
  (forall d, dropout = Some d -> dropout_inactive d) ->
  in_bounds bs pre -> i < L -> j < K -> j' < K -> 0 < dk ->
  mask_entry m (pre ++ [i; j]) = 0%Z ->
  mask_entry m (pre ++ [i; j']) <> 0%Z ->
  exists out p_attn w',
    attention query key value (Some m) dropout w = Ok ((out, p_attn), w')
    /\ (0 <= get p_attn (pre ++ [i; j])
        <= exp (-1000000000 - spec_score query key dk pre i j'))%R.
Proof.
  intros Hq Hk Hv Hmask Hdrop Hpre Hi Hj Hj' _ Hm0 Hm1.
  destruct (attention_value query key value (Some m) dropout bs L K dk dv w
              Hq Hk Hv Hmask)
    as (sw & out & p_attn & w' & Hatt & _ & _ & Hsw & Hd & _).
  exists out, p_attn, w'. split; [exact Hatt|].
  rewrite (attention_weights_inactive dropout sw p_attn w w' Hdrop Hd).
  pose proof (spec_weight_range (Some m) query key dk K pre i j Hj) as Hr.
  pose proof (spec_weight_range (Some m) query key dk K pre i j' Hj') as Hr'.
  rewrite !Hsw by assumption.
  split; [lra|].
  assert (Heq : spec_weight (Some m) query key dk K pre i j
                = (spec_weight (Some m) query key dk K pre i j'
                   * exp (-1000000000 - spec_score query key dk pre i j'))%R).
  { unfold spec_weight.
    assert (HZ : (0 < tsum K (fun j0 =>
                     exp (spec_masked_score (Some m) query key dk pre i j0)))%R)
      by (apply tsum_exp_pos; lia).
    change (fun j0 => fexp (spec_masked_score (Some m) query key dk pre i j0))
      with (fun j0 => exp (spec_masked_score (Some m) query key dk pre i j0)).
    set (Z0 := tsum K _) in *.
    unfold spec_masked_score.
    rewrite Hm0. apply Z.eqb_neq in Hm1. rewrite Hm1.
    change (Z.eqb 0 0) with true. cbv iota.
    change (exp (-1000000000) / Z0
            = exp (spec_score query key dk pre i j') / Z0
              * exp (-1000000000 - spec_score query key dk pre i j'))%R.
    unfold Rminus. rewrite exp_plus, exp_Ropp.
    pose proof (exp_pos (spec_score query key dk pre i j')).
    unfold Rdiv. field. split; lra. }
  rewrite Heq.
  pose proof (exp_pos (-1000000000 - spec_score query key dk pre i j')) as He.
  rewrite <- (Rmult_1_l (exp _)) at 2.
  apply Rmult_le_compat_r; lra.
Qed.

Lemma attention_masked_weight_witness :
  exists out p_attn w',
    attention c5_x two_keys two_keys (Some mask_first_hidden) None c7_world
    = Ok ((out, p_attn), w')
    /\ (0 <= get p_attn ([] ++ [0%nat; 0%nat])
        <= exp (-1000000000 - spec_score c5_x two_keys 1 [] 0 1))%R.
Proof.
  apply (attention_masked_weight c5_x two_keys two_keys mask_first_hidden
           None [] 1 2 1 1 c7_world [] 0 0 1);
    [ reflexivity | reflexivity | reflexivity | split; reflexivity
    | discriminate | constructor | lia | lia | lia | lia | reflexivity
    | discriminate ].
Defined.

(** X8 (attention): with no key position at all the call still succeeds:
    the weights are empty and every entry of the output is 0 (an empty
    sum). *)
Theorem attention_without_keys {T : Type} `{Numeric T}
    (query key value : Tensor T) (mask : option (Tensor Z))
    (dropout : option (Dropout.t T)) (bs : list nat) (L dk dv : nat)
    (w : World T) :
  shape query = bs ++ [L; dk] ->
  shape key = bs ++ [0; dk] ->
  shape value = bs ++ [0; dv] ->
  mask_ok mask (bs ++ [L; 0]) ->
  exists out p_attn w',
    attention query key value mask dropout w = Ok ((out, p_attn), w')
    /\ shape p_attn = bs ++ [L; 0]
    /\ shape out = bs ++ [L; dv]
    /\ forall pre i c, in_bounds bs pre -> i < L -> c < dv ->
         get out (pre ++ [i; c]) = zero.
Proof.
  intros Hq Hk Hv Hmask.
  destruct (attention_value query key value mask dropout bs L 0 dk dv w
              Hq Hk Hv Hmask)
    as (sw & out & p_attn & w' & Hatt & _ & _ & _ & _ & Hsp & Hso & Hout).
  exists out, p_attn, w'. split; [exact Hatt|].
  split; [exact Hsp|]. split; [exact Hso|].
  intros pre i c Hpre Hi Hc. rewrite Hout by assumption. reflexivity.
Qed.

Lemma attention_without_keys_witness :
  exists out p_attn w',
    attention c5_x no_keys no_keys None None c7_world
    = Ok ((out, p_attn), w')
    /\ shape p_attn = [] ++ [1; 0]
    /\ shape out = [] ++ [1; 1]
    /\ forall pre i c, in_bounds [] pre -> i < 1 -> c < 1 ->
         get out (pre ++ [i; c]) = zero.
Proof.
  apply (attention_without_keys c5_x no_keys no_keys None None [] 1 1 1
           c7_world);
    [reflexivity | reflexivity | reflexivity | exact I].
Defined.

(** ** MultiHeadedAttention *)

(** X9 (MultiHeadedAttention.__init__): the constructor raises
    ZeroDivisionError for h = 0 and AssertionError when h does not divide
    d_model; otherwise, with a valid dropout probability, it builds a
    module with four projections from d_model to d_model features and h
    heads of width d_k with h * d_k = d_model, in which no weights are
    recorded yet.  (The copies of the projection are made by
    [utils.clones], which is modelled from the spec.) *)
Theorem MultiHeadedAttention_init {T : Type} `{Numeric T}
    (h d_model : nat) (p : T) (w : World T) :
  (h = 0 ->
   MultiHeadedAttention.__init__ h d_model p w = Raise ZeroDivisionError)
  /\ (h <> 0 -> d_model mod h <> 0 ->
      MultiHeadedAttention.__init__ h d_model p w = Raise AssertionError)
  /\ (h <> 0 -> d_model mod h = 0 ->
      forall d, Dropout.__init__ p = Ok d ->
      exists self w',
        MultiHeadedAttention.__init__ h d_model p w = Ok (self, w')
        /\ mha_dims self d_model
        /\ MultiHeadedAttention.h self = h
        /\ MultiHeadedAttention.attn self = None
        /\ MultiHeadedAttention.dropout self = d).
Proof. apply MHA_init_spec. Qed.

Lemma MultiHeadedAttention_init_witness :
  MultiHeadedAttention.__init__ 0 4 0%R c3_world = Raise ZeroDivisionError
  /\ MultiHeadedAttention.__init__ 3 4 0%R c3_world = Raise AssertionError
  /\ exists self w',
       MultiHeadedAttention.__init__ 2 4 0%R c3_world = Ok (self, w')
       /\ mha_dims self 4
       /\ MultiHeadedAttention.h self = 2
       /\ MultiHeadedAttention.attn self = None
       /\ MultiHeadedAttention.dropout self = Dropout.mk 0%R true.
Proof.
  split; [|split].
  - apply (MultiHeadedAttention_init 0 4 0%R c3_world). reflexivity.
  - apply (MultiHeadedAttention_init 3 4 0%R c3_world); discriminate.
  - apply (MultiHeadedAttention_init 2 4 0%R c3_world);
      [discriminate | reflexivity | apply Dropout_init_R; lra].
Defined.

(** X10 (MultiHeadedAttention.forward): for a non-empty batch of queries
    of shape (N, L, E) and keys and values of shape (N, S, E), with a mask
    that can be broadcast to (N, L, S) or none, the call succeeds for every
    dropout mode, returns a tensor of shape (N, L, E), records weights of
    shape (N, h, L, S) in [attn], changes no other field of the module and
    allocates nothing: the key length may differ from the query length. *)
Theorem MultiHeadedAttention_forward_shapes {T : Type} `{Numeric T}
    (self : MultiHeadedAttention.t T) (query key value : Tensor T)
    (mask : option (Tensor Z)) (N L K E : nat) (w : World T) :
  mha_dims self E -> 0 < N -> 0 < E ->
  shape query = [N; L; E] -> shape key = [N; K; E] ->
  shape value = [N; K; E] ->
  mha_mask_ok mask N L K ->
  exists out p_attn w',
    MultiHeadedAttention.forward self query key value mask w
    = Ok ((out,
           MultiHeadedAttention.mk
             (MultiHeadedAttention.d_k self) (MultiHeadedAttention.h self)
             (MultiHeadedAttention.linears self) (Some p_attn)
             (MultiHeadedAttention.dropout self)), w')
    /\ shape out = [N; L; E]
    /\ shape p_attn = [N; MultiHeadedAttention.h self; L; K]
    /\ allocated w' = allocated w.
Proof. apply MHA_forward_shape. Qed.

Lemma c3_mha_dims : mha_dims c3_mha 4.
Proof.
  split; [reflexivity|]. split; [|reflexivity].
  repeat (apply Forall_cons; [split; reflexivity|]). apply Forall_nil.
Qed.

Lemma MultiHeadedAttention_forward_shapes_witness :
  exists out p_attn w',
    MultiHeadedAttention.forward c3_mha c3_x c3_memory c3_memory None c3_world
    = Ok ((out,
           MultiHeadedAttention.mk
             (MultiHeadedAttention.d_k c3_mha) (MultiHeadedAttention.h c3_mha)
             (MultiHeadedAttention.linears c3_mha) (Some p_attn)
             (MultiHeadedAttention.dropout c3_mha)), w')
    /\ shape out = [1; 2; 4]
    /\ shape p_attn = [1; MultiHeadedAttention.h c3_mha; 2; 3]
    /\ allocated w' = allocated c3_world.
Proof.
  apply (MultiHeadedAttention_forward_shapes c3_mha c3_x c3_memory c3_memory
           None 1 2 3 4 c3_world);
    [ exact c3_mha_dims | lia | lia | reflexivity | reflexivity | reflexivity
    | exact I ].
Defined.

(** X11 (MultiHeadedAttention.forward): on an empty batch (N = 0) the call
    raises RuntimeError: the view (nbatches, -1, h, d_k) of the projected
    queries cannot infer the size of the axis written -1. *)
Theorem MultiHeadedAttention_empty_batch_raises {T : Type} `{Numeric T}
    (self : MultiHeadedAttention.t T) (query key value : Tensor T)
    (mask : option (Tensor Z)) (L E : nat) (w : World T) :
  mha_dims self E -> shape query = [0; L; E] ->
  is_ok (unsqueeze_mask mask) = true ->
  MultiHeadedAttention.forward self query key value mask w
  = Raise RuntimeError.
Proof. apply MHA_forward_empty_batch. Qed.

Lemma MultiHeadedAttention_empty_batch_raises_witness :
  MultiHeadedAttention.forward c3_mha empty_batch empty_batch empty_batch
    None c3_world
  = Raise RuntimeError.
Proof.
  apply (MultiHeadedAttention_empty_batch_raises c3_mha empty_batch
           empty_batch empty_batch None 2 4 c3_world);
    [exact c3_mha_dims | reflexivity | reflexivity].
Defined.

(** ** PositionwiseFeedForward *)

(** X12 (PositionwiseFeedForward.forward): when the dropout of the module
    is the identity, the output at a position is
    w_2 . relu(w_1 . x + b_1) + b_2 of the features of that position, and
    the state is left as it is. *)
Theorem PositionwiseFeedForward_forward_value {T : Type} `{Numeric T}
    (self : PositionwiseFeedForward.t T) (x : Tensor T) (bs : list nat)
    (n d_model d_ff : nat) (w : World T) :
  linear_dims (PositionwiseFeedForward.w_1 self) d_model d_ff ->
  linear_dims (PositionwiseFeedForward.w_2 self) d_ff d_model ->
  dropout_inactive (PositionwiseFeedForward.dropout self) ->
  shape x = bs ++ [n; d_model] ->
  exists y,
    PositionwiseFeedForward.forward self x w = Ok (y, w)
    /\ shape y = bs ++ [n; d_model]
    /\ forall pre i j, in_bounds bs pre -> i < n -> j < d_model ->
         get y (pre ++ [i; j])
         = add (tsum d_ff (fun k =>
                  mul (let a :=
                         add (tsum d_model (fun c =>
                                mul (get x (pre ++ [i; c]))
                                    (get (Linear.weight
                                            (PositionwiseFeedForward.w_1 self))
                                         [k; c])))
                             (get (Linear.bias
                                     (PositionwiseFeedForward.w_1 self)) [k])
                       in if fltb a zero then zero else a)
                      (get (Linear.weight (PositionwiseFeedForward.w_2 self))
                           [j; k])))
               (get (Linear.bias (PositionwiseFeedForward.w_2 self)) [j]).
Proof. apply FeedForward_forward_value. Qed.

Lemma identity_linear_dims (n : nat) : linear_dims (identity_linear n) n n.
Proof. split; reflexivity. Qed.

Lemma PositionwiseFeedForward_forward_value_witness :
  exists y,
    PositionwiseFeedForward.forward ffn4 c3_x c3_world = Ok (y, c3_world)
    /\ shape y = [1] ++ [2; 4]
    /\ forall pre i j, in_bounds [1] pre -> i < 2 -> j < 4 ->
         get y (pre ++ [i; j])
         = add (tsum 4 (fun k =>
                  mul (let a :=
                         add (tsum 4 (fun c =>
                                mul (get c3_x (pre ++ [i; c]))
                                    (get (Linear.weight
                                            (PositionwiseFeedForward.w_1 ffn4))
                                         [k; c])))
                             (get (Linear.bias
                                     (PositionwiseFeedForward.w_1 ffn4)) [k])
                       in if fltb a zero then zero else a)
                      (get (Linear.weight (PositionwiseFeedForward.w_2 ffn4))
                           [j; k])))
               (get (Linear.bias (PositionwiseFeedForward.w_2 ffn4)) [j]).
Proof.
  apply (PositionwiseFeedForward_forward_value ffn4 c3_x [1] 2 4 4 c3_world);
    [ apply identity_linear_dims | apply identity_linear_dims
    | exact dropout_zero_inactive | reflexivity ].
Defined.

(** X13 (PositionwiseFeedForward.forward): the network acts on every
    position separately: when its dropout is the identity, two inputs of
    the same shape that agree on the features of one position give outputs
    that agree at that position, whatever the other positions hold. *)
Theorem PositionwiseFeedForward_position_wise {T : Type} `{Numeric T}
    (self : PositionwiseFeedForward.t T) (x x' : Tensor T) (bs : list nat)
    (n d_model d_ff : nat) (w w' : World T) (pre : list nat) (i : nat) :
  linear_dims (PositionwiseFeedForward.w_1 self) d_model d_ff ->
  linear_dims (PositionwiseFeedForward.w_2 self) d_ff d_model ->
  dropout_inactive (PositionwiseFeedForward.dropout self) ->
  shape x = bs ++ [n; d_model] -> shape x' = bs ++ [n; d_model] ->
  in_bounds bs pre -> i < n ->
  (forall c, c < d_model -> get x (pre ++ [i; c]) = get x' (pre ++ [i; c])) ->
  exists y y',
    PositionwiseFeedForward.forward self x w = Ok (y, w)
    /\ PositionwiseFeedForward.forward self x' w' = Ok (y', w')
    /\ forall j, j < d_model -> get y (pre ++ [i; j]) = get y' (pre ++ [i; j]).
Proof.
  intros H1 H2 Hd Hx Hx' Hpre Hi Heq.
  destruct (FeedForward_forward_value self x bs n d_model d_ff w H1 H2 Hd Hx)
    as (y & Hy & _ & Hvy).
  destruct (FeedForward_forward_value self x' bs n d_model d_ff w' H1 H2 Hd Hx')
    as (y' & Hy' & _ & Hvy').
  exists y, y'. split; [exact Hy|]. split; [exact Hy'|].
  intros j Hj. rewrite Hvy, Hvy' by assumption.
  f_equal. apply tsum_ext. intros k Hk. f_equal. cbv zeta.
  assert (Hs : tsum d_model (fun c =>
                 mul (get x (pre ++ [i; c]))
                     (get (Linear.weight (PositionwiseFeedForward.w_1 self))
                          [k; c]))
               = tsum d_model (fun c =>
                   mul (get x' (pre ++ [i; c]))
                       (get (Linear.weight (PositionwiseFeedForward.w_1 self))
                            [k; c]))).
  { apply tsum_ext. intros c Hc. rewrite Heq by assumption. reflexivity. }
  rewrite Hs. reflexivity.
Qed.

Lemma PositionwiseFeedForward_position_wise_witness :
  exists y y',
    PositionwiseFeedForward.forward ffn4 c3_x c3_world = Ok (y, c3_world)
    /\ PositionwiseFeedForward.forward ffn4
         (mkTensor [1; 2; 4] [5; 5; 5; 5; 0; 0; 0; 0]%R) c7_world
       = Ok (y', c7_world)
    /\ forall j, j < 4 -> get y ([0] ++ [1; j]) = get y' ([0] ++ [1; j]).
Proof.
  apply (PositionwiseFeedForward_position_wise ffn4 c3_x
           (mkTensor [1; 2; 4] [5; 5; 5; 5; 0; 0; 0; 0]%R) [1] 2 4 4
           c3_world c7_world [0] 1);
    [ apply identity_linear_dims | apply identity_linear_dims
    | exact dropout_zero_inactive | reflexivity | reflexivity
    | repeat constructor | lia | ].
  intros c Hc.
  destruct c as [|[|[|[|c]]]]; [reflexivity.. | lia].
Defined.

(** X14 (PositionwiseFeedForward.__init__, forward): the constructor
    allocates a projection from d_model to d_ff features and one back; the
    module it builds maps an input of shape (..., n, d_model) to a tensor
    of the same shape in every dropout mode, and a call allocates
    nothing. *)
Theorem PositionwiseFeedForward_constructed_keeps_shape {T : Type}
    `{Numeric T} (d_model d_ff : nat) (p : T) (d : Dropout.t T)
    (x : Tensor T) (bs : list nat) (n : nat) (w : World T) :
  Dropout.__init__ p = Ok d ->
  shape x = bs ++ [n; d_model] ->
  exists self w1,
    PositionwiseFeedForward.__init__ d_model d_ff p w = Ok (self, w1)
    /\ allocated w1
       = allocated w ++ [ParamLinear d_model d_ff; ParamLinear d_ff d_model]
    /\ forall w2, exists y w3,
         PositionwiseFeedForward.forward self x w2 = Ok (y, w3)
         /\ shape y = shape x
         /\ allocated w3 = allocated w2.
Proof.
  intros Hd Hx. unfold PositionwiseFeedForward.__init__.
  destruct (Linear_init_ok d_model d_ff w) as (l1 & w1 & Hl1 & Hd1 & Ha1 & _).
  destruct (Linear_init_ok d_ff d_model w1) as (l2 & w2 & Hl2 & Hd2 & Ha2 & _).
  unfold mbind at 1. rewrite Hl1.
  unfold mbind at 1. rewrite Hl2.
  unfold mbind, lift, mret. rewrite Hd.
  eexists. eexists. split; [reflexivity|].
  split; [rewrite Ha2, Ha1, <- app_assoc; reflexivity|].
  intros w3.
  destruct (FeedForward_forward_shape (PositionwiseFeedForward.mk l1 l2 d)
              x bs n d_model d_ff w3 Hd1 Hd2 Hx)
    as (y & w4 & Hy & Hsy & Hal).
  exists y, w4. split; [exact Hy|]. split; [congruence | exact Hal].
Qed.

Lemma PositionwiseFeedForward_constructed_keeps_shape_witness :
  exists self w1,
    PositionwiseFeedForward.__init__ 4 8 0%R c3_world = Ok (self, w1)
    /\ allocated w1
       = allocated c3_world ++ [ParamLinear 4 8; ParamLinear 8 4]
    /\ forall w2, exists y w3,
         PositionwiseFeedForward.forward self c3_x w2 = Ok (y, w3)
         /\ shape y = shape c3_x
         /\ allocated w3 = allocated w2.
Proof.
  apply (PositionwiseFeedForward_constructed_keeps_shape 4 8 0%R
           (Dropout.mk 0%R true) c3_x [1] 2 c3_world).
  - apply Dropout_init_R. lra.
  - reflexivity.
Defined.

(** ** Embeddings *)

(** X15 (Embeddings.__init__, forward): the module built for a vocabulary
    of [vocab] entries maps every token id in [0, vocab) to its row of the
    table, multiplied by sqrt(d_model); the output has the shape of the
    ids with one more axis of width d_model. *)
Theorem Embeddings_lookup_scaled {T : Type} `{Numeric T}
    (d_model vocab : nat) (x : Tensor Z) (w : World T) :
  wf x ->
  Forall (fun i => (0 <= i < Z.of_nat vocab)%Z) (data x) ->
  exists self w' y,
    Embeddings.__init__ d_model (Z.of_nat vocab) w = Ok (self, w')
    /\ Embeddings.forward self x = Ok y
    /\ shape y = shape x ++ [d_model]
    /\ forall idx j, in_bounds (shape x) idx -> j < d_model ->
         get y (idx ++ [j])
         = mul (get (Embedding.weight (Embeddings.lut self))
                    [Z.to_nat (get x idx); j])
               (fsqrt (of_nat d_model))
         /\ get (Embedding.weight (Embeddings.lut self))
                [Z.to_nat (get x idx); j]
            = draws w (Z.to_nat (get x idx) * d_model + j).
Proof.
  intros Hwf Hall. unfold Embeddings.__init__, mbind.
  rewrite Embedding_init_succeeds. unfold mret.
  set (e := Embedding.mk _).
  destruct (Embedding_forward_value e x vocab d_model eq_refl Hall)
    as (r & Hr & Hsr & Hwr & Hvr).
  eexists. eexists. eexists. split; [reflexivity|].
  unfold Embeddings.forward. cbn [Embeddings.lut Embeddings.d_model].
  rewrite Hr. cbn [rbind].
  split; [reflexivity|]. split; [exact Hsr|].
  intros idx j Hidx Hj. split.
  - unfold mul_scalar. rewrite get_tmap;
      [|assumption|rewrite Hsr; apply in_bounds_snoc; assumption].
    rewrite Hvr by assumption. reflexivity.
  - unfold e. cbn [Embedding.weight].
    apply get_drawn_table; [|assumption].
    pose proof (get_in_data x idx Hwf Hidx) as Hin.
    rewrite Forall_forall in Hall. specialize (Hall _ Hin). lia.
Qed.

Lemma Embeddings_lookup_scaled_witness :
  exists self w' y,
    Embeddings.__init__ 3 (Z.of_nat 2) c1_world = Ok (self, w')
    /\ Embeddings.forward self tokens = Ok y
    /\ shape y = shape tokens ++ [3]
    /\ forall idx j, in_bounds (shape tokens) idx -> j < 3 ->
         get y (idx ++ [j])
         = mul (get (Embedding.weight (Embeddings.lut self))
                    [Z.to_nat (get tokens idx); j])
               (fsqrt (of_nat 3))
         /\ get (Embedding.weight (Embeddings.lut self))
                [Z.to_nat (get tokens idx); j]
            = draws c1_world (Z.to_nat (get tokens idx) * 3 + j).
Proof.
  apply (Embeddings_lookup_scaled 3 2 tokens c1_world).
  - reflexivity.
  - repeat constructor; cbn; lia.
Defined.

(** X16 (Embeddings.forward): a token id outside [0, vocab) anywhere in
    the input makes the lookup raise IndexError. *)
Theorem Embeddings_out_of_range_raises {T : Type} `{Numeric T}
    (d_model vocab : nat) (x : Tensor Z) (i : Z) (w : World T) :
  In i (data x) -> (i < 0 \/ Z.of_nat vocab <= i)%Z ->
  exists self w',
    Embeddings.__init__ d_model (Z.of_nat vocab) w = Ok (self, w')
    /\ Embeddings.forward self x = Raise IndexError.
Proof.
  intros Hi Hout. unfold Embeddings.__init__, mbind.
  rewrite Embedding_init_succeeds. unfold mret.
  eexists. eexists. split; [reflexivity|].
  unfold Embeddings.forward. cbn [Embeddings.lut Embeddings.d_model].
  rewrite (Embedding_forward_out_of_range
             (Embedding.mk (mkTensor [vocab; d_model]
                              (map (draws w) (seq 0 (vocab * d_model)))))
             x vocab d_model i eq_refl Hi Hout).
  reflexivity.
Qed.

Lemma Embeddings_out_of_range_raises_witness :
  exists self w',
    Embeddings.__init__ 3 (Z.of_nat 2) c1_world = Ok (self, w')
    /\ Embeddings.forward self bad_tokens = Raise IndexError.
Proof.
  apply (Embeddings_out_of_range_raises 3 2 bad_tokens 5%Z c1_world).
  - right. left. reflexivity.
  - right. cbn. lia.
Defined.

(** ** PositionalEncoding *)

(** X17 (PositionalEncoding.__init__): the constructor raises ValueError
    for a dropout probability outside [0, 1], whatever the dimension; with
    a valid probability it raises ZeroDivisionError for d_model = 0 and
    RuntimeError for every odd d_model of at least 3, for every maximum
    length. *)
Theorem PositionalEncoding_init_errors {T : Type} `{Numeric T}
    (max_len : nat) (p : T) :
  (fltb p zero || fltb one p = true ->
   forall d_model,
     PositionalEncoding.__init__ d_model p max_len = Raise ValueError)
  /\ (fltb p zero || fltb one p = false ->
      PositionalEncoding.__init__ 0 p max_len = Raise ZeroDivisionError
      /\ forall m,
           PositionalEncoding.__init__ (2 * (m + 1) + 1) p max_len
           = Raise RuntimeError).
Proof.
  split.
  - intros Hp d_model. apply PositionalEncoding_init_bad_dropout. exact Hp.
  - intros Hp.
    assert (Hd : Dropout.__init__ p = Ok (Dropout.mk p true))
      by (unfold Dropout.__init__; rewrite Hp; reflexivity).
    split.
    + apply (PositionalEncoding_init_zero max_len p _ Hd).
    + intros m. apply (PositionalEncoding_init_odd m max_len p _ Hd).
Qed.

Lemma PositionalEncoding_init_errors_witness :
  PositionalEncoding.__init__ 4 2%R 7 = Raise ValueError
  /\ PositionalEncoding.__init__ 0 0%R 7 = Raise ZeroDivisionError
  /\ PositionalEncoding.__init__ (2 * (1 + 1) + 1) 0%R 7 = Raise RuntimeError.
Proof.
  split; [|split].
  - apply (PositionalEncoding_init_errors 7 2%R).
    apply orb_true_iff. right. cbn. destruct (Rlt_dec 1 2); [reflexivity | lra].
  - apply (PositionalEncoding_init_errors 7 0%R).
    rewrite !fltb_R_false by (cbn; lra). reflexivity.
  - apply (PositionalEncoding_init_errors 7 0%R).
    rewrite !fltb_R_false by (cbn; lra). reflexivity.
Defined.

(** X18 (PositionalEncoding.__init__): for an even, positive d_model every
    entry of the precomputed table lies in [-1, 1]. *)
Theorem PositionalEncoding_table_in_unit_interval (m max_len : nat) (p : R) :
  0 < m -> (0 <= p <= 1)%R ->
  exists self,
    PositionalEncoding.__init__ (2 * m) p max_len = Ok self
    /\ forall pos j, pos < max_len -> j < 2 * m ->
         (-1 <= get (PositionalEncoding.pe self) [0%nat; pos; j] <= 1)%R.
Proof. apply PositionalEncoding_table_bounded. Qed.

Lemma PositionalEncoding_table_in_unit_interval_witness :
  exists self,
    PositionalEncoding.__init__ (2 * 2) 0%R 3 = Ok self
    /\ forall pos j, pos < 3 -> j < 2 * 2 ->
         (-1 <= get (PositionalEncoding.pe self) [0%nat; pos; j] <= 1)%R.
Proof.
  apply (PositionalEncoding_table_in_unit_interval 2 3 0%R); [lia | lra].
Defined.

(** X19 (PositionalEncoding.forward): a sequence that is longer than the
    table (of more than one position) is refused with a RuntimeError: the
    slice of the table has max_len rows and cannot be broadcast to the
    input. *)
Theorem PositionalEncoding_sequence_too_long_raises {T : Type} `{Numeric T}
    (self : PositionalEncoding.t T) (x : Tensor T) (B L D max_len : nat)
    (w : World T) :
  shape (PositionalEncoding.pe self) = [1; max_len; D] ->
  shape x = [B; L; D] -> 1 < max_len -> max_len < L ->
  PositionalEncoding.forward self x w = Raise RuntimeError.
Proof. apply PositionalEncoding_forward_too_long. Qed.

Lemma PositionalEncoding_sequence_too_long_raises_witness :
  PositionalEncoding.forward
    (PositionalEncoding.mk (Dropout.mk 0%R true) (zeros [1; 2; 4]))
    c3_memory c3_world
  = Raise RuntimeError.
Proof.
  apply (PositionalEncoding_sequence_too_long_raises
           (PositionalEncoding.mk (Dropout.mk 0%R true) (zeros [1; 2; 4]))
           c3_memory 1 3 4 2 c3_world);
    [reflexivity | reflexivity | lia | lia].
Defined.

(** ** MultiHeadedAttention_RPR *)

(** X20 (MultiHeadedAttention_RPR._relative_attn_inner): for x of shape
    (N, h, L, m) with N, h, L positive, the entry (n, hd, i, j) of the
    result is sum_c x[n, hd, i, c] * y[n, hd, j, c]
    + sum_c x[n, hd, i, c] * z[i, j, c] when [transpose] is set (y of shape
    (N, h, p, m), z of shape (L, p, m)), and
    sum_c x[n, hd, i, c] * y[n, hd, c, j] + sum_c x[n, hd, i, c] * z[i, c, j]
    otherwise (y of shape (N, h, m, p), z of shape (L, m, p)): the relation
    tensor is shared by all batch entries and heads; the permutations and
    views of the code only move it into place. *)
Theorem relative_attn_inner_computes {T : Type} `{Numeric T}
    (x y z : Tensor T) (tr : bool) (N h L m p : nat) :
  0 < N -> 0 < h -> 0 < L ->
  shape x = [N; h; L; m] ->
  shape y = (if tr then [N; h; p; m] else [N; h; m; p]) ->
  shape z = (if tr then [L; p; m] else [L; m; p]) ->
  exists r,
    MultiHeadedAttention_RPR._relative_attn_inner x y z tr = Ok r
    /\ shape r = [N; h; L; p] /\ wf r
    /\ forall n hd i j, n < N -> hd < h -> i < L -> j < p ->
         get r [n; hd; i; j]
         = add (tsum m (fun c =>
                  mul (get x [n; hd; i; c])
                      (get y (if tr then [n; hd; j; c] else [n; hd; c; j]))))
               (tsum m (fun c =>
                  mul (get x [n; hd; i; c])
                      (get z (if tr then [i; j; c] else [i; c; j])))).
Proof. apply relative_attn_inner_value. Qed.

Lemma relative_attn_inner_computes_witness :
  exists r,
    MultiHeadedAttention_RPR._relative_attn_inner heads_4x1 heads_4x1
      relation_2x2 true = Ok r
    /\ shape r = [1; 1; 2; 2] /\ wf r
    /\ forall n hd i j, n < 1 -> hd < 1 -> i < 2 -> j < 2 ->
         get r [n; hd; i; j]
         = add (tsum 1 (fun c =>
                  mul (get heads_4x1 [n; hd; i; c])
                      (get heads_4x1 [n; hd; j; c])))
               (tsum 1 (fun c =>
                  mul (get heads_4x1 [n; hd; i; c])
                      (get relation_2x2 [i; j; c]))).
Proof.
  apply (relative_attn_inner_computes heads_4x1 heads_4x1 relation_2x2 true
           1 1 2 1 2);
    [lia | lia | lia | reflexivity | reflexivity | reflexivity].
Defined.

(** X21 (MultiHeadedAttention_RPR.generate_relative_positions_embeddings):
    for a clipping bound k with 0 <= k < 2^62, a call draws a fresh table of
    2k + 1 rows from the generator and returns a tensor of shape
    (len, len, depth) whose entry (i, j) is the row clip(j - i, -k, k) + k
    of that table; the entry depends on j - i only. *)
Theorem relation_embeddings_by_offset {T : Type} `{Numeric T}
    (len depth : nat) (k : Z) (w : World T) :
  (0 <= k < 2 ^ 62)%Z -> (Z.of_nat len <= 2 ^ 62)%Z ->
  exists r w1,
    MultiHeadedAttention_RPR.generate_relative_positions_embeddings
      len len depth k w = Ok (r, w1)
    /\ shape r = [len; len; depth]
    /\ (forall i j c, i < len -> j < len -> c < depth ->
          get r [i; j; c]
          = draws w (Z.to_nat (spec_clip (Z.of_nat j - Z.of_nat i) (- k) k + k)
                     * depth + c))
    /\ (forall i j c, S i < len -> S j < len -> c < depth ->
          get r [S i; S j; c] = get r [i; j; c])
    /\ allocated w1
       = allocated w ++ [ParamEmbedding (Z.to_nat (k * 2 + 1)) depth].
Proof.
  intros Hk Hlen.
  destruct (generate_embeddings_spec len depth k w Hk Hlen)
    as (r & w1 & Hr & Hsr & Hv & _ & _ & Hal).
  exists r, w1. split; [exact Hr|]. split; [exact Hsr|].
  split; [exact Hv|]. split; [|exact Hal].
  intros i j c Hi Hj Hc.
  rewrite !Hv by lia.
  replace (Z.of_nat (S j) - Z.of_nat (S i))%Z
    with (Z.of_nat j - Z.of_nat i)%Z by lia.
  reflexivity.
Qed.

Lemma relation_embeddings_by_offset_witness :
  exists r w1,
    MultiHeadedAttention_RPR.generate_relative_positions_embeddings
      3 3 2 1%Z c1_world = Ok (r, w1)
    /\ shape r = [3; 3; 2]
    /\ (forall i j c, i < 3 -> j < 3 -> c < 2 ->
          get r [i; j; c]
          = draws c1_world
              (Z.to_nat (spec_clip (Z.of_nat j - Z.of_nat i) (- 1) 1 + 1)
               * 2 + c))
    /\ (forall i j c, S i < 3 -> S j < 3 -> c < 2 ->
          get r [S i; S j; c] = get r [i; j; c])
    /\ allocated w1
       = allocated c1_world ++ [ParamEmbedding (Z.to_nat (1 * 2 + 1)) 2].
Proof.
  apply (relation_embeddings_by_offset 3 2 1%Z c1_world); [lia | cbn; lia].
Defined.

(** X22 (MultiHeadedAttention_RPR._generate_relative_positions_matrix):
    the matrix for equal lengths has k on its diagonal, is constant along
    every diagonal, satisfies m[i, j] + m[j, i] = 2k, and holds 2k at
    every offset j - i of at least k and 0 at every offset of at most -k;
    different lengths raise AssertionError. *)
Theorem relative_positions_matrix_structure (L : nat) (k : Z) :
  (0 <= k < 2 ^ 62)%Z -> (Z.of_nat L <= 2 ^ 62)%Z ->
  (exists m,
     MultiHeadedAttention_RPR._generate_relative_positions_matrix L L k = Ok m
     /\ (forall i, i < L -> get m [i; i] = k)
     /\ (forall i j, S i < L -> S j < L -> get m [S i; S j] = get m [i; j])
     /\ (forall i j, i < L -> j < L ->
           (get m [i; j] + get m [j; i] = 2 * k)%Z)
     /\ (forall i j, i < L -> j < L ->
           ((k <= Z.of_nat j - Z.of_nat i -> get m [i; j] = 2 * k)
            /\ (Z.of_nat j - Z.of_nat i <= - k -> get m [i; j] = 0))%Z))
  /\ forall d_q d_k, d_k <> d_q ->
       MultiHeadedAttention_RPR._generate_relative_positions_matrix d_q d_k k
       = Raise AssertionError.
Proof.
  intros Hk HL. split; [|intros; apply relative_positions_matrix_assert;
                         assumption].
  rewrite (relative_positions_matrix_value L k Hk HL).
  eexists. split; [reflexivity|].
  assert (Hv : forall i j, i < L -> j < L ->
            get (tabulate [L; L] (fun idx =>
                   (spec_clip (Z.of_nat (nth 1 idx 0%nat)
                               - Z.of_nat (nth 0 idx 0%nat)) (- k) k + k)%Z))
                [i; j]
            = (spec_clip (Z.of_nat j - Z.of_nat i) (- k) k + k)%Z).
  { intros i j Hi Hj.
    rewrite get_tabulate by (apply in_bounds_2; assumption). reflexivity. }
  split; [|split; [|split]].
  - intros i Hi. rewrite Hv by assumption. unfold spec_clip.
    rewrite Z.sub_diag.
    destruct (Z.ltb_spec 0 (- k)); [lia|].
    destruct (Z.ltb_spec k 0); lia.
  - intros i j Hi Hj. rewrite !Hv by lia.
    replace (Z.of_nat (S j) - Z.of_nat (S i))%Z
      with (Z.of_nat j - Z.of_nat i)%Z by lia.
    reflexivity.
  - intros i j Hi Hj. rewrite !Hv by assumption. unfold spec_clip.
    destruct (Z.ltb_spec (Z.of_nat j - Z.of_nat i) (- k));
      destruct (Z.ltb_spec k (Z.of_nat j - Z.of_nat i));
      destruct (Z.ltb_spec (Z.of_nat i - Z.of_nat j) (- k));
      destruct (Z.ltb_spec k (Z.of_nat i - Z.of_nat j)); lia.
  - intros i j Hi Hj. rewrite !Hv by assumption. unfold spec_clip.
    destruct (Z.ltb_spec (Z.of_nat j - Z.of_nat i) (- k));
      destruct (Z.ltb_spec k (Z.of_nat j - Z.of_nat i)); split; lia.
Qed.

Lemma relative_positions_matrix_structure_witness :
  (exists m,
     MultiHeadedAttention_RPR._generate_relative_positions_matrix 3 3 1 = Ok m
     /\ (forall i, i < 3 -> get m [i; i] = 1%Z)
     /\ (forall i j, S i < 3 -> S j < 3 -> get m [S i; S j] = get m [i; j])
     /\ (forall i j, i < 3 -> j < 3 ->
           (get m [i; j] + get m [j; i] = 2 * 1)%Z)
     /\ (forall i j, i < 3 -> j < 3 ->
           ((1 <= Z.of_nat j - Z.of_nat i -> get m [i; j] = 2 * 1)
            /\ (Z.of_nat j - Z.of_nat i <= - 1 -> get m [i; j] = 0))%Z))
  /\ forall d_q d_k, d_k <> d_q ->
       MultiHeadedAttention_RPR._generate_relative_positions_matrix d_q d_k 1
       = Raise AssertionError.
Proof.
  apply (relative_positions_matrix_structure 3 1%Z); [lia | cbn; lia].
Defined.

(** X23 (MultiHeadedAttention_RPR.forward): on a non-empty batch of
    non-empty sequences, with query, key and value of shape (N, L, E) and
    a clipping bound k with 0 <= k < 2^62, the call succeeds in every
    dropout mode, returns a tensor of shape (N, L, E) and the unchanged
    module, and allocates two embedding tables of 2k + 1 rows of width
    d_k. *)
Theorem MultiHeadedAttention_RPR_forward_shapes {T : Type} `{Numeric T}
    (self : MultiHeadedAttention_RPR.t T) (query key value : Tensor T)
    (mask : option (Tensor Z)) (N L E : nat) (w : World T) :
  rpr_dims self E -> 0 < N -> 0 < L -> 0 < E ->
  (0 <= MultiHeadedAttention_RPR.max_relative_position self < 2 ^ 62)%Z ->
  (Z.of_nat L <= 2 ^ 62)%Z ->
  shape query = [N; L; E] -> shape key = [N; L; E] ->
  shape value = [N; L; E] ->
  is_ok (unsqueeze_mask mask) = true ->
  exists out w',
    MultiHeadedAttention_RPR.forward self query key value mask w
    = Ok ((out, self), w')
    /\ shape out = [N; L; E]
    /\ allocated w'
       = allocated w
         ++ [ParamEmbedding
               (Z.to_nat
                  (MultiHeadedAttention_RPR.max_relative_position self * 2 + 1))
               (MultiHeadedAttention_RPR.d_k self);
             ParamEmbedding
               (Z.to_nat
                  (MultiHeadedAttention_RPR.max_relative_position self * 2 + 1))
               (MultiHeadedAttention_RPR.d_k self)].
Proof. apply RPR_forward_shape. Qed.

Lemma c3_rpr_dims : rpr_dims c3_rpr 4.
Proof.
  split; [reflexivity|]. split; [|reflexivity].
  repeat (apply Forall_cons; [split; reflexivity|]). apply Forall_nil.
Qed.

Lemma rpr_negative_dims : rpr_dims rpr_negative 4.
Proof.
  split; [reflexivity|]. split; [|reflexivity].
  repeat (apply Forall_cons; [split; reflexivity|]). apply Forall_nil.
Qed.

Lemma MultiHeadedAttention_RPR_forward_shapes_witness :
  exists out w',
    MultiHeadedAttention_RPR.forward c3_rpr c3_x c3_x c3_x None c3_world
    = Ok ((out, c3_rpr), w')
    /\ shape out = [1; 2; 4]
    /\ allocated w'
       = allocated c3_world
         ++ [ParamEmbedding
               (Z.to_nat
                  (MultiHeadedAttention_RPR.max_relative_position c3_rpr * 2 + 1))
               (MultiHeadedAttention_RPR.d_k c3_rpr);
             ParamEmbedding
               (Z.to_nat
                  (MultiHeadedAttention_RPR.max_relative_position c3_rpr * 2 + 1))
               (MultiHeadedAttention_RPR.d_k c3_rpr)].
Proof.
  apply (MultiHeadedAttention_RPR_forward_shapes c3_rpr c3_x c3_x c3_x None
           1 2 4 c3_world);
    [ exact c3_rpr_dims | lia | lia | lia | cbn; lia | cbn; lia
    | reflexivity | reflexivity | reflexivity | reflexivity ].
Defined.

(** X24 (MultiHeadedAttention_RPR.forward): the mask is never read: two
    calls that differ only in the mask (each mask being None or a tensor
    that can be unsqueezed) return the same result and leave the same
    state, in every dropout mode. *)
Theorem MultiHeadedAttention_RPR_mask_unused {T : Type} `{Numeric T}
    (self : MultiHeadedAttention_RPR.t T) (query key value : Tensor T)
    (mask1 mask2 : option (Tensor Z)) (w : World T) :
  is_ok (unsqueeze_mask mask1) = true ->
  is_ok (unsqueeze_mask mask2) = true ->
  MultiHeadedAttention_RPR.forward self query key value mask1 w
  = MultiHeadedAttention_RPR.forward self query key value mask2 w.
Proof. apply RPR_forward_mask_unused. Qed.

Lemma MultiHeadedAttention_RPR_mask_unused_witness :
  MultiHeadedAttention_RPR.forward c3_rpr c3_x c3_x c3_x
    (Some (mkTensor [1; 2; 2] [0; 0; 0; 0]%Z)) c3_world
  = MultiHeadedAttention_RPR.forward c3_rpr c3_x c3_x c3_x None c3_world.
Proof.
  apply (MultiHeadedAttention_RPR_mask_unused c3_rpr c3_x c3_x c3_x
           (Some (mkTensor [1; 2; 2] [0; 0; 0; 0]%Z)) None c3_world);
    reflexivity.
Defined.

(** X25 (MultiHeadedAttention_RPR.forward): the constructor accepts a
    negative max_relative_position k.  For -2^62 <= k < 0 (the bounds of
    the clamp and the table size 2k + 1 are then int64 values) every call
    of such a module on well-shaped inputs raises RuntimeError: no
    embedding table of 2k + 1 < 0 rows can be created. *)
Theorem MultiHeadedAttention_RPR_negative_bound_raises {T : Type}
    `{Numeric T} (self : MultiHeadedAttention_RPR.t T)
    (query key value : Tensor T) (mask : option (Tensor Z))
    (N L K E : nat) (w : World T) :
  rpr_dims self E -> 0 < N -> 0 < E ->
  shape query = [N; L; E] -> shape key = [N; K; E] ->
  shape value = [N; K; E] ->
  is_ok (unsqueeze_mask mask) = true ->
  (- 2 ^ 62 <= MultiHeadedAttention_RPR.max_relative_position self < 0)%Z ->
  MultiHeadedAttention_RPR.forward self query key value mask w
  = Raise RuntimeError.
Proof. apply RPR_forward_negative_bound. Qed.

Lemma MultiHeadedAttention_RPR_negative_bound_raises_witness :
  MultiHeadedAttention_RPR.forward rpr_negative c3_x c3_x c3_x None c3_world
  = Raise RuntimeError.
Proof.
  apply (MultiHeadedAttention_RPR_negative_bound_raises rpr_negative
           c3_x c3_x c3_x None 1 2 2 4 c3_world);
    [ exact rpr_negative_dims | lia | lia | reflexivity | reflexivity
    | reflexivity | reflexivity | cbn; lia ].
Defined.

(** X26 (MultiHeadedAttention_RPR.forward): keys and values of another
    sequence length than the queries (both lengths above 1) make the call
    raise RuntimeError: the relation embeddings are built for the length
    of the queries only, so the module cannot attend over a memory of
    another length, which MultiHeadedAttention can. *)
Theorem MultiHeadedAttention_RPR_length_mismatch_raises {T : Type}
    `{Numeric T} (self : MultiHeadedAttention_RPR.t T)
    (query key value : Tensor T) (mask : option (Tensor Z))
    (N L K E : nat) (w : World T) :
  rpr_dims self E -> 0 < N -> 0 < E ->
  (0 <= MultiHeadedAttention_RPR.max_relative_position self < 2 ^ 62)%Z ->
  (Z.of_nat L <= 2 ^ 62)%Z ->
  shape query = [N; L; E] -> shape key = [N; K; E] ->
  shape value = [N; K; E] ->
  is_ok (unsqueeze_mask mask) = true ->
  1 < L -> K <> L -> K <> 1 ->
  MultiHeadedAttention_RPR.forward self query key value mask w
  = Raise RuntimeError.
Proof. apply RPR_forward_length_mismatch. Qed.

Lemma MultiHeadedAttention_RPR_length_mismatch_raises_witness :
  MultiHeadedAttention_RPR.forward c3_rpr c3_x c3_memory c3_memory None
    c3_world
  = Raise RuntimeError.
Proof.
  apply (MultiHeadedAttention_RPR_length_mismatch_raises c3_rpr
           c3_x c3_memory c3_memory None 1 2 3 4 c3_world);
    [ exact c3_rpr_dims | lia | lia | cbn; lia | cbn; lia
    | reflexivity | reflexivity | reflexivity | reflexivity
    | lia | lia | lia ].
Defined.

(** ** EncoderLayer and DecoderLayer *)

Section LayerResiduals.
Context {T : Type} `{Numeric T}.

(** One residual step with a sublayer that keeps the shape. *)
Lemma residual_step (s : SublayerConnection.t T) (x : Tensor T)
    (sublayer : Tensor T -> M T (Tensor T)) (pre : list nat) (F : nat)
    (w : World T) :
  sublayer_plain s F -> shape x = pre ++ [F] ->
  (forall n w0, shape n = pre ++ [F] ->
     exists y w1, sublayer n w0 = Ok (y, w1) /\ shape y = pre ++ [F]) ->
  exists n y w1 x1,
    LayerNorm.forward (SublayerConnection.norm s) x = Ok n
    /\ sublayer n w = Ok (y, w1)
    /\ tadd x y = Ok x1
    /\ SublayerConnection.forward s x sublayer w = Ok (x1, w1)
    /\ shape x1 = pre ++ [F]
    /\ forall idx, in_bounds (shape x) idx ->
         get x1 idx = add (get x idx) (get y idx).
Proof.
  intros [Hdims Hdrop] Hx Hsub.
  destruct (LayerNorm_forward_shape _ x pre F Hdims Hx) as (n & Hn & Hsn).
  destruct (Hsub n w Hsn) as (y & w1 & Hy & Hsy).
  assert (Hsyx : shape y = shape x) by congruence.
  exists n, y, w1, (tabulate (shape x) (fun idx => add (get x idx) (get y idx))).
  split; [exact Hn|]. split; [exact Hy|].
  split; [apply tadd_same_shape; exact Hsyx|].
  split; [apply (SublayerConnection_forward_plain s x n y sublayer w w1
                   Hdrop Hn Hy Hsyx)|].
  split; [exact Hx|].
  intros idx Hin. rewrite get_tabulate by exact Hin. reflexivity.
Qed.
End LayerResiduals.

(** X27 (EncoderLayer.forward): with two connections whose dropout is the
    identity and sub-modules that keep the shape of their input, the
    attention module is called on the normalised input as query, key and
    value together with the mask of the call, the feed-forward network is
    called on the normalised sum of the input and of the attention output,
    and the result is input + attention output + feed-forward output, of
    the shape of the input. *)
Theorem EncoderLayer_residual_sum {T : Type} `{Numeric T}
    (self : EncoderLayer.t T) (x : Tensor T) (mask : option (Tensor Z))
    (s0 s1 : SublayerConnection.t T) (pre : list nat) (F : nat)
    (w : World T) :
  EncoderLayer.sublayer self = [s0; s1] ->
  sublayer_plain s0 F -> sublayer_plain s1 F ->
  shape x = pre ++ [F] ->
  (forall n w0, shape n = pre ++ [F] ->
     exists y w1, EncoderLayer.self_attn self n n n mask w0 = Ok (y, w1)
                  /\ shape y = pre ++ [F]) ->
  (forall n w0, shape n = pre ++ [F] ->
     exists y w1, EncoderLayer.feed_forward self n w0 = Ok (y, w1)
                  /\ shape y = pre ++ [F]) ->
  exists n0 a w1 x1 n1 f w2 out,
    LayerNorm.forward (SublayerConnection.norm s0) x = Ok n0
    /\ EncoderLayer.self_attn self n0 n0 n0 mask w = Ok (a, w1)
    /\ tadd x a = Ok x1
    /\ LayerNorm.forward (SublayerConnection.norm s1) x1 = Ok n1
    /\ EncoderLayer.feed_forward self n1 w1 = Ok (f, w2)
    /\ EncoderLayer.forward self x mask w = Ok (out, w2)
    /\ shape out = shape x
    /\ forall idx, in_bounds (shape x) idx ->
         get out idx = add (add (get x idx) (get a idx)) (get f idx).
Proof.
  intros Hs Hp0 Hp1 Hx Hattn Hff.
  destruct (residual_step s0 x
              (fun n => EncoderLayer.self_attn self n n n mask) pre F w
              Hp0 Hx Hattn)
    as (n0 & a & w1 & x1 & Hn0 & Ha & Hx1 & Hf0 & Hsx1 & Hv1).
  destruct (residual_step s1 x1 (EncoderLayer.feed_forward self) pre F w1
              Hp1 Hsx1 Hff)
    as (n1 & f & w2 & out & Hn1 & Hf & _ & Hf1 & Hso & Hv2).
  exists n0, a, w1, x1, n1, f, w2, out.
  split; [exact Hn0|]. split; [exact Ha|]. split; [exact Hx1|].
  split; [exact Hn1|]. split; [exact Hf|].
  split; [rewrite (EncoderLayer_forward_steps self x x1 mask s0 s1 w w1 Hs Hf0);
          exact Hf1|].
  split; [congruence|].
  intros idx Hin.
  rewrite Hv2 by (rewrite Hsx1, <- Hx; exact Hin).
  rewrite Hv1 by exact Hin. reflexivity.
Qed.

Lemma sub4_plain : sublayer_plain sub4 4.
Proof. split; [split; reflexivity | exact dropout_zero_inactive]. Qed.

Lemma EncoderLayer_residual_sum_witness :
  exists n0 a w1 x1 n1 f w2 out,
    LayerNorm.forward (SublayerConnection.norm sub4) c3_x = Ok n0
    /\ EncoderLayer.self_attn enc_echo n0 n0 n0 None c3_world = Ok (a, w1)
    /\ tadd c3_x a = Ok x1
    /\ LayerNorm.forward (SublayerConnection.norm sub4) x1 = Ok n1
    /\ EncoderLayer.feed_forward enc_echo n1 w1 = Ok (f, w2)
    /\ EncoderLayer.forward enc_echo c3_x None c3_world = Ok (out, w2)
    /\ shape out = shape c3_x
    /\ forall idx, in_bounds (shape c3_x) idx ->
         get out idx = add (add (get c3_x idx) (get a idx)) (get f idx).
Proof.
  apply (EncoderLayer_residual_sum enc_echo c3_x None sub4 sub4 [1; 2] 4
           c3_world).
  - reflexivity.
  - exact sub4_plain.
  - exact sub4_plain.
  - reflexivity.
  - intros n w0 Hn. exists n, w0. split; [reflexivity | exact Hn].
  - intros n w0 Hn. exists n, w0. split; [reflexivity | exact Hn].
Defined.

(** X28 (EncoderLayer.forward): an encoder layer of size E made of a
    MultiHeadedAttention module of width E, a PositionwiseFeedForward
    network from E to d_ff features and back, and two connections of size
    E maps a non-empty batch of shape (N, L, E), with a mask that can be
    broadcast to (N, L, L) or none, to a tensor of the same shape, in every
    dropout mode, and allocates nothing. *)
Theorem EncoderLayer_keeps_shape {T : Type} `{Numeric T}
    (attn : MultiHeadedAttention.t T) (ff : PositionwiseFeedForward.t T)
    (s0 s1 : SublayerConnection.t T) (x : Tensor T)
    (mask : option (Tensor Z)) (N L E d_ff : nat) (w : World T) :
  mha_dims attn E ->
  linear_dims (PositionwiseFeedForward.w_1 ff) E d_ff ->
  linear_dims (PositionwiseFeedForward.w_2 ff) d_ff E ->
  layer_norm_dims (SublayerConnection.norm s0) E ->
  layer_norm_dims (SublayerConnection.norm s1) E ->
  0 < N -> 0 < E -> shape x = [N; L; E] -> mha_mask_ok mask N L L ->
  exists out w',
    EncoderLayer.forward
      (EncoderLayer.mk (MultiHeadedAttention_call attn)
         (PositionwiseFeedForward.forward ff) [s0; s1] E)
      x mask w
    = Ok (out, w')
    /\ shape out = [N; L; E]
    /\ allocated w' = allocated w.
Proof.
  intros Ha H1 H2 Hn0 Hn1 HN HE Hx Hmask.
  destruct (LayerNorm_forward_shape _ x [N; L] E Hn0 Hx) as (n0 & Hln0 & Hsn0).
  destruct (MultiHeadedAttention_call_shape attn n0 n0 n0 mask N L L E w
              Ha HN HE Hsn0 Hsn0 Hsn0 Hmask)
    as (a & w1 & Hcall & Hsa & Hal1).
  assert (Hsax : shape a = shape x) by (rewrite Hsa, Hx; reflexivity).
  destruct (SublayerConnection_forward_shape s0 x n0 a
              (fun n => MultiHeadedAttention_call attn n n n mask) w w1
              Hln0 Hcall Hsax)
    as (x1 & w2 & Hf0 & Hsx1 & Hal2).
  assert (Hsx1' : shape x1 = [N; L] ++ [E]) by (rewrite Hsx1, Hx; reflexivity).
  destruct (LayerNorm_forward_shape _ x1 [N; L] E Hn1 Hsx1')
    as (n1 & Hln1 & Hsn1).
  destruct (FeedForward_forward_shape ff n1 [N] L E d_ff w2 H1 H2 Hsn1)
    as (f & w3 & Hff & Hsf & Hal3).
  assert (Hsfx : shape f = shape x1) by (rewrite Hsf, Hsx1'; reflexivity).
  destruct (SublayerConnection_forward_shape s1 x1 n1 f
              (PositionwiseFeedForward.forward ff) w2 w3
              Hln1 Hff Hsfx)
    as (out & w4 & Hf1 & Hso & Hal4).
  exists out, w4. split.
  - rewrite (EncoderLayer_forward_steps
               (EncoderLayer.mk (MultiHeadedAttention_call attn)
                  (PositionwiseFeedForward.forward ff) [s0; s1] E)
               x x1 mask s0 s1 w w2 eq_refl Hf0).
    exact Hf1.
  - split; [rewrite Hso; assumption | congruence].
Qed.

Lemma sub4_dims : layer_norm_dims (SublayerConnection.norm sub4) 4.
Proof. split; reflexivity. Qed.

Lemma EncoderLayer_keeps_shape_witness :
  exists out w',
    EncoderLayer.forward
      (EncoderLayer.mk (MultiHeadedAttention_call c3_mha)
         (PositionwiseFeedForward.forward ffn4) [sub4; sub4] 4)
      c3_x None c3_world
    = Ok (out, w')
    /\ shape out = [1; 2; 4]
    /\ allocated w' = allocated c3_world.
Proof.
  apply (EncoderLayer_keeps_shape c3_mha ffn4 sub4 sub4 c3_x None 1 2 4 4
           c3_world);
    [ exact c3_mha_dims | apply identity_linear_dims
    | apply identity_linear_dims | exact sub4_dims | exact sub4_dims
    | lia | lia | reflexivity | exact I ].
Defined.

(** X29 (DecoderLayer.forward): with three connections whose dropout is
    the identity and sub-modules that keep the shape of their input, the
    self-attention is called on (n, n, n) with the target mask, the source
    attention on (n, memory, memory) with the source mask, each n being
    the normalised running sum, and the result is input + self-attention
    output + source-attention output + feed-forward output, of the shape
    of the input. *)
Theorem DecoderLayer_residual_sum {T : Type} `{Numeric T}
    (self : DecoderLayer.t T) (x memory : Tensor T)
    (src_mask tgt_mask : option (Tensor Z))
    (s0 s1 s2 : SublayerConnection.t T) (pre : list nat) (F : nat)
    (w : World T) :
  DecoderLayer.sublyer self = [s0; s1; s2] ->
  sublayer_plain s0 F -> sublayer_plain s1 F -> sublayer_plain s2 F ->
  shape x = pre ++ [F] ->
  (forall n w0, shape n = pre ++ [F] ->
     exists y w1, DecoderLayer.self_attn self n n n tgt_mask w0 = Ok (y, w1)
                  /\ shape y = pre ++ [F]) ->
  (forall n w0, shape n = pre ++ [F] ->
     exists y w1,
       DecoderLayer.src_attn self n memory memory src_mask w0 = Ok (y, w1)
       /\ shape y = pre ++ [F]) ->
  (forall n w0, shape n = pre ++ [F] ->
     exists y w1, DecoderLayer.feed_forward self n w0 = Ok (y, w1)
                  /\ shape y = pre ++ [F]) ->
  exists n0 a w1 x1 n1 b w2 x2 n2 f w3 out,
    LayerNorm.forward (SublayerConnection.norm s0) x = Ok n0
    /\ DecoderLayer.self_attn self n0 n0 n0 tgt_mask w = Ok (a, w1)
    /\ tadd x a = Ok x1
    /\ LayerNorm.forward (SublayerConnection.norm s1) x1 = Ok n1
    /\ DecoderLayer.src_attn self n1 memory memory src_mask w1 = Ok (b, w2)
    /\ tadd x1 b = Ok x2
    /\ LayerNorm.forward (SublayerConnection.norm s2) x2 = Ok n2
    /\ DecoderLayer.feed_forward self n2 w2 = Ok (f, w3)
    /\ DecoderLayer.forward self x memory src_mask tgt_mask w = Ok (out, w3)
    /\ shape out = shape x
    /\ forall idx, in_bounds (shape x) idx ->
         get out idx
         = add (add (add (get x idx) (get a idx)) (get b idx)) (get f idx).
Proof.
  intros Hs Hp0 Hp1 Hp2 Hx Hself Hsrc Hff.
  destruct (residual_step s0 x
              (fun n => DecoderLayer.self_attn self n n n tgt_mask) pre F w
              Hp0 Hx Hself)
    as (n0 & a & w1 & x1 & Hn0 & Ha & Hx1 & Hf0 & Hsx1 & Hv1).
  destruct (residual_step s1 x1
              (fun n => DecoderLayer.src_attn self n memory memory src_mask)
              pre F w1 Hp1 Hsx1 Hsrc)
    as (n1 & b & w2 & x2 & Hn1 & Hb & Hx2 & Hf1 & Hsx2 & Hv2).
  destruct (residual_step s2 x2 (DecoderLayer.feed_forward self) pre F w2
              Hp2 Hsx2 Hff)
    as (n2 & f & w3 & out & Hn2 & Hf & _ & Hf2 & Hso & Hv3).
  exists n0, a, w1, x1, n1, b, w2, x2, n2, f, w3, out.
  split; [exact Hn0|]. split; [exact Ha|]. split; [exact Hx1|].
  split; [exact Hn1|]. split; [exact Hb|]. split; [exact Hx2|].
  split; [exact Hn2|]. split; [exact Hf|].
  split; [rewrite (DecoderLayer_forward_steps self x memory x1 x2 src_mask
                     tgt_mask s0 s1 s2 w w1 w2 Hs Hf0 Hf1);
          exact Hf2|].
  split; [congruence|].
  intros idx Hin.
  rewrite Hv3 by (rewrite Hsx2, <- Hx; exact Hin).
  rewrite Hv2 by (rewrite Hsx1, <- Hx; exact Hin).
  rewrite Hv1 by exact Hin. reflexivity.
Qed.

Lemma DecoderLayer_residual_sum_witness :
  exists n0 a w1 x1 n1 b w2 x2 n2 f w3 out,
    LayerNorm.forward (SublayerConnection.norm sub4) c3_x = Ok n0
    /\ DecoderLayer.self_attn dec_echo n0 n0 n0 None c3_world = Ok (a, w1)
    /\ tadd c3_x a = Ok x1
    /\ LayerNorm.forward (SublayerConnection.norm sub4) x1 = Ok n1
    /\ DecoderLayer.src_attn dec_echo n1 c3_memory c3_memory None w1
       = Ok (b, w2)
    /\ tadd x1 b = Ok x2
    /\ LayerNorm.forward (SublayerConnection.norm sub4) x2 = Ok n2
    /\ DecoderLayer.feed_forward dec_echo n2 w2 = Ok (f, w3)
    /\ DecoderLayer.forward dec_echo c3_x c3_memory None None c3_world
       = Ok (out, w3)
    /\ shape out = shape c3_x
    /\ forall idx, in_bounds (shape c3_x) idx ->
         get out idx
         = add (add (add (get c3_x idx) (get a idx)) (get b idx)) (get f idx).
Proof.
  apply (DecoderLayer_residual_sum dec_echo c3_x c3_memory None None
           sub4 sub4 sub4 [1; 2] 4 c3_world).
  - reflexivity.
  - exact sub4_plain.
  - exact sub4_plain.
  - exact sub4_plain.
  - reflexivity.
  - intros n w0 Hn. exists n, w0. split; [reflexivity | exact Hn].
  - intros n w0 Hn. exists n, w0. split; [reflexivity | exact Hn].
  - intros n w0 Hn. exists n, w0. split; [reflexivity | exact Hn].
Defined.

(** X30 (DecoderLayer.forward): a decoder layer of size E made of two
    MultiHeadedAttention modules of width E, a PositionwiseFeedForward
    network and three connections of size E maps a non-empty batch of
    shape (N, L, E) and a memory of shape (N, S, E), whose length S may
    differ from L, to a tensor of shape (N, L, E), in every dropout mode
    (the target mask fitting (N, L, L), the source mask (N, L, S)), and
    allocates nothing. *)
Theorem DecoderLayer_keeps_shape {T : Type} `{Numeric T}
    (attn src : MultiHeadedAttention.t T) (ff : PositionwiseFeedForward.t T)
    (s0 s1 s2 : SublayerConnection.t T) (x memory : Tensor T)
    (src_mask tgt_mask : option (Tensor Z)) (N L K E d_ff : nat)
    (w : World T) :
  mha_dims attn E -> mha_dims src E ->
  linear_dims (PositionwiseFeedForward.w_1 ff) E d_ff ->
  linear_dims (PositionwiseFeedForward.w_2 ff) d_ff E ->
  layer_norm_dims (SublayerConnection.norm s0) E ->
  layer_norm_dims (SublayerConnection.norm s1) E ->
  layer_norm_dims (SublayerConnection.norm s2) E ->
  0 < N -> 0 < E ->
  shape x = [N; L; E] -> shape memory = [N; K; E] ->
  mha_mask_ok tgt_mask N L L -> mha_mask_ok src_mask N L K ->
  exists out w',
    DecoderLayer.forward
      (DecoderLayer.mk E (MultiHeadedAttention_call attn)
         (MultiHeadedAttention_call src)
         (PositionwiseFeedForward.forward ff) [s0; s1; s2])
      x memory src_mask tgt_mask w
    = Ok (out, w')
    /\ shape out = [N; L; E]
    /\ allocated w' = allocated w.
Proof.
  intros Ha Hsrc H1 H2 Hn0 Hn1 Hn2 HN HE Hx Hmem Htgt Hsm.
  destruct (LayerNorm_forward_shape _ x [N; L] E Hn0 Hx) as (n0 & Hln0 & Hsn0).
  destruct (MultiHeadedAttention_call_shape attn n0 n0 n0 tgt_mask N L L E w
              Ha HN HE Hsn0 Hsn0 Hsn0 Htgt)
    as (a & w1 & Hcall & Hsa & Hal1).
  assert (Hsax : shape a = shape x) by (rewrite Hsa, Hx; reflexivity).
  destruct (SublayerConnection_forward_shape s0 x n0 a
              (fun n => MultiHeadedAttention_call attn n n n tgt_mask) w w1
              Hln0 Hcall Hsax)
    as (x1 & w2 & Hf0 & Hsx1 & Hal2).
  assert (Hsx1' : shape x1 = [N; L] ++ [E]) by (rewrite Hsx1, Hx; reflexivity).
  destruct (LayerNorm_forward_shape _ x1 [N; L] E Hn1 Hsx1')
    as (n1 & Hln1 & Hsn1).
  destruct (MultiHeadedAttention_call_shape src n1 memory memory src_mask
              N L K E w2 Hsrc HN HE Hsn1 Hmem Hmem Hsm)
    as (b & w3 & Hcall2 & Hsb & Hal3).
  assert (Hsbx : shape b = shape x1) by (rewrite Hsb, Hsx1'; reflexivity).
  destruct (SublayerConnection_forward_shape s1 x1 n1 b
              (fun n => MultiHeadedAttention_call src n memory memory src_mask)
              w2 w3 Hln1 Hcall2 Hsbx)
    as (x2 & w4 & Hf1 & Hsx2 & Hal4).
  assert (Hsx2' : shape x2 = [N; L] ++ [E]) by (rewrite Hsx2, Hsx1'; reflexivity).
  destruct (LayerNorm_forward_shape _ x2 [N; L] E Hn2 Hsx2')
    as (n2 & Hln2 & Hsn2).
  destruct (FeedForward_forward_shape ff n2 [N] L E d_ff w4 H1 H2 Hsn2)
    as (f & w5 & Hff & Hsf & Hal5).
  assert (Hsfx : shape f = shape x2) by (rewrite Hsf, Hsx2'; reflexivity).
  destruct (SublayerConnection_forward_shape s2 x2 n2 f
              (PositionwiseFeedForward.forward ff) w4 w5
              Hln2 Hff Hsfx)
    as (out & w6 & Hf2 & Hso & Hal6).
  exists out, w6. split.
  - rewrite (DecoderLayer_forward_steps
               (DecoderLayer.mk E (MultiHeadedAttention_call attn)
                  (MultiHeadedAttention_call src)
                  (PositionwiseFeedForward.forward ff) [s0; s1; s2])
               x memory x1 x2 src_mask tgt_mask
               s0 s1 s2 w w2 w4 eq_refl Hf0 Hf1).
    exact Hf2.
  - split; [rewrite Hso; assumption | congruence].
Qed.

Lemma DecoderLayer_keeps_shape_witness :
  exists out w',
    DecoderLayer.forward
      (DecoderLayer.mk 4 (MultiHeadedAttention_call c3_mha)
         (MultiHeadedAttention_call c3_mha)
         (PositionwiseFeedForward.forward ffn4) [sub4; sub4; sub4])
      c3_x c3_memory None None c3_world
    = Ok (out, w')
    /\ shape out = [1; 2; 4]
    /\ allocated w' = allocated c3_world.
Proof.
  apply (DecoderLayer_keeps_shape c3_mha c3_mha ffn4 sub4 sub4 sub4
           c3_x c3_memory None None 1 2 3 4 4 c3_world);
    [ exact c3_mha_dims | exact c3_mha_dims | apply identity_linear_dims
    | apply identity_linear_dims | exact sub4_dims | exact sub4_dims
    | exact sub4_dims | lia | lia | reflexivity | reflexivity
    | exact I | exact I ].
Defined.
